(** * keras_cv_attention_models: CoAtNet / VOLO building blocks

    A shallow embedding of the layer helpers of [common_layers.py], the
    block composers and the stage loops of [coatnet/coatnet.py] and
    [volo/volo.py], together with the properties their documentation
    states.

    Conventions.
    - Python integers are [Z]; Python floats that configure a model
      (ratios, rates) are exact rationals [Q]; tensor elements are real
      numbers [R].
    - A Keras functional-API call builds a node of a layer graph: the
      helpers that only wire layers return the symbolic tensor
      ([ktensor]) they build.
    - Code that computes on tensors ([tf.pad], [tf.reshape], slicing,
      [tf.matmul], ...) is embedded over shaped index functions
      ([tensor]).
    - A Python exception raised by the repository's own arithmetic is a
      [Raise] of the [result] monad. *)

From Stdlib Require Import ZArith QArith Qround Reals Qreals List String Ascii Bool Lia Lqa Lra.
From Stdlib Require DecimalString.
Import ListNotations.

Local Open Scope string_scope.
Local Open Scope list_scope.
Local Open Scope Z_scope.

(* ================================================================== *)
(** * Python values and built-ins *)
(* ================================================================== *)

Inductive pyexc : Set :=
| ZeroDivisionError
| TypeError
| IndexError
| AttributeError
| ValueError.

Inductive result (A : Type) : Type :=
| Ok (a : A)
| Raise (e : pyexc).

Arguments Ok {A} a.
Arguments Raise {A} e.

Definition bind {A B : Type} (r : result A) (k : A -> result B) : result B :=
  match r with
  | Ok a => k a
  | Raise e => Raise e
  end.

Notation "x <- r ;; k" := (bind r (fun x => k))
  (at level 61, r at next level, right associativity).

(** [int(x)] on a float: truncation towards zero. *)
Definition py_int (x : Q) : Z := Z.quot (Qnum x) (Zpos (Qden x)).

(** [a // b] on integers: floor division, [ZeroDivisionError] when [b = 0]. *)
Definition py_floordiv (a b : Z) : result Z :=
  if b =? 0 then Raise ZeroDivisionError else Ok (a / b).

(** [a / b] on numbers: true division. *)
Definition py_truediv (a b : Q) : result Q :=
  if Qeq_bool b 0 then Raise ZeroDivisionError else Ok (a / b)%Q.

(** [math.ceil] of a rational. *)
Definition py_ceil (x : Q) : Z := Qceiling x.

(** [str.upper] and [str.lower] on ASCII text. *)
Definition upper_ascii (c : ascii) : ascii :=
  let n := nat_of_ascii c in
  if (97 <=? n)%nat && (n <=? 122)%nat then ascii_of_nat (n - 32) else c.

Definition lower_ascii (c : ascii) : ascii :=
  let n := nat_of_ascii c in
  if (65 <=? n)%nat && (n <=? 90)%nat then ascii_of_nat (n + 32) else c.

Fixpoint str_upper (s : string) : string :=
  match s with
  | EmptyString => EmptyString
  | String c r => String (upper_ascii c) (str_upper r)
  end.

Fixpoint str_lower (s : string) : string :=
  match s with
  | EmptyString => EmptyString
  | String c r => String (lower_ascii c) (str_lower r)
  end.

(** A layer name is [None] or a string; [name and name + suffix]. *)
Definition pyname := option string.

Definition name_truthy (name : pyname) : bool :=
  match name with
  | None => false
  | Some EmptyString => false
  | Some _ => true
  end.

Definition name_and (name : pyname) (suffix : string) : pyname :=
  if name_truthy name
  then match name with Some s => Some (s ++ suffix)%string | None => None end
  else name.

(** [seq[i]] with Python's negative indices. *)
Definition py_index {A : Type} (l : list A) (i : Z) : result A :=
  let n := Z.of_nat (List.length l) in
  let j := if i <? 0 then i + n else i in
  if (j <? 0) || (n <=? j) then Raise IndexError
  else match nth_error l (Z.to_nat j) with
       | Some a => Ok a
       | None => Raise IndexError
       end.

(** [list.pop(i)] as used on [shared_axes]: the list without item [i]. *)
Definition py_pop {A : Type} (l : list A) (i : Z) : result (list A) :=
  let n := Z.of_nat (List.length l) in
  let j := if i <? 0 then i + n else i in
  if (j <? 0) || (n <=? j) then Raise IndexError
  else Ok (firstn (Z.to_nat j) l ++ skipn (S (Z.to_nat j)) l).

(** [list(range(a, b))]. *)
Definition py_range (a b : Z) : list Z :=
  map (fun k => a + Z.of_nat k) (seq 0 (Z.to_nat (b - a))).

(* ================================================================== *)
(** * common_layers.py: make_divisible *)
(* ================================================================== *)

(** [make_divisible(vv, divisor=4, min_value=None)] *)
Definition make_divisible (vv : Q) (divisor : Z) (min_value : option Z) : result Z :=
  let min_value := match min_value with None => divisor | Some m => m end in
  q <- py_floordiv (py_int (vv + inject_Z divisor / 2)%Q) divisor ;;
  let new_v := Z.max min_value (q * divisor) in
  (* Make sure that round down does not go down by more than 10%. *)
  if Qlt_le_dec (inject_Z new_v) ((9 # 10) * vv)%Q
  then Ok (new_v + divisor)
  else Ok new_v.

(* ================================================================== *)
(** * Keras functional API: layers and symbolic tensors *)
(* ================================================================== *)

(** [K.image_data_format()] *)
Inductive data_format : Set := channels_last | channels_first.

(** The [activation] argument of [keras.layers.Activation]: the
    repository's own [hard_swish] function, or a Keras identifier. *)
Inductive activation_fn : Set :=
| hard_swish
| keras_identifier (identifier : string).

(** A [kernel_size] argument: an integer, or a list / tuple of them. *)
Inductive kernel_spec : Set :=
| KInt (k : Z)
| KSeq (ks : list Z).

(** The layers the helpers instantiate, with the constructor arguments
    the code passes.  Every convolution gets
    [kernel_initializer=CONV_KERNEL_INITIALIZER], which is left out. *)
Inductive layer : Type :=
| Activation (activation : activation_fn) (name : pyname)
| PReLU (shared_axes : list Z) (alpha_initializer : Q) (name : pyname)
| BatchNormalization (axis : Z) (momentum epsilon : Q) (gamma_zeros : bool) (name : pyname)
| ZeroPadding2D (padding : Z) (name : pyname)
| DepthwiseConv2D (kernel_size : kernel_spec) (strides : Z) (padding : string)
                  (use_bias : bool) (name : pyname)
| Conv2D (filters : Z) (kernel_size : kernel_spec) (strides : Z) (padding : string)
         (use_bias : bool) (groups : Z) (name : pyname)
| AvgPool2D (pool_size strides : Z) (padding : string) (name : pyname)
| Dropout (rate : Q) (noise_shape : list (option Z)) (name : pyname)
| Multiply (name : pyname)
| Add
| ReduceMean (axis : list Z) (keepdims : bool).  (* tf.reduce_mean *)

(** A symbolic tensor: the model input, or the output of a layer called
    on symbolic tensors. *)
#[warnings="-register-all"] Inductive ktensor : Type :=
| KInput (shape : list (option Z))
| KLayer (l : layer) (inputs : list ktensor).

(** ** Static shapes, as Keras infers them *)

Definition kdim := option Z.

(** [conv_utils.conv_output_length] with dilation 1. *)
Definition conv_output_length (input_length : kdim) (filter_size : Z)
    (padding : string) (stride : Z) : kdim :=
  match input_length with
  | None => None
  | Some n =>
      let output_length :=
        if String.eqb (str_lower padding) "same" then n else n - filter_size + 1 in
      Some ((output_length + stride - 1) / stride)
  end.

Definition kernel_hw (k : kernel_spec) : Z * Z :=
  match k with
  | KInt k => (k, k)
  | KSeq (kh :: kw :: _) => (kh, kw)
  | KSeq _ => (0, 0)
  end.

(** A rank-4 shape read as (batch, height, width, channels). *)
Definition to_bhwc (fmt : data_format) (s : list kdim) : option (kdim * kdim * kdim * kdim) :=
  match fmt, s with
  | channels_last, [b; h; w; c] => Some (b, h, w, c)
  | channels_first, [b; c; h; w] => Some (b, h, w, c)
  | _, _ => None
  end.

Definition of_bhwc (fmt : data_format) (b h w c : kdim) : list kdim :=
  match fmt with
  | channels_last => [b; h; w; c]
  | channels_first => [b; c; h; w]
  end.

Definition kdim_add (d : kdim) (k : Z) : kdim := option_map (fun n => n + k) d.

(** Broadcast of two dimensions in a merge layer. *)
Definition broadcast_dim (a b : kdim) : kdim :=
  match a, b with
  | Some 1, _ => b
  | _, Some 1 => a
  | None, _ => None
  | _, None => None
  | Some x, Some _ => Some x
  end.

Fixpoint zip_with {A B C : Type} (f : A -> B -> C) (l : list A) (m : list B) : list C :=
  match l, m with
  | a :: l', b :: m' => f a b :: zip_with f l' m'
  | _, _ => []
  end.

Definition broadcast_shape (s1 s2 : list kdim) : list kdim :=
  let n1 := List.length s1 in
  let n2 := List.length s2 in
  let p1 := repeat (Some 1) (n2 - n1) ++ s1 in
  let p2 := repeat (Some 1) (n1 - n2) ++ s2 in
  zip_with broadcast_dim p1 p2.

Definition normalize_axis (rank : nat) (a : Z) : Z :=
  if a <? 0 then a + Z.of_nat rank else a.

Definition reduce_shape (s : list kdim) (axis : list Z) (keepdims : bool) : list kdim :=
  let axes := map (normalize_axis (List.length s)) axis in
  let tagged := combine (map Z.of_nat (seq 0 (List.length s))) s in
  flat_map (fun '(i, d) =>
              if existsb (Z.eqb i) axes
              then (if keepdims then [Some 1] else [])
              else [d]) tagged.

Definition layer_output_shape (fmt : data_format) (l : layer) (ins : list (list kdim)) : list kdim :=
  let s := hd [] ins in
  match l with
  | Activation _ _ | PReLU _ _ _ | BatchNormalization _ _ _ _ _ | Dropout _ _ _ => s
  | ZeroPadding2D p _ =>
      match to_bhwc fmt s with
      | Some (b, h, w, c) => of_bhwc fmt b (kdim_add h (2 * p)) (kdim_add w (2 * p)) c
      | None => s
      end
  | DepthwiseConv2D k st pad _ _ =>
      match to_bhwc fmt s with
      | Some (b, h, w, c) =>
          of_bhwc fmt b (conv_output_length h (fst (kernel_hw k)) pad st)
                  (conv_output_length w (snd (kernel_hw k)) pad st) c
      | None => s
      end
  | Conv2D f k st pad _ _ _ =>
      match to_bhwc fmt s with
      | Some (b, h, w, c) =>
          of_bhwc fmt b (conv_output_length h (fst (kernel_hw k)) pad st)
                  (conv_output_length w (snd (kernel_hw k)) pad st) (Some f)
      | None => s
      end
  | AvgPool2D p st pad _ =>
      match to_bhwc fmt s with
      | Some (b, h, w, c) =>
          of_bhwc fmt b (conv_output_length h p pad st) (conv_output_length w p pad st) c
      | None => s
      end
  | Multiply _ | Add =>
      match ins with
      | [] => []
      | s0 :: rest => fold_left broadcast_shape rest s0
      end
  | ReduceMean axis keepdims => reduce_shape s axis keepdims
  end.

(** [inputs.shape] of a symbolic tensor. *)
Fixpoint kshape (fmt : data_format) (t : ktensor) : list kdim :=
  match t with
  | KInput s => s
  | KLayer l ins => layer_output_shape fmt l (map (kshape fmt) ins)
  end.

(* ================================================================== *)
(** * common_layers.py: layer helpers *)
(* ================================================================== *)

Definition BATCH_NORM_DECAY : Q := 9 # 10.
Definition BATCH_NORM_EPSILON : Q := 1 # 100000.

(** [name and activation and name + activation] *)
Definition activation_layer_name (name activation : pyname) : pyname :=
  if name_truthy name then
    if name_truthy activation then
      match name, activation with
      | Some n, Some a => Some (n ++ a)%string
      | _, _ => None
      end
    else activation
  else name.

(** [activation_by_name(inputs, activation="relu", name=None)].
    [activation] is a string or [None]; [None.lower()] raises. *)
Definition activation_by_name (fmt : data_format) (inputs : ktensor)
    (activation : pyname) (name : pyname) : result ktensor :=
  let layer_name := activation_layer_name name activation in
  match activation with
  | None => Raise AttributeError
  | Some act =>
      if String.eqb act "hard_swish" then
        Ok (KLayer (Activation hard_swish layer_name) [inputs])
      else if String.eqb (str_lower act) "prelu" then
        let shared_axes := py_range 1 (Z.of_nat (List.length (kshape fmt inputs))) in
        shared_axes <- py_pop shared_axes
                         (match fmt with channels_last => -1 | channels_first => 0 end) ;;
        Ok (KLayer (PReLU shared_axes (1 # 4) layer_name) [inputs])
      else if name_truthy activation then
        Ok (KLayer (Activation (keras_identifier act) layer_name) [inputs])
      else Ok inputs
  end.

(** [batchnorm_with_activation(inputs, activation="relu", zero_gamma=False,
    epsilon=BATCH_NORM_EPSILON, act_first=False, name=None)].  The
    [epsilon] argument is not read by the body. *)
Definition batchnorm_with_activation (fmt : data_format) (inputs : ktensor)
    (activation : pyname) (zero_gamma : bool) (epsilon : Q) (act_first : bool)
    (name : pyname) : result ktensor :=
  let bn_axis := match fmt with channels_last => -1 | channels_first => 1 end in
  inputs <- (if act_first && name_truthy activation
             then activation_by_name fmt inputs activation name
             else Ok inputs) ;;
  let nn := KLayer (BatchNormalization bn_axis BATCH_NORM_DECAY BATCH_NORM_EPSILON
                      zero_gamma (name_and name "bn")) [inputs] in
  if negb act_first && name_truthy activation
  then activation_by_name fmt nn activation name
  else Ok nn.

(** [max(kernel_size) // 2 if isinstance(kernel_size, (list, tuple))
    else kernel_size // 2] *)
Definition kernel_pad (kernel_size : kernel_spec) : result Z :=
  match kernel_size with
  | KInt k => Ok (k / 2)
  | KSeq [] => Raise ValueError
  | KSeq (k :: ks) => Ok (fold_left Z.max ks k / 2)
  end.

(** [conv2d_no_bias(inputs, filters, kernel_size, strides=1,
    padding="VALID", use_bias=False, groups=1, name=None)] *)
Definition conv2d_no_bias (inputs : ktensor) (filters : Z) (kernel_size : kernel_spec)
    (strides : Z) (padding : string) (use_bias : bool) (groups : Z)
    (name : pyname) : result ktensor :=
  pad <- kernel_pad kernel_size ;;
  let inputs :=
    if String.eqb (str_upper padding) "SAME" && negb (pad =? 0)
    then KLayer (ZeroPadding2D pad (name_and name "pad")) [inputs]
    else inputs in
  let groups := Z.max 1 groups in
  if groups =? filters
  then Ok (KLayer (DepthwiseConv2D kernel_size strides "VALID" use_bias
                     (name_and name "conv")) [inputs])
  else Ok (KLayer (Conv2D filters kernel_size strides "VALID" use_bias groups
                     (name_and name "conv")) [inputs]).

(** [depthwise_conv2d_no_bias(inputs, kernel_size, strides=1,
    padding="VALID", use_bias=False, name=None)] *)
Definition depthwise_conv2d_no_bias (inputs : ktensor) (kernel_size : kernel_spec)
    (strides : Z) (padding : string) (use_bias : bool) (name : pyname) : result ktensor :=
  pad <- kernel_pad kernel_size ;;
  let inputs :=
    if String.eqb (str_upper padding) "SAME" && negb (pad =? 0)
    then KLayer (ZeroPadding2D pad (name_and name "dw_pad")) [inputs]
    else inputs in
  Ok (KLayer (DepthwiseConv2D kernel_size strides "valid" use_bias
                (name_and name "dw_conv")) [inputs]).

(** [se_module(inputs, se_ratio=0.25, divisor=8, activation="relu",
    use_bias=True, name=None)] *)
Definition se_module (fmt : data_format) (inputs : ktensor) (se_ratio : Q) (divisor : Z)
    (activation : pyname) (use_bias : bool) (name : pyname) : result ktensor :=
  let channel_axis := match fmt with channels_first => 1 | channels_last => -1 end in
  let '(h_axis, w_axis) :=
    match fmt with channels_first => (2, 3) | channels_last => (1, 2) end in
  filters <- py_index (kshape fmt inputs) channel_axis ;;
  filters <- match filters with Some f => Ok f | None => Raise TypeError end ;;
  reduction <- make_divisible (inject_Z filters * se_ratio) divisor None ;;
  let se := KLayer (ReduceMean [h_axis; w_axis] true) [inputs] in
  let se := KLayer (Conv2D reduction (KInt 1) 1 "valid" use_bias 1
                      (name_and name "1_conv")) [se] in
  se <- activation_by_name fmt se activation name ;;
  let se := KLayer (Conv2D filters (KInt 1) 1 "valid" use_bias 1
                      (name_and name "2_conv")) [se] in
  se <- activation_by_name fmt se (Some "sigmoid"%string) name ;;
  Ok (KLayer (Multiply (name_and name "out")) [inputs; se]).

(** [drop_block(inputs, drop_rate=0, name=None)] *)
Definition drop_block (fmt : data_format) (inputs : ktensor) (drop_rate : Q)
    (name : pyname) : ktensor :=
  if Qlt_le_dec 0 drop_rate then
    let noise_shape := None :: repeat (Some 1) (List.length (kshape fmt inputs) - 1) in
    KLayer (Dropout drop_rate noise_shape (name_and name "drop")) [inputs]
  else inputs.

(** ** Reading a layer graph *)

Definition is_DepthwiseConv2D (l : layer) : bool :=
  match l with DepthwiseConv2D _ _ _ _ _ => true | _ => false end.

Definition is_Conv2D (l : layer) : bool :=
  match l with Conv2D _ _ _ _ _ _ _ => true | _ => false end.

(** The [padding] argument of a convolution layer. *)
Definition conv_padding_arg (l : layer) : option string :=
  match l with
  | DepthwiseConv2D _ _ padding _ _ => Some padding
  | Conv2D _ _ _ padding _ _ _ => Some padding
  | _ => None
  end.

(** The [kernel_size] and [strides] arguments of a convolution layer. *)
Definition conv_kernel_strides (l : layer) : option (kernel_spec * Z) :=
  match l with
  | DepthwiseConv2D k s _ _ _ => Some (k, s)
  | Conv2D _ k s _ _ _ _ => Some (k, s)
  | _ => None
  end.

(** The layers on the way from the model input to [t], following the
    first input of every layer call, in the order they are applied. *)
Fixpoint layer_chain (t : ktensor) : list layer :=
  match t with
  | KInput _ => []
  | KLayer l ins =>
      match ins with
      | [] => [l]
      | x :: _ => layer_chain x ++ [l]
      end
  end.

(** Activation layers, which [activation_by_name] inserts or not
    depending on the [activation] argument. *)
Definition is_activation_layer (l : layer) : bool :=
  match l with Activation _ _ | PReLU _ _ _ => true | _ => false end.

(** The chain without its activation layers. *)
Definition layer_chain_no_act (t : ktensor) : list layer :=
  filter (fun l => negb (is_activation_layer l)) (layer_chain t).

(** The input of the convolution layer: the zero-padded input when
    [padding.upper() == "SAME"] and [kernel_size // 2 != 0]. *)
Definition deferred_pad (inputs : ktensor) (k : Z) (padding : string) (pad_name : pyname)
  : ktensor :=
  if String.eqb (str_upper padding) "SAME" && negb (k / 2 =? 0)
  then KLayer (ZeroPadding2D (k / 2) pad_name) [inputs]
  else inputs.


(** The layer [conv2d_no_bias] builds for a [1 x 1] convolution with
    [groups] left at 1: its [groups == filters] test makes it a
    [DepthwiseConv2D] when [filters] is 1. *)
Definition pointwise_conv_layer (filters : Z) (name : pyname) : layer :=
  if 1 =? filters
  then DepthwiseConv2D (KInt 1) 1 "VALID" false name
  else Conv2D filters (KInt 1) 1 "VALID" false 1 name.

(* ================================================================== *)
(** * coatnet/coatnet.py *)
(* ================================================================== *)

(** [res_MBConv(inputs, output_channel, conv_short_cut=True, strides=1,
    expansion=4, se_ratio=0, drop_rate=0, activation="gelu", name="")] *)
Definition res_MBConv (fmt : data_format) (inputs : ktensor) (output_channel : Z)
    (conv_short_cut : bool) (strides : Z) (expansion : Z) (se_ratio : Q)
    (drop_rate : Q) (activation : pyname) (name : string) : result ktensor :=
  let nm (suffix : string) : pyname := Some (name ++ suffix)%string in
  (* preact *)
  preact <- batchnorm_with_activation fmt inputs activation false BATCH_NORM_EPSILON
              false (nm "preact_") ;;
  shortcut <-
    (if conv_short_cut then
       let shortcut :=
         if 1 <? strides
         then KLayer (AvgPool2D strides strides "SAME" (nm "shortcut_pool")) [preact]
         else preact in
       conv2d_no_bias shortcut output_channel (KInt 1) 1 "VALID" false 1 (nm "shortcut_")
     else Ok inputs) ;;
  (* MBConv *)
  input_channel <- py_index (kshape fmt inputs) (-1) ;;
  input_channel <- match input_channel with Some c => Ok c | None => Raise TypeError end ;;
  nn <- conv2d_no_bias preact (input_channel * expansion) (KInt 1) 1 "same" false 1
          (nm "expand_") ;;
  nn <- batchnorm_with_activation fmt nn activation false BATCH_NORM_EPSILON false
          (nm "expand_") ;;
  nn <- depthwise_conv2d_no_bias nn (KInt 3) strides "same" false (nm "MB_") ;;
  nn <- batchnorm_with_activation fmt nn activation false BATCH_NORM_EPSILON false
          (nm "MB_dw_") ;;
  nn <- (if negb (Qeq_bool se_ratio 0) then
           ratio <- py_truediv se_ratio (inject_Z expansion) ;;
           se_module fmt nn ratio 8 activation true (nm "se_")
         else Ok nn) ;;
  nn <- conv2d_no_bias nn output_channel (KInt 1) 1 "same" false 1 (nm "MB_pw_") ;;
  let nn := drop_block fmt nn drop_rate (Some name) in
  Ok (KLayer Add [shortcut; nn]).

(** A [se_ratio] argument of [CoAtNet]: a number, or a list / tuple. *)
#[warnings="-register-all"] Inductive se_spec : Type :=
| SeNum (q : Q)
| SeSeq (l : list se_spec).

(** The arguments the stage loop of [CoAtNet] passes to a block
    composer: [res_MBConv] for a conv block, [res_mhsa] followed by
    [res_ffn] (both with the same [drop_rate]) otherwise. *)
Record coatnet_block : Type := {
  cb_stack_id : Z;
  cb_block_id : Z;
  cb_is_conv_block : bool;
  cb_out_channel : Z;
  cb_conv_short_cut : bool;
  cb_strides : Z;
  cb_se_ratio : se_spec;
  cb_drop_rate : Q
}.

Fixpoint py_zip3 {A B C : Type} (a : list A) (b : list B) (c : list C) : list (A * B * C) :=
  match a, b, c with
  | x :: a', y :: b', z :: c' => (x, y, z) :: py_zip3 a' b' c'
  | _, _, _ => []
  end.

Definition py_enumerate {A : Type} (l : list A) : list (Z * A) :=
  combine (map Z.of_nat (seq 0 (List.length l))) l.

Definition py_sum (l : list Z) : Z := fold_left Z.add l 0.

(** [for x in xs: state = body(state, x)], stopping at the first raise. *)
Fixpoint for_each {S X : Type} (body : S -> X -> result S) (xs : list X) (s : S) : result S :=
  match xs with
  | [] => Ok s
  | x :: xs' => s' <- body s x ;; for_each body xs' s'
  end.

(** [s[i] if isinstance(s, (list, tuple)) else s] *)
Definition se_pick (s : se_spec) (i : Z) : result se_spec :=
  match s with
  | SeNum _ => Ok s
  | SeSeq l => py_index l i
  end.

(** The loop state: the blocks built so far and [global_block_id]. *)
Definition coatnet_state : Type := list coatnet_block * Z.

(** The stage loop of [CoAtNet(num_blocks, out_channels, ...,
    block_types, ..., se_ratio, ..., drop_connect_rate, ...)]: the
    blocks it builds, in construction order. *)
Definition CoAtNet_blocks (num_blocks out_channels : list Z) (block_types : list string)
    (se_ratio : se_spec) (drop_connect_rate : Q) : result (list coatnet_block) :=
  let total_blocks := py_sum num_blocks in
  let global_block_id := 0 in
  st <- for_each
    (fun (st : coatnet_state) '(stack_id, (num_block, out_channel, block_type)) =>
       c0 <- match block_type with
             | EmptyString => Raise IndexError
             | String c _ => Ok c
             end ;;
       let is_conv_block := Ascii.eqb (lower_ascii c0) "c"%char in
       stack_se_ratio <- se_pick se_ratio stack_id ;;
       for_each
         (fun (st : coatnet_state) (block_id : Z) =>
            let '(built, global_block_id) := st in
            let strides := if block_id =? 0 then 2 else 1 in
            let conv_short_cut := block_id =? 0 in
            block_se_ratio <- se_pick stack_se_ratio block_id ;;
            block_drop_rate <-
              py_truediv (drop_connect_rate * inject_Z global_block_id)
                         (inject_Z total_blocks) ;;
            let global_block_id := global_block_id + 1 in
            Ok (built ++ [{| cb_stack_id := stack_id; cb_block_id := block_id;
                             cb_is_conv_block := is_conv_block;
                             cb_out_channel := out_channel;
                             cb_conv_short_cut := conv_short_cut;
                             cb_strides := strides;
                             cb_se_ratio := block_se_ratio;
                             cb_drop_rate := block_drop_rate |}],
                global_block_id))
         (py_range 0 num_block) st)
    (py_enumerate (py_zip3 num_blocks out_channels block_types))
    ([], global_block_id) ;;
  Ok (fst st).

(* ================================================================== *)
(** * volo/volo.py: the stage loops of VOLO *)
(* ================================================================== *)

(** The arguments of one [attention_mlp_block] call. *)
Record volo_block : Type := {
  vb_embed_dim : Z;
  vb_num_head : Z;
  vb_mlp_ratio : Z;
  vb_attention_type : string;
  vb_drop_rate : Q
}.

Definition volo_state : Type := list volo_block * Z.

(** One [for ii in range(num_block)] loop of ["forward_tokens"]. *)
Definition VOLO_stage (drop_connect_rate : Q) (total_blocks : Z)
    (num_block embed_dim num_head mlp_ratio : Z) (attention_type : string)
    (st : volo_state) : result volo_state :=
  for_each
    (fun (st : volo_state) (ii : Z) =>
       let '(built, global_block_id) := st in
       block_drop_rate <-
         py_truediv (drop_connect_rate * inject_Z global_block_id)
                    (inject_Z total_blocks) ;;
       Ok (built ++ [{| vb_embed_dim := embed_dim; vb_num_head := num_head;
                        vb_mlp_ratio := mlp_ratio;
                        vb_attention_type := attention_type;
                        vb_drop_rate := block_drop_rate |}],
           global_block_id + 1))
    (py_range 0 num_block) st.

(** ["forward_tokens"]: the outlook blocks, then the MHSA blocks. *)
Definition VOLO_forward_tokens (num_blocks embed_dims num_heads mlp_ratios : list Z)
    (drop_connect_rate : Q) (first_attn_type : string) : result (list volo_block) :=
  let total_blocks := py_sum num_blocks in
  let global_block_id := 0 in
  (* Outlook attentions *)
  num_block <- py_index num_blocks 0 ;;
  embed_dim <- py_index embed_dims 0 ;;
  num_head <- py_index num_heads 0 ;;
  mlp_ratio <- py_index mlp_ratios 0 ;;
  st <- VOLO_stage drop_connect_rate total_blocks num_block embed_dim num_head mlp_ratio
          first_attn_type ([], global_block_id) ;;
  (* MHSA attentions *)
  num_block <- py_index num_blocks 1 ;;
  embed_dim <- py_index embed_dims 1 ;;
  num_head <- py_index num_heads 1 ;;
  mlp_ratio <- py_index mlp_ratios 1 ;;
  st <- VOLO_stage drop_connect_rate total_blocks num_block embed_dim num_head mlp_ratio
          "mhsa" st ;;
  Ok (fst st).

(** ["forward_cls"]: the class-attention blocks, built when
    [num_classes != 0]; [drop_rate] is left at its default 0. *)
Definition VOLO_forward_cls (embed_dims num_heads mlp_ratios : list Z)
    (num_classes classfiers : Z) : result (list volo_block) :=
  if num_classes =? 0 then Ok []
  else
    embed_dim <- py_index embed_dims (-1) ;;
    num_head <- py_index num_heads (-1) ;;
    mlp_ratio <- py_index mlp_ratios (-1) ;;
    Ok (map (fun _ => {| vb_embed_dim := embed_dim; vb_num_head := num_head;
                         vb_mlp_ratio := mlp_ratio; vb_attention_type := "class";
                         vb_drop_rate := 0 |})
            (py_range 0 classfiers)).

(** ** The stochastic-depth schedule, as documented

    "[drop_connect_rate]: ... the drop probability linearly changes from
    [0 --> drop_connect_rate] for top --> bottom layers". *)

(** The rate of the block with 0-based construction index [i]. *)
Definition linear_drop_rate (drop_connect_rate : Q) (total_blocks : Z) (i : nat) : Q :=
  (drop_connect_rate * inject_Z (Z.of_nat i) / inject_Z total_blocks)%Q.

Definition non_decreasing (rates : list Q) : Prop :=
  forall (i j : nat) (ri rj : Q),
    (i <= j)%nat -> nth_error rates i = Some ri -> nth_error rates j = Some rj ->
    (ri <= rj)%Q.

(** The schedule the documentation describes, for the rates of the
    blocks in construction order. *)
Definition drop_rate_schedule (drop_connect_rate : Q) (num_blocks : list Z)
    (rates : list Q) : Prop :=
  let total_blocks := py_sum num_blocks in
  (forall i r, nth_error rates i = Some r ->
               r = linear_drop_rate drop_connect_rate total_blocks i) /\
  (forall r, nth_error rates 0 = Some r -> (r == 0)%Q) /\
  (Forall (fun n => 0 <= n) num_blocks ->
   ((0 <= drop_connect_rate)%Q ->
    non_decreasing rates /\ forall r, In r rates -> (r <= drop_connect_rate)%Q) /\
   ((0 < drop_connect_rate)%Q ->
    forall r, In r rates -> (r < drop_connect_rate)%Q)).

(* ================================================================== *)
(** * Invariants of the block-building loops *)
(* ================================================================== *)

(** The loop invariant: [global_block_id] counts the blocks built, and
    block [i] got the rate [drop_connect_rate * i / total_blocks]. *)
Definition rates_linear (dcr : Q) (total : Z) (rates : list Q) : Prop :=
  forall i r, nth_error rates i = Some r -> r = linear_drop_rate dcr total i.

(** The state of the [CoAtNet] loop. *)
Definition coatnet_inv (dcr : Q) (total : Z) (st : coatnet_state) : Prop :=
  snd st = Z.of_nat (List.length (fst st)) /\
  rates_linear dcr total (map cb_drop_rate (fst st)).

(** The number of blocks one stack contributes. *)
Definition stack_size (x : Z * (Z * Z * string)) : nat :=
  let '(_, (num_block, _, _)) := x in Z.to_nat num_block.

(** The state of the [VOLO] loop. *)
Definition volo_inv (dcr : Q) (total : Z) (st : volo_state) : Prop :=
  snd st = Z.of_nat (List.length (fst st)) /\
  rates_linear dcr total (map vb_drop_rate (fst st)).


(* ================================================================== *)
(** * Tensors and the TensorFlow operations the code calls *)
(* ================================================================== *)

(** A tensor: its shape and its element at a multi-index.  Only the
    elements at in-range indices are meaningful. *)
Record tensor : Type := mkT { shape : list Z; at_ : list Z -> R }.

Fixpoint in_rangeb (s idx : list Z) : bool :=
  match s, idx with
  | [], [] => true
  | d :: s', i :: idx' => (0 <=? i) && (i <? d) && in_rangeb s' idx'
  | _, _ => false
  end.

Definition in_range (s idx : list Z) : Prop := in_rangeb s idx = true.

(** Two tensors with the same shape and the same elements. *)
Definition tensor_eq (a b : tensor) : Prop :=
  shape a = shape b /\
  forall idx, in_range (shape a) idx -> at_ a idx = at_ b idx.

Definition numel (s : list Z) : Z := fold_right Z.mul 1 s.

Definition rank (t : tensor) : Z := Z.of_nat (List.length (shape t)).

(** [sum(f(k) for k in range(n))] *)
Definition Rsum (n : Z) (f : Z -> R) : R :=
  fold_right (fun k acc => (f k + acc)%R) 0%R (py_range 0 n).

(** Row-major position of a multi-index, and back. *)
Definition ravel (s idx : list Z) : Z :=
  fold_left (fun acc '(d, i) => acc * d + i) (combine s idx) 0.

Fixpoint unravel (s : list Z) (k : Z) : list Z :=
  match s with
  | [] => []
  | d :: s' => k / numel s' :: unravel s' (k mod numel s')
  end.

Definition zeros (s : list Z) : tensor := mkT s (fun _ => 0%R).

(** [tf.pad(t, paddings)]: constant zero padding. *)
Definition tf_pad (t : tensor) (paddings : list (Z * Z)) : tensor :=
  mkT (zip_with (fun d '(before, after) => before + d + after) (shape t) paddings)
      (fun idx =>
         let src := zip_with (fun i '(before, _) => i - before) idx paddings in
         if in_rangeb (shape t) src then at_ t src else 0%R).

(** One component of a subscript: [start:stop:step], any of the bounds
    possibly omitted.  Every slice of the code has a positive step. *)
Record pyslice : Type := Slice { sl_start : option Z; sl_stop : option Z; sl_step : Z }.

Definition slice_all : pyslice := Slice None None 1.
Definition slice_to (stop : Z) : pyslice := Slice None (Some stop) 1.
Definition slice_from (start : Z) : pyslice := Slice (Some start) None 1.
Definition slice_range (start stop : Z) : pyslice := Slice (Some start) (Some stop) 1.

Definition clamp_bound (len : Z) (b : Z) : Z :=
  let b := if b <? 0 then b + len else b in
  Z.min len (Z.max 0 b).

(** First index and length selected by a slice on a dimension of
    size [len] (step > 0). *)
Definition slice_start (len : Z) (sl : pyslice) : Z :=
  match sl_start sl with None => 0 | Some b => clamp_bound len b end.

Definition slice_stop (len : Z) (sl : pyslice) : Z :=
  match sl_stop sl with None => len | Some b => clamp_bound len b end.

Definition slice_len (len : Z) (sl : pyslice) : Z :=
  let start := slice_start len sl in
  let stop := slice_stop len sl in
  if start <? stop then (stop - start - 1) / sl_step sl + 1 else 0.

(** [t[s0, s1, ...]] with one slice per dimension. *)
Definition tf_slice (t : tensor) (slices : list pyslice) : tensor :=
  mkT (zip_with slice_len (shape t) slices)
      (fun idx =>
         at_ t (zip_with (fun '(d, sl) i => slice_start d sl + i * sl_step sl)
                         (combine (shape t) slices) idx)).

(** [tf.reshape(t, s)]; one entry of [s] may be -1. *)
Definition resolve_shape (total : Z) (s : list Z) : list Z :=
  let known := numel (filter (fun d => negb (d =? -1)) s) in
  map (fun d => if d =? -1 then total / known else d) s.

Definition tf_reshape (t : tensor) (s : list Z) : tensor :=
  let s' := resolve_shape (numel (shape t)) s in
  mkT s' (fun idx => at_ t (unravel (shape t) (ravel s' idx))).

(** Position of [j] in [perm]. *)
Fixpoint index_of (j : Z) (perm : list Z) : nat :=
  match perm with
  | [] => 0
  | p :: perm' => if p =? j then 0%nat else S (index_of j perm')
  end.

(** [tf.transpose(t, perm)]: axis [k] of the result is axis [perm[k]]
    of [t]. *)
Definition tf_transpose (t : tensor) (perm : list Z) : tensor :=
  mkT (map (fun p => nth (Z.to_nat p) (shape t) 0) perm)
      (fun idx =>
         at_ t (map (fun j => nth (index_of j perm) idx 0)
                    (py_range 0 (Z.of_nat (List.length perm))))).

Fixpoint list_update {A : Type} (l : list A) (n : nat) (a : A) : list A :=
  match l, n with
  | [], _ => []
  | _ :: l', O => a :: l'
  | x :: l', S n' => x :: list_update l' n' a
  end.

(** [tf.concat([a, b], axis)] *)
Definition tf_concat2 (a b : tensor) (axis : Z) : tensor :=
  let ax := Z.to_nat (normalize_axis (List.length (shape a)) axis) in
  let da := nth ax (shape a) 0 in
  let db := nth ax (shape b) 0 in
  mkT (list_update (shape a) ax (da + db))
      (fun idx =>
         let i := nth ax idx 0 in
         if i <? da then at_ a idx else at_ b (list_update idx ax (i - da))).

(** Broadcast of an index of the result onto an operand of shape [s]
    (same rank): size-1 dimensions read index 0. *)
Definition broadcast_index (s idx : list Z) : list Z :=
  zip_with (fun d i => if d =? 1 then 0 else i) s idx.

Definition broadcast_dims (s1 s2 : list Z) : list Z :=
  zip_with (fun a b => if a =? 1 then b else a) s1 s2.

Definition left_pad_shape (n : nat) (s : list Z) : list Z :=
  repeat 1 (n - List.length s) ++ s.

(** Elementwise binary operation with NumPy broadcasting. *)
Definition broadcast_op (f : R -> R -> R) (a b : tensor) : tensor :=
  let n := Nat.max (List.length (shape a)) (List.length (shape b)) in
  let sa := left_pad_shape n (shape a) in
  let sb := left_pad_shape n (shape b) in
  mkT (broadcast_dims sa sb)
      (fun idx =>
         f (at_ a (skipn (n - List.length (shape a)) (broadcast_index sa idx)))
           (at_ b (skipn (n - List.length (shape b)) (broadcast_index sb idx)))).

Definition tensor_add : tensor -> tensor -> tensor := broadcast_op Rplus.
Definition tensor_mul : tensor -> tensor -> tensor := broadcast_op Rmult.

Definition tensor_map (f : R -> R) (t : tensor) : tensor :=
  mkT (shape t) (fun idx => f (at_ t idx)).

(** [t / c] for a scalar [c]. *)
Definition tensor_div_scalar (t : tensor) (c : R) : tensor :=
  tensor_map (fun x => (x / c)%R) t.

(** [tf.matmul(a, b)]: matrix product over the last two axes, equal
    leading axes. *)
Definition tf_matmul (a b : tensor) : tensor :=
  let n := List.length (shape a) in
  let batch := firstn (n - 2) (shape a) in
  let m := nth (n - 2) (shape a) 0 in
  let k := nth (n - 1) (shape a) 0 in
  let p := nth (n - 1) (shape b) 0 in
  mkT (batch ++ [m; p])
      (fun idx =>
         let pre := firstn (n - 2) idx in
         let i := nth (n - 2) idx 0 in
         let j := nth (n - 1) idx 0 in
         Rsum k (fun l => (at_ a (pre ++ [i; l]) * at_ b (pre ++ [l; j]))%R)).

(** [tf.nn.softmax(t, axis=-1)] *)
Definition tf_softmax (t : tensor) : tensor :=
  let n := List.length (shape t) in
  let k := nth (n - 1) (shape t) 0 in
  mkT (shape t)
      (fun idx =>
         let pre := firstn (n - 1) idx in
         (exp (at_ t idx) / Rsum k (fun l => exp (at_ t (pre ++ [l]))))%R).

(** [tf.reduce_mean(t, [1, 2], keepdims=True)] on a rank-4 tensor. *)
Definition tf_reduce_mean_hw (t : tensor) : tensor :=
  match shape t with
  | [b; h; w; c] =>
      mkT [b; 1; 1; c]
          (fun idx =>
             match idx with
             | [ib; _; _; ic] =>
                 (Rsum h (fun i => Rsum w (fun j => at_ t [ib; i; j; ic])) / IZR (h * w))%R
             | _ => 0%R
             end)
  | _ => t
  end.

(** [tf.reduce_mean(t, [2, 3], keepdims=True)] on a rank-4 tensor. *)
Definition tf_reduce_mean_23 (t : tensor) : tensor :=
  match shape t with
  | [b; c; h; w] =>
      mkT [b; c; 1; 1]
          (fun idx =>
             match idx with
             | [ib; ic; _; _] =>
                 (Rsum h (fun i => Rsum w (fun j => at_ t [ib; ic; i; j])) / IZR (h * w))%R
             | _ => 0%R
             end)
  | _ => t
  end.

(* ================================================================== *)
(** * Forward pass of the Keras layers applied to tensors *)
(* ================================================================== *)



(** The noise tensor of [Dropout(rate, noise_shape)]: [None] entries
    take the dimension of the input. *)
Definition Dropout_noise_dims (noise_shape : list (option Z)) (s : list Z) : list Z :=
  zip_with (fun n d => match n with None => d | Some v => v end) noise_shape s.

(** [keras.layers.Dropout(rate, noise_shape)(x, training=True)].
    [keep] is the Bernoulli draw, one boolean per element of the noise
    tensor; the noise is broadcast over the input, dropped elements
    become 0 and kept ones are scaled by [1 / (1 - rate)]. *)
Definition Dropout_training (rate : Q) (noise_shape : list (option Z))
    (keep : list Z -> bool) (x : tensor) : tensor :=
  let noise_dims := Dropout_noise_dims noise_shape (shape x) in
  mkT (shape x)
      (fun idx =>
         if keep (broadcast_index noise_dims idx)
         then (at_ x idx * / (1 - Q2R rate))%R
         else 0%R).

(** The weights of a [Dense] layer: a [units_in x units] kernel and a
    bias vector. *)
Record dense_weights : Type := { kernel : tensor; bias : tensor }.

(** [keras.layers.Dense(units, use_bias)(x)]: applied to the last axis. *)
Definition Dense (units : Z) (use_bias : bool) (w : dense_weights) (x : tensor) : tensor :=
  mkT (removelast (shape x) ++ [units])
      (fun idx =>
         let pre := removelast idx in
         let o := last idx 0 in
         let units_in := last (shape x) 0 in
         (Rsum units_in (fun c => at_ x (pre ++ [c]) * at_ (kernel w) [c; o])
          + (if use_bias then at_ (bias w) [o] else 0))%R).

(** [keras.layers.AveragePooling2D(pool_size, strides)(x)]: VALID
    padding, channels last. *)
Definition AveragePooling2D (pool_size strides : Z) (x : tensor) : tensor :=
  match shape x with
  | [b; h; w; c] =>
      mkT [b; (h - pool_size + strides) / strides; (w - pool_size + strides) / strides; c]
          (fun idx =>
             match idx with
             | [ib; i; j; ic] =>
                 let window (di dj : Z) :=
                   at_ x [ib; i * strides + di; j * strides + dj; ic] in
                 (Rsum pool_size (fun di => Rsum pool_size (fun dj => window di dj))
                  / IZR (pool_size * pool_size))%R
             | _ => 0%R
             end)
  | _ => x
  end.

(** [keras.layers.ZeroPadding2D(((top, bottom), (left, right)))(x)] *)
Definition ZeroPadding2D_fwd (top bottom left right : Z) (x : tensor) : tensor :=
  tf_pad x [(0, 0); (top, bottom); (left, right); (0, 0)].

(** What a model is built and run with: whether a TPU is present, and
    the forward pass of [Dropout(rate)] in the current phase (the
    identity outside training). *)
Record keras_env : Type := {
  on_tpu : bool;
  dropout_fwd : Q -> tensor -> tensor
}.

(* ================================================================== *)
(** * Forward pass of a layer graph *)
(* ================================================================== *)

(** The logistic function, Keras' ["sigmoid"] activation. *)
Definition sigmoid (x : R) : R := (1 / (1 + exp (- x)))%R.

(** The value a layer computes from the values of its inputs.  The
    layers whose value the properties below speak about are spelled
    out; [framework] stands for the forward pass of every other layer
    (with its weights). *)
Definition layer_fwd (framework : layer -> list tensor -> tensor) (l : layer)
    (ins : list tensor) : tensor :=
  match l, ins with
  | Activation (keras_identifier id) _, [x] =>
      if String.eqb id "sigmoid" then tensor_map sigmoid x else framework l ins
  | Multiply _, [x; y] => tensor_mul x y
  | Add, [x; y] => tensor_add x y
  | ReduceMean [1; 2] true, [x] => tf_reduce_mean_hw x
  | ReduceMean [2; 3] true, [x] => tf_reduce_mean_23 x
  | _, _ => framework l ins
  end.

(** The value of a symbolic tensor when the model input has value
    [input]. *)
Fixpoint forward (framework : layer -> list tensor -> tensor) (input : tensor)
    (t : ktensor) : tensor :=
  match t with
  | KInput _ => input
  | KLayer l ins => layer_fwd framework l (map (forward framework input) ins)
  end.

(** The mean over the two spatial axes, keeping them with size 1. *)
Definition spatial_mean (fmt : data_format) : tensor -> tensor :=
  match fmt with
  | channels_last => tf_reduce_mean_hw
  | channels_first => tf_reduce_mean_23
  end.

(** A rank-4 shape with its spatial sizes replaced by 1, and a rank-4
    index with its spatial positions replaced by 0. *)
Definition spatial_ones (fmt : data_format) (s : list Z) : list Z :=
  match fmt, s with
  | channels_last, [b; _; _; c] => [b; 1; 1; c]
  | channels_first, [b; c; _; _] => [b; c; 1; 1]
  | _, _ => s
  end.

Definition spatial_origin (fmt : data_format) (idx : list Z) : list Z :=
  match fmt, idx with
  | channels_last, [b; _; _; c] => [b; 0; 0; c]
  | channels_first, [b; c; _; _] => [b; c; 0; 0]
  | _, _ => idx
  end.

Definition channel_axis (fmt : data_format) : Z :=
  match fmt with channels_first => 1 | channels_last => -1 end.

Definition spatial_axes (fmt : data_format) : list Z :=
  match fmt with channels_first => [2; 3] | channels_last => [1; 2] end.

(* ================================================================== *)
(** * Patch extraction *)
(* ================================================================== *)

(** Modelled from the TensorFlow documentation:
    [tf.image.extract_patches(images, sizes, strides, rates, padding)]
    with [sizes = [1, k, k, 1]], [strides = [1, s, s, 1]] and
    [rates = [1, 1, 1, 1]].  The result has shape
    [[batch, out_rows, out_cols, k * k * depth]]; the patch at
    [(i, j)] lists, row by row and pixel by pixel, the [depth] values
    of the [k * k] window whose corner is [(i * s - pad_top,
    j * s - pad_left)]; positions outside the image read 0.  With
    VALID padding only windows inside the image are produced; with
    SAME padding there are [ceil(in / s)] of them and the padding
    [max((out - 1) * s + k - in, 0)] is split with the smaller half
    first. *)
Definition patches_out_size (n k s : Z) (padding : string) : Z :=
  if String.eqb (str_upper padding) "SAME"
  then (n + s - 1) / s
  else Z.max 0 ((n - k + s) / s).

Definition patches_pad_before (n k s : Z) (padding : string) : Z :=
  if String.eqb (str_upper padding) "SAME"
  then Z.max ((patches_out_size n k s padding - 1) * s + k - n) 0 / 2
  else 0.

Definition tf_image_extract_patches (images : tensor) (sizes strides rates : list Z)
    (padding : string) : tensor :=
  let k := nth 1 sizes 0 in
  let s := nth 1 strides 0 in
  match shape images with
  | [b; h; w; c] =>
      let top := patches_pad_before h k s padding in
      let left := patches_pad_before w k s padding in
      mkT [b; patches_out_size h k s padding; patches_out_size w k s padding; k * k * c]
          (fun idx =>
             match idx with
             | [ib; i; j; d] =>
                 let kr := d / (k * c) in
                 let kc := d / c mod k in
                 let ic := d mod c in
                 let src := [ib; i * s + kr - top; j * s + kc - left; ic] in
                 if in_rangeb (shape images) src then at_ images src else 0%R
             | _ => 0%R
             end)
  | _ => images
  end.

(** An argument that is an integer or a list / tuple of integers
    ([sizes], [strides]). *)
Definition int_or_seq := kernel_spec.

(** [x[1] if isinstance(x, (list, tuple)) else x] *)
Definition second_if_seq (x : int_or_seq) : result Z :=
  match x with
  | KSeq l => py_index l 1
  | KInt v => Ok v
  end.

(** common_layers.py:
    [tpu_extract_patches_overlap_1(inputs, sizes=3, strides=2, rates=1,
    padding="SAME", name=None)].  [rates] and [name] are not read. *)
Definition tpu_extract_patches_overlap_1 (inputs : tensor) (sizes strides : int_or_seq)
    (rates : int_or_seq) (padding : string) : result tensor :=
  kernel_size <- second_if_seq sizes ;;
  strides <- second_if_seq strides ;;
  let pad_inputs :=
    if String.eqb (str_upper padding) "SAME" then
      let pad := kernel_size / 2 in
      tf_pad inputs [(0, 0); (pad, pad); (pad, pad); (0, 0)]
    else inputs in
  match shape pad_inputs with
  | [_; ww; hh; cc] =>
      q <- py_truediv (inject_Z ww) (inject_Z strides) ;;
      let num_patches := py_ceil q - 1 in
      let valid_ww := num_patches * strides in
      let overlap_s := kernel_size - strides in
      let temp_shape := [-1; num_patches; strides; num_patches; strides; cc] in
      let center :=
        tf_reshape (tf_slice pad_inputs
                      [slice_all; slice_to valid_ww; slice_to valid_ww; slice_all])
                   temp_shape in
      let ww_overlap :=
        tf_reshape (tf_slice pad_inputs
                      [slice_all; slice_to valid_ww;
                       slice_range overlap_s (valid_ww + overlap_s); slice_all])
                   temp_shape in
      let hh_overlap :=
        tf_reshape (tf_slice pad_inputs
                      [slice_all; slice_range overlap_s (valid_ww + overlap_s);
                       slice_to valid_ww; slice_all])
                   temp_shape in
      let corner_overlap :=
        tf_reshape (tf_slice pad_inputs
                      [slice_all; slice_range overlap_s (valid_ww + overlap_s);
                       slice_range overlap_s (valid_ww + overlap_s); slice_all])
                   temp_shape in
      let aa :=
        tf_concat2 center
          (tf_slice ww_overlap
             [slice_all; slice_all; slice_all; slice_all; slice_from (- overlap_s);
              slice_all]) 4 in
      let bb :=
        tf_concat2
          (tf_slice hh_overlap
             [slice_all; slice_all; slice_from (- overlap_s); slice_all; slice_all;
              slice_all])
          (tf_slice corner_overlap
             [slice_all; slice_all; slice_from (- overlap_s); slice_all;
              slice_from (- overlap_s); slice_all]) 4 in
      let out := tf_concat2 aa bb 2 in
      let out := tf_transpose out [0; 1; 3; 2; 4; 5] in
      Ok (tf_reshape out [-1; num_patches; num_patches; kernel_size * kernel_size * cc])
  | _ => Raise ValueError
  end.

(* ================================================================== *)
(** * volo/volo.py: UnfoldMatmulFold *)
(* ================================================================== *)

(** The attributes [__init__] sets. *)
Record UnfoldMatmulFold : Type := {
  umf_kernel_size : Z;
  umf_padding : Z;
  umf_strides : Z;
  umf_final_output_shape : Z * Z * Z;
  umf_out_channel : Z;
  umf_patch_kernel : list Z;
  umf_patch_strides : list Z;
  umf_fold_overlap_pad : list (Z * Z);
  umf_patch_pad : list (Z * Z);
  umf_out_start_h : Z;
  umf_out_start_w : Z;
  umf_out_end_h : Z;
  umf_out_end_w : Z;
  umf_extract_patches :
    tensor -> list Z -> list Z -> list Z -> string -> result tensor
}.

(** [int(tf.math.ceil(a / b))] *)
Definition int_ceil_div (a b : Z) : result Z :=
  q <- py_truediv (inject_Z a) (inject_Z b) ;;
  Ok (py_ceil q).

(** [UnfoldMatmulFold.__init__(self, final_output_shape, kernel_size=1,
    padding=1, strides=1)] *)
Definition UnfoldMatmulFold_init (env : keras_env) (final_output_shape : Z * Z * Z)
    (kernel_size padding strides : Z) : result UnfoldMatmulFold :=
  let '(height, width, channel) := final_output_shape in
  let patch_kernel := [1; kernel_size; kernel_size; 1] in
  let patch_strides := [1; strides; strides; 1] in
  let overlap_pad := (0, 2 * strides - kernel_size) in
  ch <- int_ceil_div height 2 ;;
  (* Make patches number even *)
  let hh_pad := if ch mod 2 =? 0 then (0, 0) else (0, 1) in
  cw <- int_ceil_div width 2 ;;
  let ww_pad := if cw mod 2 =? 0 then (0, 0) else (0, 1) in
  let fold_overlap_pad := [(0, 0); hh_pad; ww_pad; overlap_pad; overlap_pad; (0, 0)] in
  let '(patch_pad, out_start) :=
    if padding =? 1 then
      let pad := kernel_size / 2 in
      ([(0, 0); (pad, pad); (pad, pad); (0, 0)], pad)
    else ([(0, 0); (0, 0); (0, 0); (0, 0)], 0) in
  Ok {| umf_kernel_size := kernel_size;
        umf_padding := padding;
        umf_strides := strides;
        umf_final_output_shape := (height, width, channel);
        umf_out_channel := channel;
        umf_patch_kernel := patch_kernel;
        umf_patch_strides := patch_strides;
        umf_fold_overlap_pad := fold_overlap_pad;
        umf_patch_pad := patch_pad;
        umf_out_start_h := out_start;
        umf_out_start_w := out_start;
        umf_out_end_h := out_start + height;
        umf_out_end_w := out_start + width;
        umf_extract_patches :=
          if on_tpu env then
            (* Using TPU, tf.image.extract_patches NOT working *)
            fun images sizes strides rates padding =>
              tpu_extract_patches_overlap_1 images (KSeq sizes) (KSeq strides)
                (KSeq rates) padding
          else
            fun images sizes strides rates padding =>
              Ok (tf_image_extract_patches images sizes strides rates padding) |}.

(** [UnfoldMatmulFold.pad_overlap(self, patches, start_h, start_w)] *)
Definition pad_overlap (self : UnfoldMatmulFold) (patches : tensor) (start_h start_w : Z)
  : tensor :=
  let bb := tf_slice patches
              [slice_all; Slice (Some start_h) None 2; slice_all;
               Slice (Some start_w) None 2; slice_all; slice_all] in
  let s := shape bb in
  let bb := tf_reshape bb
              [-1; nth 1 s 0 * nth 2 s 0; nth 3 s 0 * nth 4 s 0; last s 0] in
  let pad_h := if start_h =? 0 then (0, umf_strides self) else (umf_strides self, 0) in
  let pad_w := if start_w =? 0 then (0, umf_strides self) else (umf_strides self, 0) in
  let padding := [(0, 0); pad_h; pad_w; (0, 0)] in
  tf_pad bb padding.

(** [UnfoldMatmulFold.fold_overlap_1(self, patches)] *)
Definition fold_overlap_1 (self : UnfoldMatmulFold) (patches : tensor) : tensor :=
  let aa := tf_pad patches (umf_fold_overlap_pad self) in
  let aa := tf_transpose aa [0; 1; 3; 2; 4; 5] in
  let cc := tensor_add
              (tensor_add
                 (tensor_add (pad_overlap self aa 0 0) (pad_overlap self aa 0 1))
                 (pad_overlap self aa 1 0))
              (pad_overlap self aa 1 1) in
  tf_slice cc [slice_all;
               slice_range (umf_out_start_h self) (umf_out_end_h self);
               slice_range (umf_out_start_w self) (umf_out_end_w self);
               slice_all].

(** [UnfoldMatmulFold.call(self, inputs)] with [inputs = [vv, attn]].
    The closing [output.set_shape] only annotates the static shape. *)
Definition UnfoldMatmulFold_call (self : UnfoldMatmulFold) (vv attn : tensor)
  : result tensor :=
  let hh := nth 1 (shape attn) 0 in
  let ww := nth 2 (shape attn) 0 in
  let num_head := nth 3 (shape attn) 0 in
  (* unfold *)
  let pad_vv := tf_pad vv (umf_patch_pad self) in
  patches <- umf_extract_patches self pad_vv (umf_patch_kernel self)
               (umf_patch_strides self) [1; 1; 1; 1] "VALID" ;;
  (* matmul *)
  per_head <- py_floordiv (umf_out_channel self) num_head ;;
  let mm := tf_reshape patches
              [-1; hh; ww; umf_kernel_size self * umf_kernel_size self; num_head;
               per_head] in
  let mm := tf_transpose mm [0; 1; 2; 4; 3; 5] in
  let mm := tf_matmul attn mm in
  let mm := tf_transpose mm [0; 1; 2; 4; 3; 5] in
  let mm := tf_reshape mm
              [-1; hh; ww; umf_kernel_size self; umf_kernel_size self;
               umf_out_channel self] in
  (* fold *)
  Ok (fold_overlap_1 self mm).

(** ** Windows of the unfold step

    With [kernel_size = 3], [strides = 2] and [padding = 1] the unfold
    step extracts, along an axis of the padded input, the windows
    [i = 0 .. n - 1] spanning positions [2 i .. 2 i + 2]. *)
Definition num_windows (size : Z) : Z := patches_out_size (size + 2) 3 2 "VALID".

Definition window_covers (i r : Z) : bool := (2 * i <=? r) && (r <=? 2 * i + 2).

(** The number of extracted windows that cover position [(r, s)] of the
    padded input. *)
Definition covering_windows (hh ww r s : Z) : Z :=
  Z.of_nat
    (List.length
       (filter (fun '(i, j) => window_covers i r && window_covers j s)
               (list_prod (py_range 0 hh) (py_range 0 ww)))).

(** A stack of identity matrices: the attention every window passes
    its values through unchanged. *)
Definition identity_attention (attn : tensor) : Prop :=
  forall b i j h p q,
    in_range (shape attn) [b; i; j; h; p; q] ->
    at_ attn [b; i; j; h; p; q] = if p =? q then 1%R else 0%R.

(** Whether the fold step adds, at position [r] of the padded axis, a
    contribution of a window of parity [sh] among the first [n]: the
    windows of one parity tile the axis in strips of 4, three positions
    of a window and one of padding. *)
Definition fold_hit (n sh r : Z) : bool :=
  let r' := r - 2 * sh in
  (0 <=? r') && (r' mod 4 <? 3) && (2 * (r' / 4) + sh <? n).

(** The layer [UnfoldMatmulFold((height, width, channel), 3, 1, 2)]. *)
Definition umf_3_1_2 (extract : tensor -> list Z -> list Z -> list Z -> string -> result tensor)
    (H W C : Z) : UnfoldMatmulFold :=
  {| umf_kernel_size := 3;
     umf_padding := 1;
     umf_strides := 2;
     umf_final_output_shape := (H, W, C);
     umf_out_channel := C;
     umf_patch_kernel := [1; 3; 3; 1];
     umf_patch_strides := [1; 2; 2; 1];
     umf_fold_overlap_pad :=
       [(0, 0);
        if ((H + 2 - 1) / 2) mod 2 =? 0 then (0, 0) else (0, 1);
        if ((W + 2 - 1) / 2) mod 2 =? 0 then (0, 0) else (0, 1);
        (0, 1); (0, 1); (0, 0)];
     umf_patch_pad := [(0, 0); (1, 1); (1, 1); (0, 0)];
     umf_out_start_h := 1;
     umf_out_start_w := 1;
     umf_out_end_h := 1 + H;
     umf_out_end_w := 1 + W;
     umf_extract_patches := extract |}.

(* ================================================================== *)
(** * volo/volo.py: outlook attention *)
(* ================================================================== *)

(** The learned weights of an outlook-attention block: the value
    projection ["v"], the attention-weight dense ["attn"] and the output
    dense ["out"]. *)
Record outlook_weights : Type := {
  w_v : dense_weights;
  w_attn : dense_weights;
  w_out : dense_weights
}.

(** [_, height, width, channel = inputs.shape] *)
Definition unpack_bhwc (s : list Z) : result (Z * Z * Z) :=
  match s with
  | [_; height; width; channel] => Ok (height, width, channel)
  | _ => Raise ValueError
  end.

(** [outlook_attention(inputs, embed_dim, num_head, kernel_size=3,
    padding=1, strides=2, attn_dropout=0, output_dropout=0, name="")] *)
Definition outlook_attention (env : keras_env) (w : outlook_weights) (inputs : tensor)
    (embed_dim num_head kernel_size padding strides : Z)
    (attn_dropout output_dropout : Q) : result tensor :=
  hwc <- unpack_bhwc (shape inputs) ;;
  let '(height, width, channel) := hwc in
  per_head <- py_floordiv embed_dim num_head ;;
  let qk_scale := sqrt (IZR per_head) in
  hh <- int_ceil_div height strides ;;
  ww <- int_ceil_div width strides ;;
  let vv := Dense embed_dim false (w_v w) inputs in
  (* attention *)
  let attn := AveragePooling2D strides strides inputs in
  let attn := tensor_div_scalar (Dense (kernel_size ^ 4 * num_head) true (w_attn w) attn)
                                qk_scale in
  let attn := tf_reshape attn
                [-1; hh; ww; num_head; kernel_size * kernel_size;
                 kernel_size * kernel_size] in
  let attention_weights := tf_softmax attn in
  let attention_weights :=
    if Qlt_le_dec 0 attn_dropout
    then dropout_fwd env attn_dropout attention_weights
    else attention_weights in
  (* Unfold --> Matmul --> Fold, no weights in this process *)
  layer <- UnfoldMatmulFold_init env (height, width, embed_dim) kernel_size padding
             strides ;;
  output <- UnfoldMatmulFold_call layer vv attention_weights ;;
  let output := Dense embed_dim true (w_out w) output in
  let output :=
    if Qlt_le_dec 0 output_dropout
    then dropout_fwd env output_dropout output
    else output in
  Ok output.

(** [outlook_attention_simple(inputs, embed_dim, num_head=6,
    kernel_size=3, attn_dropout=0, name="")] *)
Definition outlook_attention_simple (env : keras_env) (w : outlook_weights)
    (inputs : tensor) (embed_dim num_head kernel_size : Z) (attn_dropout : Q)
  : result tensor :=
  key_dim <- py_floordiv embed_dim num_head ;;
  let qk_scale := sqrt (IZR key_dim) in
  height <- py_index (shape inputs) 1 ;;
  width <- py_index (shape inputs) 2 ;;
  hh <- int_ceil_div height kernel_size ;;
  ww <- int_ceil_div width kernel_size ;;
  let padded := hh * kernel_size - height in
  let inputs :=
    if negb (padded =? 0) then ZeroPadding2D_fwd 0 padded 0 padded inputs else inputs in
  let vv := Dense embed_dim false (w_v w) inputs in
  let vv := tf_reshape vv [-1; hh; kernel_size; ww; kernel_size; num_head; key_dim] in
  let vv := tf_transpose vv [0; 1; 3; 5; 2; 4; 6] in
  let vv := tf_reshape vv [-1; hh; ww; num_head; kernel_size * kernel_size; key_dim] in
  let attn := AveragePooling2D kernel_size kernel_size inputs in
  let attn := tensor_div_scalar (Dense (kernel_size ^ 4 * num_head) true (w_attn w) attn)
                                qk_scale in
  let attn := tf_reshape attn
                [-1; hh; ww; num_head; kernel_size * kernel_size;
                 kernel_size * kernel_size] in
  let attn := tf_softmax attn in
  let attn :=
    if Qlt_le_dec 0 attn_dropout then dropout_fwd env attn_dropout attn else attn in
  let out := tf_matmul attn vv in
  let out := tf_reshape out [-1; hh; ww; num_head; kernel_size; kernel_size; key_dim] in
  let out := tf_transpose out [0; 1; 4; 2; 5; 3; 6] in
  h1 <- py_index (shape inputs) 1 ;;
  w1 <- py_index (shape inputs) 2 ;;
  let out := tf_reshape out [-1; h1; w1; embed_dim] in
  let out :=
    if negb (padded =? 0)
    then tf_slice out [slice_all; Slice None (Some (- padded)) 1;
                       Slice None (Some (- padded)) 1; slice_all]
    else out in
  let out := Dense embed_dim true (w_out w) out in
  Ok out.

(* ================================================================== *)
(** * volo.py: BiasLayer and attention_mlp_block *)
(* ================================================================== *)

(** [t[s0, s1, ...]]: the axes without a slice are taken whole; more
    slices than axes raise. *)
Definition tf_getitem (t : tensor) (slices : list pyslice) : result tensor :=
  let rank := List.length (shape t) in
  if (rank <? List.length slices)%nat then Raise IndexError
  else Ok (tf_slice t (slices ++ repeat slice_all (rank - List.length slices))).

(** [tf.concat([a, b], axis)], raising when the ranks or the sizes
    along the other axes differ. *)
Definition tf_concat (a b : tensor) (axis : Z) : result tensor :=
  let rank := List.length (shape a) in
  let ax := Z.to_nat (normalize_axis rank axis) in
  if (List.length (shape b) =? rank)%nat
     && forallb (fun '(i, (da, db)) => (i =? ax)%nat || (da =? db))
                (combine (seq 0 rank) (combine (shape a) (shape b)))
  then Ok (tf_concat2 a b axis)
  else Raise ValueError.

(** [tf.expand_dims(x, axis=1)] *)
Definition tf_expand_dims_1 (x : tensor) : tensor :=
  match shape x with
  | [] => x
  | b :: rest => tf_reshape x (b :: 1 :: rest)
  end.

(** [for _ in range(n): x = tf.expand_dims(x, axis=1)] *)
Fixpoint expand_dims_1 (n : nat) (x : tensor) : tensor :=
  match n with
  | O => x
  | S n' => expand_dims_1 n' (tf_expand_dims_1 x)
  end.

(** [keras.layers.Add()([a, b])]: operands of lower rank are expanded
    at axis 1 up to the higher rank; the sizes then have to be equal or
    1 on every axis, and the sum is broadcast. *)
Definition keras_Add (a b : tensor) : result tensor :=
  let n := Nat.max (List.length (shape a)) (List.length (shape b)) in
  let a := expand_dims_1 (n - List.length (shape a)) a in
  let b := expand_dims_1 (n - List.length (shape b)) b in
  if forallb (fun '(da, db) => (da =? 1) || (db =? 1) || (da =? db))
             (combine (shape a) (shape b))
  then Ok (tensor_add a b)
  else Raise ValueError.

(** [BiasLayer(axis=-1)]: [build] creates the weight [bb] of shape
    [(input_shape[-1],)]; [call] returns [inputs + self.bb]. *)
Definition BiasLayer (bb : Z -> R) (inputs : tensor) : tensor :=
  let bb_shape := [last (shape inputs) 0] in
  tensor_add inputs (mkT bb_shape (fun idx => bb (hd 0 idx))).

(** The weights of a [LayerNormalization] layer. *)
Record layernorm_weights : Type := { gamma : Z -> R; beta : Z -> R }.

(** [keras.layers.LayerNormalization(epsilon)(x)]: normalization over
    the last axis. *)
Definition LayerNormalization (epsilon : Q) (w : layernorm_weights) (x : tensor) : tensor :=
  mkT (shape x)
      (fun idx =>
         let pre := removelast idx in
         let c := last idx 0 in
         let n := last (shape x) 0 in
         let mean := (Rsum n (fun l => at_ x (pre ++ [l])) / IZR n)%R in
         let variance :=
           (Rsum n (fun l => (at_ x (pre ++ [l]) - mean) * (at_ x (pre ++ [l]) - mean))
            / IZR n)%R in
         (gamma w c * ((at_ x idx - mean) / sqrt (variance + Q2R epsilon)) + beta w c)%R).

(** The framework layers [attention_mlp_block] calls whose forward pass
    is not spelled out here, with their weights (looked up by layer
    name): [MultiHeadAttention(num_heads, key_dim, output_shape,
    use_bias, name)(query, value)], [Dropout(rate, noise_shape,
    name)(x)] in the current phase, [tf.nn.gelu(x, approximate)] on one
    element, and whether the mixed-precision compute dtype is
    ["float16"]. *)
Record keras_layers : Type := {
  MultiHeadAttention : Z -> Z -> Z -> bool -> string -> tensor -> tensor -> result tensor;
  Dropout_noise : Q -> list (option Z) -> string -> tensor -> result tensor;
  gelu : bool -> R -> R;
  compute_dtype_float16 : bool
}.

(** The weights of the layers of one block that are spelled out. *)
Record block_weights : Type := {
  bw_LN : layernorm_weights;
  bw_attn : outlook_weights;
  bw_attn_bias : Z -> R;
  bw_mlp_LN : layernorm_weights;
  bw_mlp_dense_1 : dense_weights;
  bw_mlp_dense_2 : dense_weights
}.

(** [attention_mlp_block(inputs, embed_dim, num_head=1, mlp_ratio=3,
    attention_type=None, drop_rate=0, mlp_activation="gelu", dropout=0,
    name="")] *)
Definition attention_mlp_block (env : keras_env) (fw : keras_layers) (w : block_weights)
    (inputs : tensor) (embed_dim num_head mlp_ratio : Z) (attention_type : pyname)
    (drop_rate : Q) (mlp_activation : string) (dropout : Q) (name : string)
  : result tensor :=
  let is_type (s : string) : bool :=
    match attention_type with Some a => String.eqb a s | None => false end in
  nn_0 <- (if is_type "class" then tf_getitem inputs [slice_all; slice_to 1]
           else Ok inputs) ;;
  let nn_1 := LayerNormalization BATCH_NORM_EPSILON (bw_LN w) inputs in
  nn_1 <-
    (if is_type "outlook" then
       outlook_attention env (bw_attn w) nn_1 embed_dim num_head 3 1 2 0 0
     else if is_type "outlook_simple" then
       outlook_attention_simple env (bw_attn w) nn_1 embed_dim num_head 3 0
     else if is_type "class" then
       key_dim <- py_floordiv embed_dim num_head ;;
       query <- tf_getitem nn_1 [slice_all; slice_to 1; slice_all] ;;
       nn_1 <- MultiHeadAttention fw num_head key_dim embed_dim false
                 (name ++ "attn_mhsa") query nn_1 ;;
       Ok (BiasLayer (bw_attn_bias w) nn_1)
     else if is_type "mhsa" then
       key_dim <- py_floordiv embed_dim num_head ;;
       nn_1 <- MultiHeadAttention fw num_head key_dim embed_dim false
                 (name ++ "attn_mhsa") nn_1 nn_1 ;;
       Ok (BiasLayer (bw_attn_bias w) nn_1)
     else Ok nn_1) ;;
  nn_1 <- (if Qlt_le_dec 0 drop_rate
           then Dropout_noise fw drop_rate [None; Some 1; Some 1; Some 1]
                              (name ++ "drop_1") nn_1
           else Ok nn_1) ;;
  nn_1 <- keras_Add nn_0 nn_1 ;;
  (* MLP *)
  let nn_2 := LayerNormalization BATCH_NORM_EPSILON (bw_mlp_LN w) nn_1 in
  let nn_2 := Dense (embed_dim * mlp_ratio) true (bw_mlp_dense_1 w) nn_2 in
  let approximate := if compute_dtype_float16 fw then true else false in
  let nn_2 := tensor_map (gelu fw approximate) nn_2 in
  let nn_2 := Dense embed_dim true (bw_mlp_dense_2 w) nn_2 in
  let nn_2 := if Qlt_le_dec 0 dropout then dropout_fwd env dropout nn_2 else nn_2 in
  nn_2 <- (if Qlt_le_dec 0 drop_rate
           then Dropout_noise fw drop_rate [None; Some 1; Some 1; Some 1]
                              (name ++ "drop_2") nn_2
           else Ok nn_2) ;;
  out <- keras_Add nn_1 nn_2 ;;
  if is_type "class" then
    rest <- tf_getitem inputs [slice_all; slice_from 1] ;;
    tf_concat out rest 1
  else Ok out.

(* ================================================================== *)
(** * common_layers.py: anti_alias_downsample *)
(* ================================================================== *)

(** Sum of two coefficient lists, the shorter one taken as 0 past its
    end. *)
Fixpoint poly_add (a b : list Q) : list Q :=
  match a, b with
  | [], _ => b
  | _, [] => a
  | x :: a', y :: b' => (x + y)%Q :: poly_add a' b'
  end.

(** [numpy.polymul(a, b)] on coefficient lists: their convolution. *)
Fixpoint np_polymul (a b : list Q) : list Q :=
  match a with
  | [] => []
  | x :: a' => poly_add (map (Qmult x) b) (0%Q :: np_polymul a' b)
  end.

(** [numpy.poly1d(coeffs) ** val]: [res = [1]], then
    [res = polymul(coeffs, res)] [val] times; a negative power raises. *)
Definition poly1d_pow (coeffs : list Q) (val : Z) : result (list Q) :=
  if val <? 0 then Raise ValueError
  else Ok (Nat.iter (Z.to_nat val) (np_polymul coeffs) [1%Q]).

(** A rank-1 tensor holding the numbers of a list. *)
Definition tf_constant_1d (l : list Q) : tensor :=
  mkT [Z.of_nat (List.length l)] (fun idx => Q2R (nth (Z.to_nat (hd 0 idx)) l 0%Q)).

Definition list_insert {A : Type} (l : list A) (n : nat) (a : A) : list A :=
  firstn n l ++ a :: skipn n l.

Definition list_remove {A : Type} (l : list A) (n : nat) : list A :=
  firstn n l ++ skipn (S n) l.

(** [tf.expand_dims(t, axis)]; [t[..., tf.newaxis]] is the case
    [axis = rank]. *)
Definition tf_expand_dims (t : tensor) (axis : Z) : tensor :=
  let r := Z.of_nat (List.length (shape t)) in
  let ax := Z.to_nat (if axis <? 0 then axis + r + 1 else axis) in
  mkT (list_insert (shape t) ax 1) (fun idx => at_ t (list_remove idx ax)).

(** [tf.repeat(t, repeats, axis)] with one number of repeats: every
    item along [axis] is repeated [repeats] times. *)
Definition tf_repeat (t : tensor) (repeats : Z) (axis : Z) : tensor :=
  let ax := Z.to_nat (normalize_axis (List.length (shape t)) axis) in
  mkT (list_update (shape t) ax (nth ax (shape t) 0 * repeats))
      (fun idx => at_ t (list_update idx ax (nth ax idx 0 / repeats))).

(** [anti_alias_downsample_initializer(weight_shape, dtype)], the
    depthwise kernel of [anti_alias_downsample]. *)
Definition anti_alias_downsample_initializer (weight_shape : list Z) : result tensor :=
  kernel_size <- py_index weight_shape 0 ;;
  channel <- py_index weight_shape 2 ;;
  ww <- poly1d_pow [1 # 2; 1 # 2]%Q (kernel_size - 1) ;;
  let ww := tf_constant_1d ww in
  let ww := tensor_mul (tf_expand_dims ww 0) (tf_expand_dims ww 1) in
  (* ww[:, :, tf.newaxis, tf.newaxis] *)
  let ww := tf_expand_dims (tf_expand_dims ww 2) 3 in
  Ok (tf_repeat ww channel (-2)).

(** [anti_alias_downsample(inputs, kernel_size=3, strides=2,
    padding="SAME", trainable=False, name=None)].  The layer is built
    with [padding="SAME"] whatever [padding] is passed; [trainable] and
    the initializer ([anti_alias_downsample_initializer]) do not take
    part in the wiring. *)
Definition anti_alias_downsample (inputs : ktensor) (kernel_size : kernel_spec)
    (strides : Z) (padding : string) (trainable : bool) (name : pyname) : ktensor :=
  KLayer (DepthwiseConv2D kernel_size strides "SAME" false (name_and name "anti_alias_down"))
         [inputs].

(* ================================================================== *)
(** * volo.py: MixupToken *)
(* ================================================================== *)

(** [t[::-1]]: the items along the first axis in reverse order. *)
Definition tf_reverse_axis0 (t : tensor) : tensor :=
  mkT (shape t)
      (fun idx =>
         match idx with
         | [] => at_ t []
         | b :: rest => at_ t (hd 0 (shape t) - 1 - b :: rest)
         end).

(** [tf.concat([a, b, c], axis)] *)
Definition tf_concat3 (a b c : tensor) (axis : Z) : result tensor :=
  ab <- tf_concat a b axis ;;
  tf_concat ab c axis.

(** [tf.cast(x, "int32")] of a float: truncation towards zero. *)
Definition tf_cast_int32 (x : R) : Z :=
  if Rle_dec 0 x then Int_part x else - Int_part (- x).

(** The attributes [MixupToken.__init__(scale=2, beta=1.0)] sets;
    [scale] is a non-zero integer. *)
Record MixupToken : Type := { mt_scale : Z; mt_beta : R }.

(** A box [(left, top, right, bottom)] (the names carry an underscore
    below: [left] and [right] are taken). *)
Definition bbox : Type := (Z * Z * Z * Z)%type.

(** The random draws of one call of [rand_bbox]: the two
    [tf.random.gamma] samples of [sample_beta_distribution] and the two
    [tf.random.uniform] integers. *)
Record mixup_draws : Type := {
  gamma_1_sample : R;
  gamma_2_sample : R;
  uniform_right : Z;
  uniform_bottom : Z
}.

(** [MixupToken.sample_beta_distribution(self)] *)
Definition sample_beta_distribution (draws : mixup_draws) : R :=
  (gamma_1_sample draws / (gamma_1_sample draws + gamma_2_sample draws))%R.

(** [MixupToken.rand_bbox(self, height, width)] *)
Definition rand_bbox (self : MixupToken) (draws : mixup_draws) (height width : Z) : bbox :=
  let random_lam := sample_beta_distribution draws in
  let cut_rate := sqrt (1 - random_lam) in
  let s_height := height / mt_scale self in
  let s_width := width / mt_scale self in
  let right_pos := uniform_right draws in
  let bottom_pos := uniform_bottom draws in
  let left_pos := right_pos - tf_cast_int32 (IZR s_width * cut_rate) / 2 in
  let top_pos := bottom_pos - tf_cast_int32 (IZR s_height * cut_rate) / 2 in
  let left_pos := Z.max left_pos 0 in
  let top_pos := Z.max top_pos 0 in
  (left_pos, top_pos, right_pos, bottom_pos).

(** [MixupToken.call(self, inputs, training)]: a random box in the
    training phase, the empty box otherwise. *)
Definition MixupToken_call (self : MixupToken) (draws : mixup_draws) (inputs : tensor)
    (training : bool) : bbox :=
  let height := nth 1 (shape inputs) 0 in
  let width := nth 2 (shape inputs) 0 in
  if training then rand_bbox self draws height width
  else (0, 0, 0, 0).

(** [bbox * scale] *)
Definition bbox_scale (b : bbox) (scale : Z) : bbox :=
  let '(left_, top_, right_, bottom_) := b in
  (left_ * scale, top_ * scale, right_ * scale, bottom_ * scale).

(** [MixupToken.do_mixup_token(self, inputs, bbox)].  The closing
    [output.set_shape] only annotates the static shape. *)
Definition do_mixup_token (inputs : tensor) (b : bbox) : result tensor :=
  let '(left_, top_, right_, bottom_) := b in
  sub_ww <- tf_getitem inputs [slice_all; slice_all; slice_range left_ right_] ;;
  part_1 <- tf_getitem sub_ww [slice_all; slice_to top_] ;;
  part_2 <- tf_getitem (tf_reverse_axis0 sub_ww) [slice_all; slice_range top_ bottom_] ;;
  part_3 <- tf_getitem sub_ww [slice_all; slice_from bottom_] ;;
  mix_sub <- tf_concat3 part_1 part_2 part_3 1 ;;
  before <- tf_getitem inputs [slice_all; slice_all; slice_to left_] ;;
  after <- tf_getitem inputs [slice_all; slice_all; slice_from right_] ;;
  tf_concat3 before mix_sub after 2.

(* ================================================================== *)
(** * volo.py: PositionalEmbedding and ClassToken *)
(* ================================================================== *)

(** [tf.tile(t, multiples)] *)
Definition tf_tile (t : tensor) (multiples : list Z) : tensor :=
  mkT (zip_with Z.mul (shape t) multiples)
      (fun idx => at_ t (zip_with (fun i d => i mod d) idx (shape t))).

(** [PositionalEmbedding.build(self, input_shape)]: the shape of the
    weight [pp]; [hh, ww, cc = input_shape[1:]] needs a rank-4 shape. *)
Definition PositionalEmbedding_build (input_shape : list Z) : result (list Z) :=
  match input_shape with
  | [_; hh; ww; cc] => Ok [1; hh; ww; cc]
  | _ => Raise ValueError
  end.

(** [PositionalEmbedding.call(self, inputs)] *)
Definition PositionalEmbedding_call (pp inputs : tensor) : tensor :=
  tensor_add inputs pp.

(** [ClassToken.build(self, input_shape)]: the shape of the weight
    [class_tokens]. *)
Definition ClassToken_build (input_shape : list Z) : result (list Z) :=
  cc <- py_index input_shape (-1) ;;
  Ok [1; 1; cc].

(** [ClassToken.call(self, inputs)] *)
Definition ClassToken_call (class_tokens inputs : tensor) : result tensor :=
  batch <- py_index (shape inputs) 0 ;;
  let class_tokens := tf_tile class_tokens [batch; 1; 1] in
  tf_concat class_tokens inputs 1.

(** [ClassToken.compute_output_shape(self, input_shape)], on a static
    shape: an unknown token count cannot be incremented. *)
Definition ClassToken_compute_output_shape (input_shape : list kdim) : result (list kdim) :=
  d0 <- py_index input_shape 0 ;;
  d1 <- py_index input_shape 1 ;;
  d1 <- match d1 with Some n => Ok (Some (n + 1)) | None => Raise TypeError end ;;
  d2 <- py_index input_shape 2 ;;
  Ok [d0; d1; d2].

(* ================================================================== *)
(** * volo.py: VOLO, from the token sequence to the classifier blocks *)
(* ================================================================== *)

(** [str(z)] / ["{}".format(z)] of an integer. *)
Definition py_str_int (z : Z) : string :=
  DecimalString.NilZero.string_of_int (Z.to_int z).

(** The part of [VOLO] between the MHSA blocks and [pre_out_LN]: the
    feature map is flattened to a token sequence, [ClassToken] prepends
    the class token, and [classfiers] class-attention blocks follow
    (block [id] is named ["classfiers{id}_"] and has its own weights). *)
Definition VOLO_forward_cls_call (env : keras_env) (fw : keras_layers)
    (class_tokens : tensor) (weights : Z -> block_weights) (nn : tensor)
    (embed_dims num_heads mlp_ratios : list Z) (classfiers : Z) : result tensor :=
  hwc <- unpack_bhwc (shape nn) ;;
  let '(height, width, channel) := hwc in
  let nn := tf_reshape nn [-1; height * width; channel] in
  (* forward_cls *)
  nn <- ClassToken_call class_tokens nn ;;
  embed_dim <- py_index embed_dims (-1) ;;
  num_head <- py_index num_heads (-1) ;;
  mlp_ratio <- py_index mlp_ratios (-1) ;;
  for_each
    (fun (nn : tensor) (id : Z) =>
       let name := ("classfiers" ++ py_str_int id ++ "_")%string in
       attention_mlp_block env fw (weights id) nn embed_dim num_head mlp_ratio
                           (Some "class") 0 "gelu" 0 name)
    (py_range 0 classfiers) nn.

(* ================================================================== *)
(** * common_layers.py: hard_swish *)
(* ================================================================== *)

(** [tf.nn.relu6] on one element: [min(max(x, 0), 6)]. *)
Definition relu6 (x : R) : R := Rmin (Rmax x 0) 6.

(** [hard_swish(inputs)]: [inputs * tf.nn.relu6(inputs + 3) / 6].  (The
    name [hard_swish] itself is the tag of this function in
    [activation_fn].) *)
Definition hard_swish_fwd (inputs : tensor) : tensor :=
  tensor_div_scalar
    (tensor_mul inputs (tensor_map relu6 (tensor_map (fun x => (x + 3)%R) inputs)))
    6.

(* ================================================================== *)
(** * volo.py: patch_stem *)
(* ================================================================== *)

(** [patch_stem(inputs, hidden_dim=64, stem_width=384, patch_size=8,
    strides=2, activation="relu", name="")] *)
Definition patch_stem (fmt : data_format) (inputs : ktensor)
    (hidden_dim stem_width patch_size strides : Z) (activation : pyname) (name : string)
  : result ktensor :=
  let nm (suffix : string) : pyname := Some (name ++ suffix)%string in
  nn <- conv2d_no_bias inputs hidden_dim (KInt 7) strides "same" false 1 (nm "1_") ;;
  nn <- batchnorm_with_activation fmt nn activation false BATCH_NORM_EPSILON false
          (nm "1_") ;;
  nn <- conv2d_no_bias nn hidden_dim (KInt 3) 1 "same" false 1 (nm "2_") ;;
  nn <- batchnorm_with_activation fmt nn activation false BATCH_NORM_EPSILON false
          (nm "2_") ;;
  nn <- conv2d_no_bias nn hidden_dim (KInt 3) 1 "same" false 1 (nm "3_") ;;
  nn <- batchnorm_with_activation fmt nn activation false BATCH_NORM_EPSILON false
          (nm "3_") ;;
  patch_step <- py_floordiv patch_size strides ;;
  conv2d_no_bias nn stem_width (KInt patch_step) patch_step "VALID" true 1 (nm "patch_").

(* ================================================================== *)
(** * coatnet.py: res_ffn *)
(* ================================================================== *)

(** [res_ffn(inputs, expansion=4, kernel_size=1, drop_rate=0,
    activation="gelu", name="")] *)
Definition res_ffn (fmt : data_format) (inputs : ktensor) (expansion : Z)
    (kernel_size : kernel_spec) (drop_rate : Q) (activation : pyname) (name : string)
  : result ktensor :=
  let nm (suffix : string) : pyname := Some (name ++ suffix)%string in
  (* preact *)
  preact <- batchnorm_with_activation fmt inputs activation false BATCH_NORM_EPSILON
              false (nm "preact_") ;;
  input_channel <- py_index (kshape fmt inputs) (-1) ;;
  input_channel <- match input_channel with Some c => Ok c | None => Raise TypeError end ;;
  nn <- conv2d_no_bias preact (input_channel * expansion) kernel_size 1 "VALID" false 1
          (nm "1_") ;;
  nn <- batchnorm_with_activation fmt nn activation false BATCH_NORM_EPSILON false
          (nm "ffn_") ;;
  nn <- conv2d_no_bias nn input_channel kernel_size 1 "VALID" false 1 (nm "2_") ;;
  let nn := drop_block fmt nn drop_rate (Some name) in
  Ok (KLayer Add [inputs; nn]).

(* ================================================================== *)
(** * Concrete tensors used in examples *)
(* ================================================================== *)

(** A [1 x n x n x 1] image whose pixel [(i, j)] holds [1 + n * i + j]. *)
Definition ramp_image (n : Z) : tensor :=
  mkT [1; n; n; 1]
      (fun idx =>
         match idx with
         | [_; i; j; _] => IZR (1 + n * i + j)
         | _ => 0%R
         end).

(** The stack of [9 x 9] identity matrices of shape [s]. *)
Definition identity_stack (s : list Z) : tensor :=
  mkT s
      (fun idx =>
         match idx with
         | [_; _; _; _; p; q] => if p =? q then 1%R else 0%R
         | _ => 0%R
         end).

(** A run without a TPU, outside training. *)
Definition inference_env : keras_env :=
  {| on_tpu := false; dropout_fwd := fun _ t => t |}.

Definition tpu_env : keras_env :=
  {| on_tpu := true; dropout_fwd := fun _ t => t |}.

(** A [1 x n x c] token sequence whose token [k] holds [1 + c * k + d]
    in channel [d]. *)
Definition ramp_tokens (n c : Z) : tensor :=
  mkT [1; n; c]
      (fun idx =>
         match idx with
         | [_; k; d] => IZR (1 + c * k + d)
         | _ => 0%R
         end).

(** The tanh form of gelu. *)
Definition gelu_tanh (x : R) : R :=
  (x / 2 * (1 + tanh (sqrt (2 / PI) * (x + 44715 / 1000000 * (x * x * x)))))%R.

(** Framework layers outside training, with an attention layer whose
    weights are all zero. *)
Definition inference_layers : keras_layers :=
  {| MultiHeadAttention :=
       fun _ _ output_shape _ _ query _ =>
         Ok (mkT (removelast (shape query) ++ [output_shape]) (fun _ => 0%R));
     Dropout_noise := fun _ _ _ x => Ok x;
     gelu := fun _ => gelu_tanh;
     compute_dtype_float16 := false |}.

(** Dense weights with every kernel entry [k] and every bias entry [b]. *)
Definition constant_dense (units_in units : Z) (k b : R) : dense_weights :=
  {| kernel := mkT [units_in; units] (fun _ => k); bias := mkT [units] (fun _ => b) |}.

Definition unit_layernorm : layernorm_weights :=
  {| gamma := fun _ => 1%R; beta := fun _ => 0%R |}.

(** Weights of a block of width 2 with [mlp_ratio = 3]. *)
Definition example_block_weights : block_weights :=
  {| bw_LN := unit_layernorm;
     bw_attn := {| w_v := constant_dense 2 2 1 0;
                   w_attn := constant_dense 2 81 0 0;
                   w_out := constant_dense 2 2 1 0 |};
     bw_attn_bias := fun _ => 0%R;
     bw_mlp_LN := unit_layernorm;
     bw_mlp_dense_1 := constant_dense 2 6 1 0;
     bw_mlp_dense_2 := constant_dense 6 2 1 0 |}.

(** A [1 x n x n x 1] image that is 1 at pixel [(0, 0)] and 0 elsewhere. *)
Definition corner_image (n : Z) : tensor :=
  mkT [1; n; n; 1]
      (fun idx =>
         match idx with
         | [_; 0; 0; _] => 1%R
         | _ => 0%R
         end).

(** Weights of an outlook attention of width 1 with one head: value and
    output projections are the identity, and the attention-weight dense
    is zero, so that every attention row is uniform. *)
Definition uniform_outlook_weights : outlook_weights :=
  {| w_v := constant_dense 1 1 1 0;
     w_attn := constant_dense 1 81 0 0;
     w_out := constant_dense 1 1 1 0 |}.
(* ================================================================== *)
(** * Properties of the Python built-ins *)
(* ================================================================== *)

Lemma py_int_nonneg_floor (x : Q) : (0 <= x)%Q -> py_int x = Qfloor x.
Proof.
  destruct x as [n d]. unfold Qle, py_int, Qfloor. simpl. intros H.
  apply Z.quot_div_nonneg; lia.
Qed.

Lemma bind_Ok {A B : Type} (a : A) (k : A -> result B) : bind (Ok a) k = k a.
Proof. reflexivity. Qed.

(* ================================================================== *)
(** * make_divisible *)
(* ================================================================== *)

(** The value before the 10% correction, once [divisor] is positive. *)
Lemma make_divisible_unfold (vv : Q) (divisor : Z) :
  0 < divisor ->
  make_divisible vv divisor None =
  let new_v := Z.max divisor (py_int (vv + inject_Z divisor / 2)%Q / divisor * divisor) in
  if Qlt_le_dec (inject_Z new_v) ((9 # 10) * vv)%Q
  then Ok (new_v + divisor) else Ok new_v.
Proof.
  intros Hd. unfold make_divisible, py_floordiv.
  destruct (Z.eqb_spec divisor 0); [lia|]. reflexivity.
Qed.

Lemma round_down_gap (vv : Q) (divisor : Z) :
  (0 <= vv)%Q -> 0 < divisor ->
  (vv + inject_Z divisor / 2 <
   inject_Z (py_int (vv + inject_Z divisor / 2)%Q / divisor * divisor + divisor))%Q.
Proof.
  intros Hv Hd.
  assert (Hdq : (0 < inject_Z divisor)%Q) by (unfold Qlt; simpl; lia).
  set (q := (vv + inject_Z divisor / 2)%Q).
  assert (Hq : (0 <= q)%Q).
  { unfold q, Qdiv. change (/ 2)%Q with (1 # 2)%Q. Lqa.lra. }
  rewrite (py_int_nonneg_floor q Hq).
  pose proof (Qlt_floor q) as Hlt.
  pose proof (Z.mod_pos_bound (Qfloor q) divisor Hd) as Hm.
  pose proof (Z.div_mod (Qfloor q) divisor ltac:(lia)) as Hdm.
  assert (Hz : Qfloor q + 1 <= Qfloor q / divisor * divisor + divisor) by lia.
  rewrite Zle_Qle in Hz.
  eapply Qlt_le_trans; [exact Hlt | exact Hz].
Qed.

(** C5. For a non-negative [vv] and a positive integer [divisor], with
    [min_value] left at its default, [make_divisible] returns an integer
    multiple of [divisor] that is at least [min_value] (= [divisor]) and
    at least [0.9 * vv]. *)
Theorem make_divisible_spec (vv : Q) (divisor : Z) :
  (0 <= vv)%Q -> 0 < divisor ->
  exists k : Z,
    make_divisible vv divisor None = Ok (k * divisor) /\
    divisor <= k * divisor /\
    ((9 # 10) * vv <= inject_Z (k * divisor))%Q.
Proof.
  intros Hv Hd.
  rewrite (make_divisible_unfold vv divisor Hd). cbv zeta.
  pose proof (round_down_gap vv divisor Hv Hd) as Hgap.
  unfold Qdiv in Hgap. change (/ 2)%Q with (1 # 2)%Q in Hgap.
  assert (Hdq : (0 < inject_Z divisor)%Q) by (unfold Qlt; simpl; lia).
  unfold Qdiv. change (/ 2)%Q with (1 # 2)%Q.
  set (m := py_int (vv + inject_Z divisor * (1 # 2))%Q / divisor) in *.
  assert (Hmax : exists k, Z.max divisor (m * divisor) = k * divisor /\ 1 <= k /\ m <= k).
  { destruct (Z.max_spec divisor (m * divisor)) as [[Hlt ->]|[Hle ->]].
    - exists m. split; [reflexivity|]. nia.
    - exists 1. split; [lia|]. nia. }
  destruct Hmax as (k & -> & Hk1 & Hmk).
  destruct (Qlt_le_dec (inject_Z (k * divisor)) ((9 # 10) * vv)) as [Hlow|Hok].
  - exists (k + 1). split; [f_equal; lia|]. split; [nia|].
    assert (Hz : m * divisor + divisor <= (k + 1) * divisor) by nia.
    rewrite Zle_Qle in Hz. Lqa.lra.
  - exists k. split; [reflexivity|]. split; [nia|exact Hok].
Qed.

Lemma make_divisible_spec_witness :
  exists k : Z,
    make_divisible 10 8 None = Ok (k * 8) /\
    8 <= k * 8 /\
    ((9 # 10) * 10 <= inject_Z (k * 8))%Q.
Proof.
  apply (make_divisible_spec 10 8).
  - unfold Qle; simpl; lia.
  - lia.
Defined.

Example make_divisible_10_8 : make_divisible 10 8 None = Ok 16.
Proof. reflexivity. Qed.

Example make_divisible_se_default : make_divisible (256 * (1 # 4)) 8 None = Ok 64.
Proof. reflexivity. Qed.

(* ================================================================== *)
(** * conv2d_no_bias and depthwise_conv2d_no_bias *)
(* ================================================================== *)

Lemma deferred_pad_same inputs k padding pad_name :
  str_upper padding = "SAME" -> k / 2 <> 0 ->
  deferred_pad inputs k padding pad_name = KLayer (ZeroPadding2D (k / 2) pad_name) [inputs].
Proof.
  intros Hp Hk. unfold deferred_pad. rewrite Hp. simpl.
  destruct (Z.eqb_spec (k / 2) 0); [contradiction | reflexivity].
Qed.

Lemma deferred_pad_none inputs k padding pad_name :
  str_upper padding <> "SAME" \/ k / 2 = 0 ->
  deferred_pad inputs k padding pad_name = inputs.
Proof.
  intros [Hp | Hk]; unfold deferred_pad.
  - destruct (String.eqb_spec (str_upper padding) "SAME"); [contradiction | reflexivity].
  - rewrite Hk. simpl. now rewrite andb_false_r.
Qed.

(** C9 (as amended).  For an integer [kernel_size] k, both helpers
    return a convolution layer with VALID padding whose input is the
    given tensor zero-padded by exactly [k // 2] when
    [padding.upper() == "SAME"] and [k // 2 != 0], and the given tensor
    itself otherwise; [depthwise_conv2d_no_bias] always builds a
    [DepthwiseConv2D]; [conv2d_no_bias] builds a [DepthwiseConv2D]
    exactly when [max(1, groups) == filters], hence for [groups >= 1]
    exactly when [groups == filters]. *)
Theorem conv2d_no_bias_deferred_padding
    (inputs : ktensor) (filters k strides : Z) (padding : string)
    (use_bias : bool) (groups : Z) (name : pyname) :
  (exists l : layer,
      conv2d_no_bias inputs filters (KInt k) strides padding use_bias groups name
      = Ok (KLayer l [deferred_pad inputs k padding (name_and name "pad")]) /\
      option_map str_upper (conv_padding_arg l) = Some "VALID" /\
      conv_kernel_strides l = Some (KInt k, strides) /\
      is_DepthwiseConv2D l = (Z.max 1 groups =? filters) /\
      is_Conv2D l = negb (Z.max 1 groups =? filters) /\
      (1 <= groups -> is_DepthwiseConv2D l = (groups =? filters))) /\
  (exists l : layer,
      depthwise_conv2d_no_bias inputs (KInt k) strides padding use_bias name
      = Ok (KLayer l [deferred_pad inputs k padding (name_and name "dw_pad")]) /\
      option_map str_upper (conv_padding_arg l) = Some "VALID" /\
      conv_kernel_strides l = Some (KInt k, strides) /\
      is_DepthwiseConv2D l = true) /\
  (str_upper padding = "SAME" -> k / 2 <> 0 ->
   forall nm, deferred_pad inputs k padding nm = KLayer (ZeroPadding2D (k / 2) nm) [inputs]) /\
  (str_upper padding <> "SAME" \/ k / 2 = 0 ->
   forall nm, deferred_pad inputs k padding nm = inputs).
Proof.
  split; [|split; [|split]].
  - unfold conv2d_no_bias, deferred_pad. cbn [kernel_pad bind].
    destruct (Z.max 1 groups =? filters) eqn:Hg.
    + eexists. split; [reflexivity|]. cbn. repeat split.
      intros H1. rewrite Z.max_r in Hg by lia. now rewrite Hg.
    + eexists. split; [reflexivity|]. cbn. repeat split.
      intros H1. rewrite Z.max_r in Hg by lia. now rewrite Hg.
  - unfold depthwise_conv2d_no_bias, deferred_pad. cbn [kernel_pad bind].
    eexists. split; [reflexivity|]. cbn. repeat split.
  - intros Hp Hk nm. now apply deferred_pad_same.
  - intros H nm. now apply deferred_pad_none.
Qed.

(** The claim as first stated fails for [groups < 1]: with [groups = 0]
    and [filters = 1] the layer is a [DepthwiseConv2D] although
    [groups != filters]. *)
Lemma conv2d_no_bias_groups_counterexample :
  let inputs := KInput [None; Some 8; Some 8; Some 3] in
  conv2d_no_bias inputs 1 (KInt 3) 1 "same" false 0 None
  = Ok (KLayer (DepthwiseConv2D (KInt 3) 1 "VALID" false None)
          [KLayer (ZeroPadding2D 1 None) [inputs]]) /\
  (0 =? 1) = false.
Proof. split; reflexivity. Qed.

Example conv2d_no_bias_same_3 :
  conv2d_no_bias (KInput [None; Some 8; Some 8; Some 3]) 16 (KInt 3) 2 "same" false 1
                 (Some "stem_1_")
  = Ok (KLayer (Conv2D 16 (KInt 3) 2 "VALID" false 1 (Some "stem_1_conv"))
          [KLayer (ZeroPadding2D 1 (Some "stem_1_pad"))
             [KInput [None; Some 8; Some 8; Some 3]]]).
Proof. reflexivity. Qed.

Example conv2d_no_bias_kernel_1 :
  conv2d_no_bias (KInput [None; Some 8; Some 8; Some 3]) 16 (KInt 1) 1 "same" false 1 None
  = Ok (KLayer (Conv2D 16 (KInt 1) 1 "VALID" false 1 None)
          [KInput [None; Some 8; Some 8; Some 3]]).
Proof. reflexivity. Qed.

Lemma conv2d_no_bias_deferred_padding_witness :
  deferred_pad (KInput [None; Some 8; Some 8; Some 3]) 3 "same" (Some "stem_1_pad")
  = KLayer (ZeroPadding2D (3 / 2) (Some "stem_1_pad")) [KInput [None; Some 8; Some 8; Some 3]].
Proof.
  apply (proj1 (proj2 (proj2 (conv2d_no_bias_deferred_padding
                                (KInput [None; Some 8; Some 8; Some 3]) 16 3 2 "same" false 1
                                (Some "stem_1_"))))).
  - reflexivity.
  - discriminate.
Defined.

(* ================================================================== *)
(** * res_MBConv *)
(* ================================================================== *)

Lemma suffixed_name_truthy (name : string) (c : ascii) (s : string) :
  name_truthy (Some (name ++ String c s)%string) = true.
Proof. destruct name; reflexivity. Qed.

Lemma name_and_suffixed (name : string) (c : ascii) (s suffix : string) :
  name_and (Some (name ++ String c s)%string) suffix
  = Some ((name ++ String c s) ++ suffix)%string.
Proof. unfold name_and. now rewrite suffixed_name_truthy. Qed.

Lemma layer_chain_no_act_step (l : layer) (x : ktensor) (rest : list ktensor) :
  layer_chain_no_act (KLayer l (x :: rest))
  = layer_chain_no_act x ++ (if is_activation_layer l then [] else [l]).
Proof.
  unfold layer_chain_no_act. cbn [layer_chain]. rewrite filter_app. cbn [filter].
  now destruct (is_activation_layer l).
Qed.

(** An activation, when one is inserted, leaves the other layers and
    the static shape as they are. *)
Lemma activation_by_name_chain (fmt : data_format) (x y : ktensor) (activation name : pyname) :
  activation_by_name fmt x activation name = Ok y ->
  layer_chain_no_act y = layer_chain_no_act x /\ kshape fmt y = kshape fmt x.
Proof.
  unfold activation_by_name. destruct activation as [act|]; [|discriminate].
  destruct (String.eqb act "hard_swish").
  - intros H; inversion H; subst. rewrite layer_chain_no_act_step. cbn.
    now rewrite app_nil_r.
  - destruct (String.eqb (str_lower act) "prelu").
    + destruct (py_pop _ _) as [axes|]; cbn [bind]; [|discriminate].
      intros H; inversion H; subst. rewrite layer_chain_no_act_step. cbn.
      now rewrite app_nil_r.
    + destruct (name_truthy (Some act)).
      * intros H; inversion H; subst. rewrite layer_chain_no_act_step. cbn.
        now rewrite app_nil_r.
      * intros H; inversion H; subst. auto.
Qed.

Lemma batchnorm_with_activation_chain (fmt : data_format) (x y : ktensor)
    (activation : pyname) (zero_gamma : bool) (epsilon : Q) (name : pyname) :
  batchnorm_with_activation fmt x activation zero_gamma epsilon false name = Ok y ->
  layer_chain_no_act y
  = layer_chain_no_act x
    ++ [BatchNormalization (match fmt with channels_last => -1 | channels_first => 1 end)
          BATCH_NORM_DECAY BATCH_NORM_EPSILON zero_gamma (name_and name "bn")] /\
  kshape fmt y = kshape fmt x.
Proof.
  unfold batchnorm_with_activation. cbn [andb negb bind].
  destruct (name_truthy activation).
  - intros H. apply activation_by_name_chain in H. destruct H as [Hc Hs].
    rewrite Hc, Hs, layer_chain_no_act_step. cbn. auto.
  - intros H; inversion H; subst. rewrite layer_chain_no_act_step. cbn. auto.
Qed.

Lemma conv2d_no_bias_pointwise (x : ktensor) (filters : Z) (padding : string) (name : pyname) :
  conv2d_no_bias x filters (KInt 1) 1 padding false 1 name
  = Ok (KLayer (pointwise_conv_layer filters (name_and name "conv")) [x]).
Proof.
  unfold conv2d_no_bias, pointwise_conv_layer. cbn [kernel_pad bind].
  change (1 / 2 =? 0) with true. rewrite andb_false_r.
  change (Z.max 1 1) with 1. now destruct (1 =? filters).
Qed.

Lemma depthwise_3x3_same (x : ktensor) (strides : Z) (name : pyname) :
  depthwise_conv2d_no_bias x (KInt 3) strides "same" false name
  = Ok (KLayer (DepthwiseConv2D (KInt 3) strides "valid" false (name_and name "dw_conv"))
          [KLayer (ZeroPadding2D 1 (name_and name "dw_pad")) [x]]).
Proof. reflexivity. Qed.

Lemma se_module_node (fmt : data_format) (x y : ktensor) (se_ratio : Q) (divisor : Z)
    (activation : pyname) (use_bias : bool) (name : pyname) :
  se_module fmt x se_ratio divisor activation use_bias name = Ok y ->
  exists gate, y = KLayer (Multiply (name_and name "out")) [x; gate].
Proof.
  unfold se_module.
  destruct fmt;
    (destruct (py_index _ _) as [[f|]|]; cbn [bind]; try discriminate;
     destruct (make_divisible _ _ _) as [r|]; cbn [bind]; try discriminate;
     destruct (activation_by_name _ _ activation _) as [a1|]; cbn [bind]; try discriminate;
     destruct (activation_by_name _ _ (Some "sigmoid") _) as [a2|]; cbn [bind];
     try discriminate;
     intros H; inversion H; subst; eexists; reflexivity).
Qed.

Lemma drop_block_chain (fmt : data_format) (x : ktensor) (drop_rate : Q) (name : pyname) :
  layer_chain_no_act (drop_block fmt x drop_rate name)
  = layer_chain_no_act x
    ++ (if Qlt_le_dec 0 drop_rate
        then [Dropout drop_rate
                (None :: repeat (Some 1) (List.length (kshape fmt x) - 1))
                (name_and name "drop")]
        else []).
Proof.
  unfold drop_block. destruct (Qlt_le_dec 0 drop_rate).
  - now rewrite layer_chain_no_act_step.
  - now rewrite app_nil_r.
Qed.




(* ================================================================== *)
(** * drop_block *)
(* ================================================================== *)

Lemma in_rangeb_length (s idx : list Z) :
  in_rangeb s idx = true -> List.length idx = List.length s.
Proof.
  revert idx. induction s as [|d s IH]; intros [|i idx] H; simpl in *;
    try discriminate; auto.
  apply andb_prop in H. destruct H as [_ H]. f_equal. auto.
Qed.

Lemma broadcast_index_ones (dims idx : list Z) :
  Forall (fun d => d = 1) dims ->
  broadcast_index dims idx = repeat 0 (Nat.min (List.length dims) (List.length idx)).
Proof.
  intros H. revert idx. unfold broadcast_index.
  induction H as [|d dims Hd H IH]; intros idx.
  - reflexivity.
  - destruct idx as [|i idx]; [reflexivity|]. subst d. simpl. f_equal. apply IH.
Qed.

Lemma noise_dims_ones (n : nat) (s : list Z) :
  Forall (fun d => d = 1) (Dropout_noise_dims (repeat (Some 1) n) s).
Proof.
  revert s. induction n as [|n IH]; intros s; simpl.
  - constructor.
  - destruct s as [|d s]; simpl; constructor; auto.
Qed.

(** With the noise shape of [drop_block], the draw consulted for an
    element only depends on the example the element belongs to. *)
Lemma drop_block_noise_per_example (n : nat) (d b : Z) (s idx : list Z) :
  List.length idx = List.length s ->
  broadcast_index (Dropout_noise_dims (None :: repeat (Some 1) n) (d :: s)) (b :: idx)
  = (if d =? 1 then 0 else b) :: repeat 0 (Nat.min n (List.length s)).
Proof.
  intros Hlen. cbn [Dropout_noise_dims zip_with]. fold (Dropout_noise_dims (repeat (Some 1) n) s).
  cbn [broadcast_index zip_with]. f_equal.
  fold (broadcast_index (Dropout_noise_dims (repeat (Some 1) n) s) idx).
  rewrite broadcast_index_ones by apply noise_dims_ones.
  f_equal. rewrite Hlen.
  assert (Hl : List.length (Dropout_noise_dims (repeat (Some 1) n) s)
               = Nat.min n (List.length s)).
  { clear. revert s. induction n as [|n IH]; intros s; [reflexivity|].
    destruct s as [|d s]; [reflexivity|]. cbn. f_equal. apply IH. }
  rewrite Hl. lia.
Qed.

(** C8.  [drop_block] with [drop_rate = 0] returns its input, no layer
    inserted; with [drop_rate > 0] it applies [Dropout] with noise shape
    [[None, 1, ..., 1]], and in training that layer, for each example
    [b], either zeroes every element of the example or keeps every
    element of it, rescaled by [1 / (1 - drop_rate)]. *)
Theorem drop_block_spec (fmt : data_format) (inputs : ktensor) (drop_rate : Q)
    (name : pyname) :
  (drop_rate == 0 -> drop_block fmt inputs drop_rate name = inputs)%Q /\
  ((0 < drop_rate)%Q ->
   let noise_shape := None :: repeat (Some 1) (List.length (kshape fmt inputs) - 1) in
   drop_block fmt inputs drop_rate name
   = KLayer (Dropout drop_rate noise_shape (name_and name "drop")) [inputs] /\
   Forall (fun d => d = Some 1) (tl noise_shape) /\
   forall (x : tensor) (keep : list Z -> bool) (b : Z),
     List.length (shape x) = List.length (kshape fmt inputs) ->
     let y := Dropout_training drop_rate noise_shape keep x in
     shape y = shape x /\
     ((forall idx, in_range (shape x) (b :: idx) -> at_ y (b :: idx) = 0%R) \/
      (forall idx, in_range (shape x) (b :: idx) ->
                   at_ y (b :: idx) = (at_ x (b :: idx) * / (1 - Q2R drop_rate))%R))).
Proof.
  split.
  - intros H0. unfold drop_block.
    destruct (Qlt_le_dec 0 drop_rate) as [Hlt|_]; [|reflexivity].
    rewrite H0 in Hlt. exfalso. revert Hlt. apply Qlt_irrefl.
  - intros Hpos. cbv zeta. split; [|split].
    + unfold drop_block. destruct (Qlt_le_dec 0 drop_rate) as [_|Hle]; [reflexivity|].
      exfalso. apply (Qlt_irrefl 0). eapply Qlt_le_trans; eassumption.
    + cbn [tl]. apply Forall_forall. intros d Hd. now apply repeat_spec in Hd.
    + intros x keep b Hlen. split; [reflexivity|].
      destruct (shape x) as [|d s] eqn:Hs.
      { left. intros idx H. discriminate H. }
      set (n := (List.length (kshape fmt inputs) - 1)%nat).
      destruct (keep ((if d =? 1 then 0 else b) :: repeat 0 (Nat.min n (List.length s))))
        eqn:Hk; [right | left]; intros idx Hin;
        unfold Dropout_training; cbn [at_]; rewrite Hs;
        (rewrite drop_block_noise_per_example;
         [ rewrite Hk; reflexivity
         | apply in_rangeb_length in Hin; simpl in Hin; lia ]).
Qed.

Lemma drop_block_spec_witness :
  drop_block channels_last (KInput [None; Some 7; Some 7; Some 64]) (1 # 10) (Some "b_")
  = KLayer (Dropout (1 # 10) [None; Some 1; Some 1; Some 1] (Some "b_drop"))
      [KInput [None; Some 7; Some 7; Some 64]] /\
  drop_block channels_last (KInput [None; Some 7; Some 7; Some 64]) 0 (Some "b_")
  = KInput [None; Some 7; Some 7; Some 64].
Proof.
  split.
  - apply (proj2 (drop_block_spec channels_last (KInput [None; Some 7; Some 7; Some 64])
                    (1 # 10) (Some "b_"))).
    reflexivity.
  - apply (proj1 (drop_block_spec channels_last (KInput [None; Some 7; Some 7; Some 64])
                    0 (Some "b_"))).
    reflexivity.
Defined.

(* ================================================================== *)
(** * The stochastic-depth schedule of CoAtNet and VOLO *)
(* ================================================================== *)

Section ForEach.
Context {S X : Type} (body : S -> X -> result S).

Lemma for_each_invariant (P : S -> Prop) :
  (forall s x s', P s -> body s x = Ok s' -> P s') ->
  forall xs s r, P s -> for_each body xs s = Ok r -> P r.
Proof.
  intros Hstep xs. induction xs as [|x xs IH]; intros s r Hs Hrun; simpl in Hrun.
  - now inversion Hrun; subst.
  - destruct (body s x) as [s'|e] eqn:Hb; simpl in Hrun; [|discriminate].
    eapply IH; [|exact Hrun]. eapply Hstep; eauto.
Qed.

Lemma for_each_measure (m : S -> nat) (f : X -> nat) :
  (forall s x s', body s x = Ok s' -> m s' = (m s + f x)%nat) ->
  forall xs s r, for_each body xs s = Ok r ->
                 m r = (m s + list_sum (map f xs))%nat.
Proof.
  intros Hstep xs. induction xs as [|x xs IH]; intros s r Hrun; simpl in Hrun.
  - inversion Hrun; subst. simpl. lia.
  - destruct (body s x) as [s'|e] eqn:Hb; simpl in Hrun; [|discriminate].
    rewrite (IH _ _ Hrun), (Hstep _ _ _ Hb). simpl. lia.
Qed.
End ForEach.

Lemma py_range_length (a b : Z) : List.length (py_range a b) = Z.to_nat (b - a).
Proof. unfold py_range. now rewrite length_map, length_seq. Qed.

Lemma list_sum_const_1 {A : Type} (l : list A) :
  list_sum (map (fun _ => 1%nat) l) = List.length l.
Proof. induction l; simpl; auto. Qed.

Lemma fold_left_add_shift (l : list Z) (a : Z) :
  fold_left Z.add l a = a + fold_left Z.add l 0.
Proof.
  revert a. induction l as [|x l IH]; intros a; simpl; [lia|].
  rewrite (IH (a + x)), (IH x). lia.
Qed.

Lemma py_sum_cons (x : Z) (l : list Z) : py_sum (x :: l) = x + py_sum l.
Proof. unfold py_sum. simpl. now rewrite fold_left_add_shift. Qed.

Lemma py_sum_nonneg (l : list Z) : Forall (fun n => 0 <= n) l -> 0 <= py_sum l.
Proof.
  induction 1 as [|x l Hx _ IH]; [unfold py_sum; simpl; lia|].
  rewrite py_sum_cons. lia.
Qed.

(** ** Rates of a list of blocks numbered from 0 *)

Lemma rates_linear_snoc dcr total rates :
  rates_linear dcr total rates ->
  rates_linear dcr total
    (rates ++ [(dcr * inject_Z (Z.of_nat (List.length rates)) / inject_Z total)%Q]).
Proof.
  intros H i r Hi.
  destruct (Nat.lt_ge_cases i (List.length rates)) as [Hlt|Hge].
  - rewrite nth_error_app1 in Hi by exact Hlt. now apply H.
  - rewrite nth_error_app2 in Hi by exact Hge.
    destruct (i - List.length rates)%nat as [|k] eqn:Hk; simpl in Hi.
    + inversion Hi; subst. unfold linear_drop_rate.
      replace i with (List.length rates) by lia. reflexivity.
    + destruct k; discriminate.
Qed.

Lemma Qdiv_le_mono (a b c : Q) : (0 < c -> a <= b -> a / c <= b / c)%Q.
Proof.
  intros Hc Hab. unfold Qdiv. apply Qmult_le_compat_r; [exact Hab|].
  apply Qlt_le_weak, Qinv_lt_0_compat, Hc.
Qed.

Lemma inject_Z_pos (z : Z) : 0 < z -> (0 < inject_Z z)%Q.
Proof. intros H. unfold Qlt. simpl. lia. Qed.

Lemma linear_drop_rate_mono dcr total (i j : nat) :
  0 < total -> (0 <= dcr)%Q -> (i <= j)%nat ->
  (linear_drop_rate dcr total i <= linear_drop_rate dcr total j)%Q.
Proof.
  intros Ht Hd Hij. unfold linear_drop_rate.
  apply Qdiv_le_mono; [now apply inject_Z_pos|].
  rewrite !(Qmult_comm dcr). apply Qmult_le_compat_r; [|exact Hd].
  rewrite <- Zle_Qle. lia.
Qed.

Lemma linear_drop_rate_0 dcr total : (linear_drop_rate dcr total 0 == 0)%Q.
Proof.
  unfold linear_drop_rate. simpl. unfold Qdiv.
  rewrite Qmult_0_r. apply Qmult_0_l.
Qed.

Lemma linear_drop_rate_le dcr total (i : nat) :
  (0 <= dcr)%Q -> Z.of_nat i < total ->
  (linear_drop_rate dcr total i <= dcr)%Q.
Proof.
  intros Hd Hi. unfold linear_drop_rate.
  assert (Ht : (0 < inject_Z total)%Q) by (apply inject_Z_pos; lia).
  apply Qle_shift_div_r; [exact Ht|].
  rewrite !(Qmult_comm dcr). apply Qmult_le_compat_r; [|exact Hd].
  rewrite <- Zle_Qle. lia.
Qed.

Lemma linear_drop_rate_lt dcr total (i : nat) :
  (0 < dcr)%Q -> Z.of_nat i < total ->
  (linear_drop_rate dcr total i < dcr)%Q.
Proof.
  intros Hd Hi. unfold linear_drop_rate.
  assert (Ht : (0 < inject_Z total)%Q) by (apply inject_Z_pos; lia).
  apply Qlt_shift_div_r; [exact Ht|].
  apply Qmult_lt_l; [exact Hd|]. rewrite <- Zlt_Qlt. lia.
Qed.

Lemma rates_linear_schedule dcr num_blocks rates :
  rates_linear dcr (py_sum num_blocks) rates ->
  (Forall (fun n => 0 <= n) num_blocks -> Z.of_nat (List.length rates) <= py_sum num_blocks) ->
  drop_rate_schedule dcr num_blocks rates.
Proof.
  intros Hlin Hlen. unfold drop_rate_schedule. cbv zeta.
  split; [exact Hlin|]. split.
  - intros r H0. rewrite (Hlin _ _ H0). apply linear_drop_rate_0.
  - intros Hnn. specialize (Hlen Hnn).
    assert (Hidx : forall r, In r rates ->
              exists i, Z.of_nat i < py_sum num_blocks /\ r = linear_drop_rate dcr (py_sum num_blocks) i).
    { intros r Hin. apply In_nth_error in Hin. destruct Hin as [i Hi].
      exists i. split; [|now apply Hlin].
      assert (i < List.length rates)%nat by (apply nth_error_Some; congruence). lia. }
    split.
    + intros Hd. split.
      * intros i j ri rj Hij Hi Hj.
        assert (j < List.length rates)%nat by (apply nth_error_Some; congruence).
        rewrite (Hlin _ _ Hi), (Hlin _ _ Hj).
        apply linear_drop_rate_mono; [lia | exact Hd | exact Hij].
      * intros r Hin. destruct (Hidx r Hin) as (i & Hi & ->).
        now apply linear_drop_rate_le.
    + intros Hd r Hin. destruct (Hidx r Hin) as (i & Hi & ->).
      now apply linear_drop_rate_lt.
Qed.

(** ** CoAtNet *)

Lemma stack_sizes_le (num_blocks out_channels : list Z) (block_types : list string) :
  Forall (fun n => 0 <= n) num_blocks ->
  Z.of_nat (list_sum (map stack_size
                        (py_enumerate (py_zip3 num_blocks out_channels block_types))))
  <= py_sum num_blocks.
Proof.
  intros Hnn. unfold py_enumerate.
  generalize (map Z.of_nat (seq 0 (List.length (py_zip3 num_blocks out_channels block_types)))).
  revert out_channels block_types.
  induction Hnn as [|n nb Hn Hnb IH]; intros oc bt ids.
  - simpl. destruct ids; simpl; unfold py_sum; simpl; lia.
  - rewrite py_sum_cons. pose proof (py_sum_nonneg nb Hnb) as Hs.
    destruct oc as [|o oc]; [destruct ids; simpl; lia|].
    destruct bt as [|b bt]; [destruct ids; simpl; lia|].
    destruct ids as [|i ids]; [simpl; lia|].
    simpl. specialize (IH oc bt ids). lia.
Qed.

Lemma CoAtNet_blocks_state num_blocks out_channels block_types se_ratio dcr blocks :
  CoAtNet_blocks num_blocks out_channels block_types se_ratio dcr = Ok blocks ->
  rates_linear dcr (py_sum num_blocks) (map cb_drop_rate blocks) /\
  List.length blocks
  = list_sum (map stack_size (py_enumerate (py_zip3 num_blocks out_channels block_types))).
Proof.
  unfold CoAtNet_blocks. cbv zeta.
  set (total := py_sum num_blocks).
  match goal with
  | |- bind (for_each ?outer ?xs ?s0) _ = _ -> _ =>
      set (body := outer); destruct (for_each body xs s0) as [st|e] eqn:Hrun
  end; simpl; [|discriminate].
  intros Hok. inversion Hok; subst blocks; clear Hok.
  (* one step of the inner loop *)
  assert (Hinner : forall stack_id is_conv out_channel stack_se num_block s r,
             for_each
               (fun (st : coatnet_state) (block_id : Z) =>
                  let '(built, global_block_id) := st in
                  block_se_ratio <- se_pick stack_se block_id ;;
                  block_drop_rate <-
                    py_truediv (dcr * inject_Z global_block_id) (inject_Z total) ;;
                  Ok (built ++ [{| cb_stack_id := stack_id; cb_block_id := block_id;
                                   cb_is_conv_block := is_conv;
                                   cb_out_channel := out_channel;
                                   cb_conv_short_cut := block_id =? 0;
                                   cb_strides := if block_id =? 0 then 2 else 1;
                                   cb_se_ratio := block_se_ratio;
                                   cb_drop_rate := block_drop_rate |}],
                      global_block_id + 1))
               (py_range 0 num_block) s = Ok r ->
             (coatnet_inv dcr total s -> coatnet_inv dcr total r) /\
             List.length (fst r) = (List.length (fst s) + Z.to_nat num_block)%nat).
  { intros stack_id is_conv out_channel stack_se num_block s r Hin. split.
    - intros Hs. revert Hin. apply for_each_invariant; [|exact Hs].
      clear. intros [built gid] block_id s' [Hgid Hlin] Hstep. simpl in Hgid, Hlin.
      destruct (se_pick stack_se block_id) as [bse|]; simpl in Hstep; [|discriminate].
      unfold py_truediv in Hstep.
      destruct (Qeq_bool (inject_Z total) 0); simpl in Hstep; [discriminate|].
      inversion Hstep; subst s'; clear Hstep. split; simpl.
      + rewrite length_app. simpl. lia.
      + rewrite map_app. simpl. subst gid.
        rewrite <- (length_map cb_drop_rate built).
        now apply rates_linear_snoc.
    - match type of Hin with
      | for_each ?b _ _ = _ =>
          pose proof (for_each_measure b (fun st : coatnet_state => List.length (fst st))
                        (fun _ => 1%nat)) as Hm
      end.
      rewrite (Hm ltac:(clear; intros [built gid] x s' Hstep;
                   destruct (se_pick stack_se x); simpl in Hstep; [|discriminate];
                   unfold py_truediv in Hstep;
                   destruct (Qeq_bool (inject_Z total) 0); simpl in Hstep; [discriminate|];
                   inversion Hstep; subst; simpl; rewrite length_app; reflexivity)
                 _ _ _ Hin).
      rewrite list_sum_const_1, py_range_length. f_equal. f_equal. lia. }
  split.
  - assert (Hinv : coatnet_inv dcr total st).
    { revert Hrun. apply for_each_invariant.
      - intros s [stack_id [[num_block out_channel] block_type]] s' Hs Hstep.
        unfold body in Hstep.
        destruct block_type as [|c0 rest]; simpl in Hstep; [discriminate|].
        destruct (se_pick se_ratio stack_id) as [sse|]; simpl in Hstep; [|discriminate].
        now apply (Hinner _ _ _ _ _ _ _ Hstep).
      - split; simpl; [reflexivity|]. intros [|i] r H; discriminate. }
    exact (proj2 Hinv).
  - rewrite (for_each_measure body (fun st : coatnet_state => List.length (fst st)) stack_size
               ltac:(intros s [stack_id [[num_block out_channel] block_type]] s' Hstep;
                     unfold body in Hstep;
                     destruct block_type as [|c0 rest]; simpl in Hstep; [discriminate|];
                     destruct (se_pick se_ratio stack_id) as [sse|]; simpl in Hstep;
                     [|discriminate];
                     exact (proj2 (Hinner _ _ _ _ _ _ _ Hstep)))
               _ _ _ Hrun).
    reflexivity.
Qed.

(** ** VOLO *)

Lemma VOLO_stage_state dcr total num_block embed_dim num_head mlp_ratio attention_type s r :
  VOLO_stage dcr total num_block embed_dim num_head mlp_ratio attention_type s = Ok r ->
  (volo_inv dcr total s -> volo_inv dcr total r) /\
  List.length (fst r) = (List.length (fst s) + Z.to_nat num_block)%nat.
Proof.
  unfold VOLO_stage. intros Hrun. split.
  - intros Hs. revert Hrun. apply for_each_invariant; [|exact Hs].
    clear. intros [built gid] ii s' [Hgid Hlin] Hstep. simpl in Hgid, Hlin.
    unfold py_truediv in Hstep.
    destruct (Qeq_bool (inject_Z total) 0); simpl in Hstep; [discriminate|].
    inversion Hstep; subst s'; clear Hstep. split; simpl.
    + rewrite length_app. simpl. lia.
    + rewrite map_app. simpl. subst gid.
      rewrite <- (length_map vb_drop_rate built).
      now apply rates_linear_snoc.
  - match type of Hrun with
    | for_each ?b _ _ = _ =>
        pose proof (for_each_measure b (fun st : volo_state => List.length (fst st))
                      (fun _ => 1%nat)) as Hm
    end.
    rewrite (Hm ltac:(clear; intros [built gid] x s' Hstep;
                 unfold py_truediv in Hstep;
                 destruct (Qeq_bool (inject_Z total) 0); simpl in Hstep; [discriminate|];
                 inversion Hstep; subst; simpl; rewrite length_app; reflexivity)
               _ _ _ Hrun).
    rewrite list_sum_const_1, py_range_length. f_equal. f_equal. lia.
Qed.

Lemma py_index_0 {A : Type} (l : list A) (a : A) :
  py_index l 0 = Ok a -> exists l', l = a :: l'.
Proof.
  destruct l as [|x l]; unfold py_index; cbv zeta.
  - simpl. discriminate.
  - change (0 <? 0) with false. cbv iota.
    destruct ((0 <? 0) || (Z.of_nat (List.length (x :: l)) <=? 0)); [discriminate|].
    simpl. intros H; inversion H; subst. now exists l.
Qed.

Lemma py_index_1 {A : Type} (l : list A) (b : A) :
  py_index l 1 = Ok b -> exists a l', l = a :: b :: l'.
Proof.
  destruct l as [|x [|y l]]; unfold py_index; cbv zeta.
  - simpl. discriminate.
  - simpl. discriminate.
  - change (1 <? 0) with false. cbv iota.
    destruct ((1 <? 0) || (Z.of_nat (List.length (x :: y :: l)) <=? 1)); [discriminate|].
    simpl. intros H; inversion H; subst. now exists x, l.
Qed.

Lemma VOLO_forward_tokens_state num_blocks embed_dims num_heads mlp_ratios dcr fat blocks :
  VOLO_forward_tokens num_blocks embed_dims num_heads mlp_ratios dcr fat = Ok blocks ->
  rates_linear dcr (py_sum num_blocks) (map vb_drop_rate blocks) /\
  (Forall (fun n => 0 <= n) num_blocks ->
   Z.of_nat (List.length blocks) <= py_sum num_blocks).
Proof.
  unfold VOLO_forward_tokens. cbv zeta. set (total := py_sum num_blocks).
  destruct (py_index num_blocks 0) as [n0|] eqn:Hn0; simpl; [|discriminate].
  destruct (py_index embed_dims 0) as [e0|]; simpl; [|discriminate].
  destruct (py_index num_heads 0) as [h0|]; simpl; [|discriminate].
  destruct (py_index mlp_ratios 0) as [m0|]; simpl; [|discriminate].
  destruct (VOLO_stage dcr total n0 e0 h0 m0 fat ([], 0)) as [st1|] eqn:H1; simpl;
    [|discriminate].
  destruct (py_index num_blocks 1) as [n1|] eqn:Hn1; simpl; [|discriminate].
  destruct (py_index embed_dims 1) as [e1|]; simpl; [|discriminate].
  destruct (py_index num_heads 1) as [h1|]; simpl; [|discriminate].
  destruct (py_index mlp_ratios 1) as [m1|]; simpl; [|discriminate].
  destruct (VOLO_stage dcr total n1 e1 h1 m1 "mhsa" st1) as [st2|] eqn:H2; simpl;
    [|discriminate].
  intros Hok; inversion Hok; subst blocks; clear Hok.
  destruct (VOLO_stage_state _ _ _ _ _ _ _ _ _ H1) as [Hi1 Hl1].
  destruct (VOLO_stage_state _ _ _ _ _ _ _ _ _ H2) as [Hi2 Hl2].
  split.
  - apply Hi2, Hi1. split; simpl; [reflexivity|]. intros [|i] r H; discriminate.
  - intros Hnn. rewrite Hl2, Hl1. simpl.
    destruct (py_index_1 _ _ Hn1) as (a & rest & Heq).
    destruct (py_index_0 _ _ Hn0) as (rest' & Heq').
    rewrite Heq in Heq'. inversion Heq'; subst a rest'. clear Heq'.
    unfold total. rewrite Heq, !py_sum_cons.
    rewrite Heq in Hnn. inversion Hnn as [|? ? Hp0 Hnn']; subst.
    inversion Hnn' as [|? ? Hp1 Hnn'']; subst.
    pose proof (py_sum_nonneg rest Hnn''). lia.
Qed.

(** C4 (as amended).  In every model built by [CoAtNet] and [VOLO], the
    block with 0-based construction index [i] gets the drop rate
    [drop_connect_rate * i / total_blocks] with
    [total_blocks = sum(num_blocks)]; the rates start at 0; and, the
    block counts being non-negative, for [drop_connect_rate >= 0] the
    rates are non-decreasing and at most [drop_connect_rate], and for
    [drop_connect_rate > 0] every rate is strictly less than
    [drop_connect_rate]. *)
Theorem stochastic_depth_schedule :
  (forall num_blocks out_channels block_types se_ratio drop_connect_rate blocks,
      CoAtNet_blocks num_blocks out_channels block_types se_ratio drop_connect_rate
      = Ok blocks ->
      drop_rate_schedule drop_connect_rate num_blocks (map cb_drop_rate blocks)) /\
  (forall num_blocks embed_dims num_heads mlp_ratios drop_connect_rate first_attn_type
          blocks,
      VOLO_forward_tokens num_blocks embed_dims num_heads mlp_ratios drop_connect_rate
                          first_attn_type = Ok blocks ->
      drop_rate_schedule drop_connect_rate num_blocks (map vb_drop_rate blocks)).
Proof.
  split.
  - intros nb oc bt se dcr blocks H.
    destruct (CoAtNet_blocks_state _ _ _ _ _ _ H) as [Hlin Hlen].
    apply rates_linear_schedule; [exact Hlin|].
    intros Hnn. rewrite length_map, Hlen. now apply stack_sizes_le.
  - intros nb ed nh mr dcr fat blocks H.
    destruct (VOLO_forward_tokens_state _ _ _ _ _ _ _ H) as [Hlin Hlen].
    apply rates_linear_schedule; [exact Hlin|].
    intros Hnn. rewrite length_map. now apply Hlen.
Qed.

(** With the default [drop_connect_rate = 0] every rate is 0, which is
    not strictly less than [drop_connect_rate]. *)
Lemma stochastic_depth_default_counterexample :
  exists blocks b,
    CoAtNet_blocks [2; 3; 5; 2] [96; 192; 384; 768]
                   ["conv"; "conv"; "transfrom"; "transform"] (SeNum (1 # 4)) 0
    = Ok blocks /\
    nth_error blocks 0 = Some b /\
    ~ (cb_drop_rate b < 0)%Q.
Proof.
  eexists. eexists. split; [reflexivity|]. split; [reflexivity|].
  simpl. unfold Qlt. simpl. lia.
Qed.

Lemma stochastic_depth_schedule_witness :
  drop_rate_schedule (1 # 5) [2; 3; 5; 2]
    (map cb_drop_rate
       (match CoAtNet_blocks [2; 3; 5; 2] [96; 192; 384; 768]
                ["conv"; "conv"; "transfrom"; "transform"] (SeNum (1 # 4)) (1 # 5) with
        | Ok blocks => blocks
        | Raise _ => []
        end)) /\
  drop_rate_schedule (1 # 5) [4; 14]
    (map vb_drop_rate
       (match VOLO_forward_tokens [4; 14] [192; 384] [6; 12] [3; 3] (1 # 5) "outlook" with
        | Ok blocks => blocks
        | Raise _ => []
        end)).
Proof.
  split.
  - apply (proj1 stochastic_depth_schedule _ [96; 192; 384; 768]
             ["conv"; "conv"; "transfrom"; "transform"] (SeNum (1 # 4))).
    reflexivity.
  - apply (proj2 stochastic_depth_schedule _ [192; 384] [6; 12] [3; 3] _ "outlook").
    reflexivity.
Defined.

Example CoAtNet0_rates :
  option_map (map cb_drop_rate)
    (match CoAtNet_blocks [1; 2] [96; 192] ["conv"; "transform"] (SeNum (1 # 4)) (3 # 10) with
     | Ok blocks => Some blocks
     | Raise _ => None
     end)
  = Some [(3 # 10) * 0 / 3; (3 # 10) * 1 / 3; (3 # 10) * 2 / 3]%Q.
Proof. reflexivity. Qed.

(* ================================================================== *)
(** * Index arithmetic *)
(* ================================================================== *)

Lemma in_range_cons (d i : Z) (s idx : list Z) :
  in_range (d :: s) (i :: idx) <-> 0 <= i < d /\ in_range s idx.
Proof.
  unfold in_range. simpl. rewrite !andb_true_iff, Z.leb_le, Z.ltb_lt. tauto.
Qed.

Lemma in_range_nil : in_range [] [].
Proof. reflexivity. Qed.

Lemma in_range_length (s idx : list Z) :
  in_range s idx -> List.length idx = List.length s.
Proof. apply in_rangeb_length. Qed.

Lemma fold_ravel_acc (l : list (Z * Z)) (a : Z) :
  fold_left (fun acc '(d, i) => acc * d + i) l a
  = a * numel (map fst l) + fold_left (fun acc '(d, i) => acc * d + i) l 0.
Proof.
  revert a. induction l as [|[d i] l IH]; intros a.
  - unfold numel. simpl. lia.
  - cbn [fold_left map fst]. rewrite (IH (a * d + i)), (IH (0 * d + i)).
    change (numel (d :: map fst l)) with (d * numel (map fst l)). ring.
Qed.

Lemma ravel_cons (d i : Z) (s idx : list Z) :
  List.length idx = List.length s ->
  ravel (d :: s) (i :: idx) = i * numel s + ravel s idx.
Proof.
  intros Hlen. unfold ravel. simpl. rewrite fold_ravel_acc.
  replace (map fst (combine s idx)) with s; [ring|].
  clear -Hlen. revert idx Hlen. induction s as [|x s IH]; intros [|y idx] H;
    simpl in *; try discriminate; auto.
  f_equal. apply IH. lia.
Qed.

Lemma numel_cons (d : Z) (s : list Z) : numel (d :: s) = d * numel s.
Proof. reflexivity. Qed.

Lemma ravel_bound (s idx : list Z) :
  in_range s idx -> 0 <= ravel s idx < numel s.
Proof.
  revert idx. induction s as [|d s IH]; intros [|i idx] H; try discriminate H.
  - unfold ravel, numel. simpl. lia.
  - apply in_range_cons in H. destruct H as [Hi Hr].
    rewrite ravel_cons by (now apply in_range_length).
    rewrite numel_cons. specialize (IH idx Hr). nia.
Qed.

(** The position of an in-range index determines the index; the size
    of the leading dimension plays no part. *)
Lemma unravel_ravel (d i : Z) (s idx : list Z) :
  in_range s idx ->
  unravel (d :: s) (ravel (d :: s) (i :: idx)) = i :: idx.
Proof.
  revert d i idx. induction s as [|d' s IH]; intros d i idx H.
  - destruct idx; [|discriminate H]. unfold ravel, numel. simpl.
    f_equal. rewrite Z.div_1_r. lia.
  - destruct idx as [|i' idx]; [discriminate H|].
    pose proof (ravel_bound _ _ H) as Hb.
    rewrite ravel_cons by (now apply in_range_length).
    cbn [unravel]. f_equal.
    + rewrite Z.div_add_l by lia. rewrite Z.div_small by lia. lia.
    + rewrite Z.add_comm, Z.mod_add by lia. rewrite Z.mod_small by lia.
      apply in_range_cons in H. destruct H as [_ H]. now apply IH.
Qed.

(** ** Reading a reshaped tensor *)

Lemma ravel_head_irrelevant (d d' i : Z) (s idx : list Z) :
  ravel (d :: s) (i :: idx) = ravel (d' :: s) (i :: idx).
Proof. unfold ravel. cbn [combine fold_left]. now rewrite !Z.mul_0_l. Qed.

(** If [idx'] in the new shape and the in-range [idx] in the old shape
    have the same row-major position, the reshaped tensor at [idx'] is
    the old tensor at [idx]. *)
Lemma tf_reshape_at (t : tensor) (s : list Z) (d i : Z) (sh idx idx' : list Z) :
  shape t = d :: sh ->
  in_range sh idx ->
  ravel (resolve_shape (numel (shape t)) s) idx' = ravel (d :: sh) (i :: idx) ->
  at_ (tf_reshape t s) idx' = at_ t (i :: idx).
Proof.
  intros Hs Hin Hr. unfold tf_reshape. cbn [at_]. rewrite Hr, Hs.
  now rewrite unravel_ravel.
Qed.

Lemma filter_not_minus_one (s : list Z) :
  forallb (fun d => negb (d =? -1)) s = true ->
  filter (fun d => negb (d =? -1)) s = s.
Proof.
  induction s as [|d s IH]; [reflexivity|]. simpl. intros H.
  apply andb_prop in H. destruct H as [Hd Hs]. rewrite Hd. f_equal. now apply IH.
Qed.

Lemma map_not_minus_one (v : Z) (s : list Z) :
  forallb (fun d => negb (d =? -1)) s = true ->
  map (fun d => if d =? -1 then v else d) s = s.
Proof.
  induction s as [|d s IH]; [reflexivity|]. simpl. intros H.
  apply andb_prop in H. destruct H as [Hd Hs]. apply negb_true_iff in Hd.
  rewrite Hd. f_equal. now apply IH.
Qed.

Lemma resolve_shape_head (total : Z) (s : list Z) :
  forallb (fun d => negb (d =? -1)) s = true ->
  resolve_shape total (-1 :: s) = total / numel s :: s.
Proof.
  intros H. unfold resolve_shape. cbn [filter map]. change (-1 =? -1) with true.
  cbn [negb]. rewrite filter_not_minus_one by exact H.
  f_equal. now apply map_not_minus_one.
Qed.

(** ** Ceiling of a quotient of integers *)

Lemma py_ceil_quotient (a b : Z) :
  0 < b -> py_ceil (inject_Z a / inject_Z b) = (a + b - 1) / b.
Proof.
  intros Hb. unfold py_ceil, Qceiling, Qfloor.
  destruct b as [|p|p]; try lia.
  unfold Qdiv, Qinv, inject_Z, Qmult, Qopp. simpl.
  rewrite Z.mul_1_r.
  pose proof (Z.div_mod (- a) (Z.pos p) ltac:(lia)) as H1.
  pose proof (Z.mod_pos_bound (- a) (Z.pos p) ltac:(lia)) as H2.
  pose proof (Z.div_mod (a + Z.pos p - 1) (Z.pos p) ltac:(lia)) as H3.
  pose proof (Z.mod_pos_bound (a + Z.pos p - 1) (Z.pos p) ltac:(lia)) as H4.
  nia.
Qed.

(** ** Shapes and elements of the structural operations *)

Lemma normalize_axis_nonneg (n : nat) (a : Z) : 0 <= a -> normalize_axis n a = a.
Proof.
  intros Ha. unfold normalize_axis. destruct (Z.ltb_spec a 0); [lia | reflexivity].
Qed.

Lemma tf_concat2_shape (a b : tensor) (ax : Z) :
  0 <= ax ->
  shape (tf_concat2 a b ax)
  = list_update (shape a) (Z.to_nat ax)
      (nth (Z.to_nat ax) (shape a) 0 + nth (Z.to_nat ax) (shape b) 0).
Proof. intros H. unfold tf_concat2. cbn [shape]. now rewrite normalize_axis_nonneg. Qed.

Lemma tf_concat2_at (a b : tensor) (ax : Z) (idx : list Z) :
  0 <= ax ->
  at_ (tf_concat2 a b ax) idx
  = if nth (Z.to_nat ax) idx 0 <? nth (Z.to_nat ax) (shape a) 0
    then at_ a idx
    else at_ b (list_update idx (Z.to_nat ax)
                  (nth (Z.to_nat ax) idx 0 - nth (Z.to_nat ax) (shape a) 0)).
Proof. intros H. unfold tf_concat2. cbn [at_]. now rewrite normalize_axis_nonneg. Qed.

(** The transposition [[0, 1, 3, 2, 4, 5]], used in both directions. *)
Lemma tf_transpose_swap23_shape (t : tensor) (a b c d e f : Z) :
  shape t = [a; b; c; d; e; f] ->
  shape (tf_transpose t [0; 1; 3; 2; 4; 5]) = [a; b; d; c; e; f].
Proof. intros H. unfold tf_transpose. cbn [shape]. rewrite H. reflexivity. Qed.

Lemma tf_transpose_swap23_at (t : tensor) (i0 i1 i2 i3 i4 i5 : Z) :
  at_ (tf_transpose t [0; 1; 3; 2; 4; 5]) [i0; i1; i2; i3; i4; i5]
  = at_ t [i0; i1; i3; i2; i4; i5].
Proof. reflexivity. Qed.

Lemma tf_slice_shape (t : tensor) (slices : list pyslice) :
  shape (tf_slice t slices) = zip_with slice_len (shape t) slices.
Proof. reflexivity. Qed.

Lemma tf_slice_at (t : tensor) (slices : list pyslice) (idx : list Z) :
  at_ (tf_slice t slices) idx
  = at_ t (zip_with (fun '(d, sl) i => slice_start d sl + i * sl_step sl)
                    (combine (shape t) slices) idx).
Proof. reflexivity. Qed.

Lemma slice_all_len (d : Z) : 0 <= d -> slice_len d slice_all = d.
Proof.
  intros Hd. unfold slice_len, slice_start, slice_stop, slice_all. cbn.
  destruct (Z.ltb_spec 0 d) as [H|H].
  - rewrite Z.div_1_r. lia.
  - lia.
Qed.

Lemma slice_all_start (d : Z) : slice_start d slice_all = 0.
Proof. reflexivity. Qed.

(** [t[-1:]] on a dimension of size 2 selects its last item. *)
Lemma slice_last_of_2 :
  slice_len 2 (slice_from (- (3 - 2))) = 1 /\ slice_start 2 (slice_from (- (3 - 2))) = 1.
Proof. split; reflexivity. Qed.

(** ** Equality of tensors *)

Lemma tensor_eq_refl (a : tensor) : tensor_eq a a.
Proof. split; auto. Qed.

Lemma tensor_eq_sym (a b : tensor) : tensor_eq a b -> tensor_eq b a.
Proof.
  intros [Hs He]. split; [now symmetry|]. intros idx H. symmetry. apply He.
  now rewrite Hs.
Qed.

Lemma tensor_eq_trans (a b c : tensor) : tensor_eq a b -> tensor_eq b c -> tensor_eq a c.
Proof.
  intros [Hs1 He1] [Hs2 He2]. split; [congruence|]. intros idx H.
  rewrite He1 by exact H. apply He2. now rewrite <- Hs1.
Qed.

(** An in-range index of a rank-4 shape. *)
Lemma in_range_4 (s0 s1 s2 s3 : Z) (idx : list Z) :
  in_range [s0; s1; s2; s3] idx ->
  exists b i j d, idx = [b; i; j; d] /\
                  0 <= b < s0 /\ 0 <= i < s1 /\ 0 <= j < s2 /\ 0 <= d < s3.
Proof.
  intros H. pose proof (in_range_length _ _ H) as Hl.
  destruct idx as [|b [|i [|j [|d [|? ?]]]]]; try discriminate Hl.
  repeat (apply in_range_cons in H; destruct H as [? H]).
  exists b, i, j, d. auto.
Qed.

(** ** The SAME branch of tpu_extract_patches_overlap_1 *)

Lemma tpu_same_is_padded (x : tensor) (rates rates' : int_or_seq) :
  tpu_extract_patches_overlap_1 x (KInt 3) (KInt 2) rates "SAME"
  = tpu_extract_patches_overlap_1 (tf_pad x [(0, 0); (1, 1); (1, 1); (0, 0)])
      (KSeq [1; 3; 3; 1]) (KSeq [1; 2; 2; 1]) rates' "VALID".
Proof. reflexivity. Qed.

Lemma upper_VALID_not_SAME : String.eqb (str_upper "VALID") "SAME" = false.
Proof. reflexivity. Qed.

Lemma upper_SAME_is_SAME : String.eqb (str_upper "SAME") "SAME" = true.
Proof. reflexivity. Qed.

Lemma second_of_patch_args :
  second_if_seq (KSeq [1; 3; 3; 1]) = Ok 3 /\ second_if_seq (KSeq [1; 2; 2; 1]) = Ok 2.
Proof. split; reflexivity. Qed.

(** The transposition [[0, 1, 2, 4, 3, 5]]. *)
Lemma tf_transpose_swap34_shape (t : tensor) (a b c d e f : Z) :
  shape t = [a; b; c; d; e; f] ->
  shape (tf_transpose t [0; 1; 2; 4; 3; 5]) = [a; b; c; e; d; f].
Proof. intros H. unfold tf_transpose. cbn [shape]. rewrite H. reflexivity. Qed.

Lemma tf_transpose_swap34_at (t : tensor) (i0 i1 i2 i3 i4 i5 : Z) :
  at_ (tf_transpose t [0; 1; 2; 4; 3; 5]) [i0; i1; i2; i3; i4; i5]
  = at_ t [i0; i1; i2; i4; i3; i5].
Proof. reflexivity. Qed.

Lemma broadcast_index_in_range (s idx : list Z) :
  in_range s idx -> broadcast_index s idx = idx.
Proof.
  unfold broadcast_index. revert idx.
  induction s as [|d s IH]; intros [|i idx] H; try discriminate H; [reflexivity|].
  apply in_range_cons in H. destruct H as [Hi H]. simpl.
  rewrite (IH idx H). destruct (Z.eqb_spec d 1); [f_equal; lia | reflexivity].
Qed.

Lemma broadcast_dims_same (s : list Z) : broadcast_dims s s = s.
Proof.
  unfold broadcast_dims. induction s as [|d s IH]; [reflexivity|]. simpl.
  rewrite IH. now destruct (d =? 1).
Qed.

(** Adding two tensors of the same shape. *)
Lemma tensor_add_same_shape (a b : tensor) :
  shape a = shape b ->
  shape (tensor_add a b) = shape a /\
  forall idx, in_range (shape a) idx ->
              at_ (tensor_add a b) idx = (at_ a idx + at_ b idx)%R.
Proof.
  intros Hs. unfold tensor_add, broadcast_op. cbn [shape at_]. rewrite <- Hs.
  rewrite Nat.max_id. unfold left_pad_shape. rewrite Nat.sub_diag. cbn [repeat app skipn].
  split; [apply broadcast_dims_same|].
  intros idx H. now rewrite broadcast_index_in_range.
Qed.

Lemma tf_pad_shape (t : tensor) (paddings : list (Z * Z)) :
  shape (tf_pad t paddings)
  = zip_with (fun d '(before, after) => before + d + after) (shape t) paddings.
Proof. reflexivity. Qed.

Lemma tf_pad_at (t : tensor) (paddings : list (Z * Z)) (idx : list Z) :
  at_ (tf_pad t paddings) idx
  = let src := zip_with (fun i '(before, _) => i - before) idx paddings in
    if in_rangeb (shape t) src then at_ t src else 0%R.
Proof. reflexivity. Qed.

(** ** Sums *)

Lemma py_range_succ (n : Z) :
  0 <= n -> py_range 0 (n + 1) = py_range 0 n ++ [n].
Proof.
  intros Hn. unfold py_range. rewrite !Z.sub_0_r.
  replace (Z.to_nat (n + 1)) with (S (Z.to_nat n)) by lia.
  rewrite seq_S, map_app. simpl. f_equal. f_equal. lia.
Qed.

Lemma Rsum_fold_app (l1 l2 : list Z) (f : Z -> R) :
  fold_right (fun k acc => (f k + acc)%R) 0%R (l1 ++ l2)
  = (fold_right (fun k acc => (f k + acc)%R) 0%R l1
     + fold_right (fun k acc => (f k + acc)%R) 0%R l2)%R.
Proof. induction l1 as [|x l1 IH]; simpl; [lra | rewrite IH; lra]. Qed.

Lemma Rsum_succ (n : Z) (f : Z -> R) :
  0 <= n -> Rsum (n + 1) f = (Rsum n f + f n)%R.
Proof.
  intros Hn. unfold Rsum. rewrite py_range_succ by exact Hn.
  rewrite Rsum_fold_app. simpl. lra.
Qed.

Lemma Rsum_0 (f : Z -> R) : Rsum 0 f = 0%R.
Proof. reflexivity. Qed.

Lemma Rsum_ext (n : Z) (f g : Z -> R) :
  (forall k, 0 <= k < n -> f k = g k) -> Rsum n f = Rsum n g.
Proof.
  intros H. destruct (Z.le_gt_cases 0 n) as [Hn|Hn].
  - revert H. pattern n. apply natlike_ind; [reflexivity | | exact Hn].
    clear n Hn. intros n Hn IH H. unfold Z.succ. rewrite !Rsum_succ by exact Hn.
    rewrite IH by (intros; apply H; lia). rewrite H by lia. reflexivity.
  - unfold Rsum, py_range. replace (Z.to_nat (n - 0)) with 0%nat by lia. reflexivity.
Qed.

Lemma Rsum_zero (n : Z) : Rsum n (fun _ => 0%R) = 0%R.
Proof.
  destruct (Z.le_gt_cases 0 n) as [Hn|Hn].
  - pattern n. apply natlike_ind; [reflexivity | | exact Hn].
    clear n Hn. intros n Hn IH. unfold Z.succ. rewrite Rsum_succ by exact Hn. rewrite IH. lra.
  - unfold Rsum, py_range. replace (Z.to_nat (n - 0)) with 0%nat by lia. reflexivity.
Qed.

(** A row of the identity matrix picks one term of a sum. *)
Lemma Rsum_delta (n k : Z) (g : Z -> R) :
  0 <= k < n ->
  Rsum n (fun l => ((if k =? l then 1 else 0) * g l)%R) = g k.
Proof.
  intros Hk.
  assert (Hgen : forall m, 0 <= m ->
            Rsum m (fun l => ((if k =? l then 1 else 0) * g l)%R)
            = if k <? m then g k else 0%R).
  { intros m Hm. pattern m. apply natlike_ind; [| | exact Hm].
    - rewrite Rsum_0. destruct (Z.ltb_spec k 0); [lia | reflexivity].
    - clear m Hm. intros m Hm IH. unfold Z.succ. rewrite Rsum_succ by exact Hm.
      rewrite IH.
      destruct (Z.ltb_spec k m); destruct (Z.ltb_spec k (m + 1));
        destruct (Z.eqb_spec k m); try lia; subst; lra. }
  rewrite Hgen by lia. destruct (Z.ltb_spec k n); [reflexivity | lia].
Qed.

(** ** In-range tests as propositions *)

Lemma in_rangeb_4 (s0 s1 s2 s3 a b c d : Z) :
  in_rangeb [s0; s1; s2; s3] [a; b; c; d] = true <->
  0 <= a < s0 /\ 0 <= b < s1 /\ 0 <= c < s2 /\ 0 <= d < s3.
Proof.
  cbn [in_rangeb]. rewrite !andb_true_iff, !Z.leb_le, !Z.ltb_lt. tauto.
Qed.

Lemma in_rangeb_6 (s0 s1 s2 s3 s4 s5 a b c d e f : Z) :
  in_rangeb [s0; s1; s2; s3; s4; s5] [a; b; c; d; e; f] = true <->
  0 <= a < s0 /\ 0 <= b < s1 /\ 0 <= c < s2 /\ 0 <= d < s3 /\ 0 <= e < s4 /\ 0 <= f < s5.
Proof.
  cbn [in_rangeb]. rewrite !andb_true_iff, !Z.leb_le, !Z.ltb_lt. tauto.
Qed.

Lemma bool_false_iff (b : bool) (P : Prop) : (b = true <-> P) -> (b = false <-> ~ P).
Proof. destruct b; intuition congruence. Qed.

(** ** Counting over a product of ranges *)

Lemma filter_pair_length {A B : Type} (p : A -> bool) (q : B -> bool) (a : A) (l : list B) :
  List.length (filter (fun '(i, j) => p i && q j) (map (pair a) l))
  = if p a then List.length (filter q l) else 0%nat.
Proof.
  induction l as [|b l IH]; simpl.
  - now destruct (p a).
  - destruct (p a) eqn:Hp; simpl in *.
    + destruct (q b); simpl; now rewrite IH.
    + exact IH.
Qed.

Lemma filter_prod_length {A B : Type} (p : A -> bool) (q : B -> bool)
    (l1 : list A) (l2 : list B) :
  List.length (filter (fun '(i, j) => p i && q j) (list_prod l1 l2))
  = (List.length (filter p l1) * List.length (filter q l2))%nat.
Proof.
  induction l1 as [|a l1 IH]; [reflexivity|].
  cbn [list_prod]. rewrite filter_app, length_app, IH, filter_pair_length.
  simpl. destruct (p a); simpl; lia.
Qed.

(* ================================================================== *)
(** * se_module *)
(* ================================================================== *)

Lemma sigmoid_range (x : R) : (0 < sigmoid x < 1)%R.
Proof.
  unfold sigmoid. pose proof (exp_pos (- x)) as He.
  assert (H1 : (1 < 1 + exp (- x))%R) by lra.
  split.
  - apply Rdiv_lt_0_compat; lra.
  - apply (Rmult_lt_reg_r (1 + exp (- x))); [lra|].
    unfold Rdiv. rewrite Rmult_assoc, Rinv_l by lra. lra.
Qed.

(** The value after [activation_by_name] is a function of the value
    before it. *)
Lemma activation_by_name_forward (fmt : data_format) (x y : ktensor) (activation name : pyname)
    (fw : layer -> list tensor -> tensor) :
  activation_by_name fmt x activation name = Ok y ->
  exists F : tensor -> tensor, forall input, forward fw input y = F (forward fw input x).
Proof.
  unfold activation_by_name. destruct activation as [act|]; [|discriminate].
  destruct (String.eqb act "hard_swish").
  - intros H; inversion H; subst.
    exists (fun v => layer_fwd fw (Activation hard_swish (activation_layer_name name (Some act))) [v]).
    reflexivity.
  - destruct (String.eqb (str_lower act) "prelu").
    + destruct (py_pop _ _) as [axes|]; cbn [bind]; [|discriminate].
      intros H; inversion H; subst.
      exists (fun v => layer_fwd fw (PReLU axes (1 # 4) (activation_layer_name name (Some act))) [v]).
      reflexivity.
    + destruct (name_truthy (Some act)).
      * intros H; inversion H; subst.
        exists (fun v => layer_fwd fw (Activation (keras_identifier act)
                                         (activation_layer_name name (Some act))) [v]).
        reflexivity.
      * intros H; inversion H; subst. exists (fun v => v). reflexivity.
Qed.

Lemma activation_by_name_sigmoid (fmt : data_format) (x : ktensor) (name : pyname) :
  activation_by_name fmt x (Some "sigmoid") name
  = Ok (KLayer (Activation (keras_identifier "sigmoid")
                  (activation_layer_name name (Some "sigmoid"))) [x]).
Proof. reflexivity. Qed.

Lemma broadcast_dim_same (d : kdim) : broadcast_dim d d = d.
Proof. destruct d as [[|[p|p|]|p]|]; reflexivity. Qed.

Lemma broadcast_dim_one (d : kdim) : broadcast_dim d (Some 1) = d.
Proof. destruct d as [[|[p|p|]|p]|]; reflexivity. Qed.

Lemma forward_spatial_mean (fmt : data_format) (fw : layer -> list tensor -> tensor)
    (input : tensor) (x : ktensor) :
  forward fw input (KLayer (ReduceMean (spatial_axes fmt) true) [x])
  = spatial_mean fmt (forward fw input x).
Proof. now destruct fmt. Qed.

Lemma tensor_mul_gate (fmt : data_format) (v g : tensor) (idx : list Z) :
  List.length (shape v) = 4%nat ->
  shape g = spatial_ones fmt (shape v) ->
  in_range (shape v) idx ->
  at_ (tensor_mul v g) idx = (at_ v idx * at_ g (spatial_origin fmt idx))%R.
Proof.
  intros Hlen Hg Hidx.
  destruct (shape v) as [|d0 [|d1 [|d2 [|d3 [|? ?]]]]] eqn:Hv; try discriminate Hlen.
  pose proof Hidx as Hidx'.
  apply in_range_4 in Hidx'.
  destruct Hidx' as (i0 & i1 & i2 & i3 & -> & H0 & H1 & H2 & H3).
  unfold tensor_mul, broadcast_op. cbn [at_].
  assert (Hlg : List.length (shape g) = 4%nat) by (rewrite Hg; now destruct fmt).
  rewrite Hv, Hlg. cbn [List.length Nat.max Nat.sub left_pad_shape repeat app skipn].
  unfold left_pad_shape. cbn [List.length Nat.sub repeat app skipn].
  rewrite (broadcast_index_in_range [d0; d1; d2; d3] [i0; i1; i2; i3]) by exact Hidx.
  f_equal. f_equal. rewrite Hg.
  destruct fmt; cbn [spatial_ones spatial_origin broadcast_index zip_with].
  - cbn [List.length repeat app broadcast_index zip_with].
    change (1 =? 1) with true. cbn match.
    destruct (Z.eqb_spec d0 1), (Z.eqb_spec d3 1); repeat f_equal; lia.
  - cbn [List.length repeat app broadcast_index zip_with].
    change (1 =? 1) with true. cbn match.
    destruct (Z.eqb_spec d0 1), (Z.eqb_spec d1 1); repeat f_equal; lia.
Qed.

(** C6.  For a 4-D input on which [se_module] returns, the result is
    the input multiplied (a [Multiply] layer, elementwise with
    broadcasting) by a gate.  (d) The gate's first convolution has
    [make_divisible(filters * se_ratio, divisor)] channels.  (a) The
    gate's value is a function of the mean of the input over the two
    spatial axes alone.  (b) The gate's static shape has 1 x 1 spatial
    extent and the input's channels, so that one value per channel
    multiplies every spatial position.  (c) The gate is the output of a
    sigmoid and every element lies strictly between 0 and 1.  The
    output's static shape is the input's. *)
Theorem se_module_spec
    (fmt : data_format) (inputs : ktensor) (se_ratio : Q) (divisor : Z)
    (activation : pyname) (use_bias : bool) (name : pyname) (out : ktensor) :
  List.length (kshape fmt inputs) = 4%nat ->
  se_module fmt inputs se_ratio divisor activation use_bias name = Ok out ->
  exists (filters reduction : Z) (b h w : kdim) (hidden gate : ktensor),
    to_bhwc fmt (kshape fmt inputs) = Some (b, h, w, Some filters) /\
    py_index (kshape fmt inputs) (channel_axis fmt) = Ok (Some filters) /\
    make_divisible (inject_Z filters * se_ratio) divisor None = Ok reduction /\
    activation_by_name fmt
      (KLayer (Conv2D reduction (KInt 1) 1 "valid" use_bias 1 (name_and name "1_conv"))
         [KLayer (ReduceMean (spatial_axes fmt) true) [inputs]])
      activation name = Ok hidden /\
    gate = KLayer (Activation (keras_identifier "sigmoid")
                     (activation_layer_name name (Some "sigmoid")))
             [KLayer (Conv2D filters (KInt 1) 1 "valid" use_bias 1 (name_and name "2_conv"))
                [hidden]] /\
    out = KLayer (Multiply (name_and name "out")) [inputs; gate] /\
    kshape fmt gate = of_bhwc fmt b (Some 1) (Some 1) (Some filters) /\
    kshape fmt out = kshape fmt inputs /\
    forall fw : layer -> list tensor -> tensor,
      (exists G : tensor -> tensor,
          forall x, forward fw x gate = G (spatial_mean fmt (forward fw x inputs))) /\
      forall x : tensor,
        let v := forward fw x inputs in
        let g := forward fw x gate in
        forward fw x out = tensor_mul v g /\
        (forall idx, 0 < at_ g idx < 1)%R /\
        (List.length (shape v) = 4%nat ->
         shape g = spatial_ones fmt (shape v) ->
         forall idx, in_range (shape v) idx ->
                     at_ (forward fw x out) idx
                     = (at_ v idx * at_ g (spatial_origin fmt idx))%R).
Proof.
  intros Hlen Hrun. unfold se_module in Hrun.
  destruct (kshape fmt inputs) as [|d0 [|d1 [|d2 [|d3 [|? ?]]]]] eqn:Hs;
    try discriminate Hlen.
  assert (Hrun' :
    (filters <- py_index [d0; d1; d2; d3] (channel_axis fmt) ;;
     filters <- match filters with Some f => Ok f | None => Raise TypeError end ;;
     reduction <- make_divisible (inject_Z filters * se_ratio) divisor None ;;
     se <- activation_by_name fmt
             (KLayer (Conv2D reduction (KInt 1) 1 "valid" use_bias 1 (name_and name "1_conv"))
                [KLayer (ReduceMean (spatial_axes fmt) true) [inputs]]) activation name ;;
     se <- activation_by_name fmt
             (KLayer (Conv2D filters (KInt 1) 1 "valid" use_bias 1 (name_and name "2_conv"))
                [se]) (Some "sigmoid") name ;;
     Ok (KLayer (Multiply (name_and name "out")) [inputs; se])) = Ok out)
    by (destruct fmt; exact Hrun).
  clear Hrun.
  destruct (py_index [d0; d1; d2; d3] (channel_axis fmt)) as [[filters|]|] eqn:Hf;
    cbn [bind] in Hrun'; try discriminate.
  destruct (make_divisible (inject_Z filters * se_ratio) divisor None) as [reduction|] eqn:Hr;
    cbn [bind] in Hrun'; [|discriminate].
  match type of Hrun' with
  | bind ?a _ = _ => destruct a as [hidden|] eqn:Hh
  end; cbn [bind] in Hrun'; [|discriminate].
  rewrite activation_by_name_sigmoid in Hrun'. cbn [bind] in Hrun'.
  inversion Hrun'; subst out; clear Hrun'.
  pose proof (activation_by_name_chain _ _ _ _ _ Hh) as [_ Hks].
  assert (Hfd : to_bhwc fmt [d0; d1; d2; d3]
                = Some (d0, match fmt with channels_last => d1 | channels_first => d2 end,
                        match fmt with channels_last => d2 | channels_first => d3 end,
                        Some filters)).
  { destruct fmt; cbn in Hf |- *; inversion Hf; reflexivity. }
  exists filters, reduction, d0,
    (match fmt with channels_last => d1 | channels_first => d2 end),
    (match fmt with channels_last => d2 | channels_first => d3 end), hidden.
  eexists.
  split; [exact Hfd|]. split; [reflexivity|]. split; [exact Hr|].
  split; [exact Hh|]. split; [reflexivity|]. split; [reflexivity|].
  assert (Hg : kshape fmt
                 (KLayer (Activation (keras_identifier "sigmoid")
                            (activation_layer_name name (Some "sigmoid")))
                    [KLayer (Conv2D filters (KInt 1) 1 "valid" use_bias 1
                               (name_and name "2_conv")) [hidden]])
               = of_bhwc fmt d0 (Some 1) (Some 1) (Some filters)).
  { cbn [kshape map layer_output_shape hd]. rewrite Hks.
    cbn [kshape map layer_output_shape hd]. rewrite Hs.
    destruct fmt; reflexivity. }
  split; [exact Hg|]. split.
  { change (kshape fmt (KLayer (Multiply (name_and name "out")) [inputs; ?g]))
      with (broadcast_shape (kshape fmt inputs) (kshape fmt g)).
    rewrite Hg, Hs.
    destruct fmt; cbn in Hf; inversion Hf; subst;
      unfold broadcast_shape; cbn [List.length of_bhwc Nat.sub repeat app zip_with];
      now rewrite ?broadcast_dim_same, ?broadcast_dim_one. }
  intros fw. split.
  { destruct (activation_by_name_forward _ _ _ _ _ fw Hh) as [F HF].
    exists (fun m =>
              tensor_map sigmoid
                (fw (Conv2D filters (KInt 1) 1 "valid" use_bias 1 (name_and name "2_conv"))
                    [F (fw (Conv2D reduction (KInt 1) 1 "valid" use_bias 1
                              (name_and name "1_conv")) [m])])).
    intros x. rewrite <- forward_spatial_mean.
    cbn [forward map layer_fwd]. change (String.eqb "sigmoid" "sigmoid") with true.
    cbv iota. rewrite HF. reflexivity. }
  intros x v g. split; [reflexivity|]. split.
  { intros idx. subst g. cbn [forward map layer_fwd].
    change (String.eqb "sigmoid" "sigmoid") with true. cbv iota.
    unfold tensor_map. cbn [at_]. apply sigmoid_range. }
  intros Hv Hsg idx Hidx.
  change (forward fw x (KLayer (Multiply (name_and name "out")) [inputs; ?gg]))
    with (tensor_mul v g).
  now apply tensor_mul_gate.
Qed.

Lemma se_module_spec_witness :
  let inputs := KInput [None; Some 8; Some 8; Some 64] in
  exists out reduction,
    List.length (kshape channels_last inputs) = 4%nat /\
    se_module channels_last inputs (1 # 4) 8 (Some "relu") true (Some "se_") = Ok out /\
    make_divisible (inject_Z 64 * (1 # 4)) 8 None = Ok reduction /\
    kshape channels_last out = kshape channels_last inputs.
Proof.
  intros inputs. eexists.
  destruct (se_module_spec channels_last inputs (1 # 4) 8 (Some "relu") true (Some "se_") _
              eq_refl eq_refl)
    as (filters & reduction & b & h & w & hidden & gate & Hb & Hf & Hr & _ & _ & _ & _ & Hs & _).
  exists reduction. split; [reflexivity|]. split; [reflexivity|].
  inversion Hf; subst filters. split; [exact Hr | exact Hs].
Defined.

Example se_module_graph :
  se_module channels_last (KInput [None; Some 8; Some 8; Some 64]) (1 # 4) 8 (Some "relu") true
            (Some "se_")
  = Ok (KLayer (Multiply (Some "se_out"))
          [KInput [None; Some 8; Some 8; Some 64];
           KLayer (Activation (keras_identifier "sigmoid") (Some "se_sigmoid"))
             [KLayer (Conv2D 64 (KInt 1) 1 "valid" true 1 (Some "se_2_conv"))
                [KLayer (Activation (keras_identifier "relu") (Some "se_relu"))
                   [KLayer (Conv2D 16 (KInt 1) 1 "valid" true 1 (Some "se_1_conv"))
                      [KLayer (ReduceMean [1; 2] true)
                         [KInput [None; Some 8; Some 8; Some 64]]]]]]]).
Proof. reflexivity. Qed.

(* ================================================================== *)
(** * tpu_extract_patches_overlap_1 *)
(* ================================================================== *)

(** Decide the integer comparisons of the goal from the context. *)
Ltac zbool_step :=
  match goal with
  | |- context [?a <? ?b] =>
      first [ rewrite (proj2 (Z.ltb_lt a b)) by lia
            | rewrite (proj2 (Z.ltb_ge a b)) by lia ]
  | |- context [?a <=? ?b] =>
      first [ rewrite (proj2 (Z.leb_le a b)) by lia
            | rewrite (proj2 (Z.leb_gt a b)) by lia ]
  | |- context [?a =? ?b] =>
      first [ rewrite (proj2 (Z.eqb_eq a b)) by lia
            | rewrite (proj2 (Z.eqb_neq a b)) by lia ]
  end.

Ltac zbool := repeat (zbool_step; cbn [andb orb negb]).

Ltac index_eq := repeat (f_equal; try lia).

Local Opaque Z.mul Z.add Z.sub Z.div Z.modulo Z.opp Z.ltb Z.leb Z.eqb Z.max Z.min.

Lemma num_patches_cover (W : Z) :
  ((W + 2 - 1) / 2 - 1) * 2 + 1 <= W <= ((W + 2 - 1) / 2 - 1) * 2 + 2.
Proof.
  pose proof (Z.div_mod (W + 2 - 1) 2 ltac:(lia)).
  pose proof (Z.mod_pos_bound (W + 2 - 1) 2 ltac:(lia)). lia.
Qed.

Lemma patch_index_split (C : Z) (HC : 1 <= C) (d : Z) :
  0 <= d < 3 * 3 * C ->
  let kh := d / (3 * C) in
  let kw := d / C mod 3 in
  let c := d mod C in
  0 <= kh < 3 /\ 0 <= kw < 3 /\ 0 <= c < C /\ d = (kh * 3 + kw) * C + c.
Proof.
  intros Hd. cbv zeta.
  replace (d / (3 * C)) with (d / C / 3) by (rewrite Z.div_div by lia; f_equal; lia).
  pose proof (Z.div_mod d C ltac:(lia)) as H1.
  pose proof (Z.mod_pos_bound d C ltac:(lia)) as H2.
  pose proof (Z.div_mod (d / C) 3 ltac:(lia)) as H3.
  pose proof (Z.mod_pos_bound (d / C) 3 ltac:(lia)) as H4.
  assert (0 <= d / C < 9) by (split; [apply Z.div_pos; lia | apply Z.div_lt_upper_bound; lia]).
  repeat split; try lia; nia.
Qed.

Section TpuPatches.
Variables (x : tensor) (B W C : Z).
Hypothesis Hshape : shape x = [B; W; W; C].
Hypothesis HB : 0 <= B.
Hypothesis HW : 3 <= W.
Hypothesis HC : 1 <= C.

Let np := (W + 2 - 1) / 2 - 1.

Lemma num_patches_pos : 1 <= np.
Proof using HW. unfold np. pose proof (Z.div_mod (W + 2 - 1) 2 ltac:(lia)).
       pose proof (Z.mod_pos_bound (W + 2 - 1) 2 ltac:(lia)). lia. Qed.


(** The view of a [2 np x 2 np] region of the input as an
    [np x np] grid of [2 x 2] cells. *)
Lemma block_view (s1 s2 : pyslice) (r0 c0 : Z) :
  slice_start W s1 = r0 -> slice_len W s1 = np * 2 -> sl_step s1 = 1 ->
  slice_start W s2 = c0 -> slice_len W s2 = np * 2 -> sl_step s2 = 1 ->
  let t := tf_reshape (tf_slice x [slice_all; s1; s2; slice_all])
                      [-1; np; 2; np; 2; C] in
  shape t = [B; np; 2; np; 2; C] /\
  forall b i p j q c,
    in_range [B; np; 2; np; 2; C] [b; i; p; j; q; c] ->
    at_ t [b; i; p; j; q; c] = at_ x [b; r0 + (i * 2 + p); c0 + (j * 2 + q); c].
Proof using Hshape HB HW HC.
  intros Hr0 Hl1 Hst1 Hc0 Hl2 Hst2 t.
  pose proof num_patches_pos as Hnp.
  assert (Hss : shape (tf_slice x [slice_all; s1; s2; slice_all])
                = [B; np * 2; np * 2; C]).
  { unfold tf_slice. cbn [shape]. rewrite Hshape. cbn [zip_with].
    rewrite Hl1, Hl2, !slice_all_len by lia. reflexivity. }
  assert (Hrs : resolve_shape (numel [B; np * 2; np * 2; C]) [-1; np; 2; np; 2; C]
                = [B; np; 2; np; 2; C]).
  { rewrite resolve_shape_head.
    - f_equal. unfold numel. cbn [fold_right].
      replace (B * (np * 2 * (np * 2 * (C * 1))))
        with (B * (np * (2 * (np * (2 * (C * 1)))))) by ring.
      apply Z.div_mul. nia.
    - cbn [forallb]. zbool. reflexivity. }
  split.
  - unfold t, tf_reshape. cbn [shape]. rewrite Hss. exact Hrs.
  - intros b i p j q c Hin.
    repeat (apply in_range_cons in Hin; destruct Hin as [? Hin]).
    unfold t.
    erewrite (tf_reshape_at _ _ B b [np * 2; np * 2; C] [i * 2 + p; j * 2 + q; c]).
    + unfold tf_slice. cbn [at_]. rewrite Hshape. cbn [combine zip_with].
      rewrite Hr0, Hc0, Hst1, Hst2, !slice_all_start. cbn [sl_step slice_all].
      f_equal. index_eq.
    + exact Hss.
    + unfold in_range. cbn [in_rangeb]. zbool. reflexivity.
    + rewrite Hss, Hrs. unfold ravel. cbn [combine fold_left]. ring.
Qed.

Lemma slice_to_start (v : Z) : slice_start W (slice_to v) = 0.
Proof using Type. reflexivity. Qed.

Lemma slice_to_len (v : Z) : 1 <= v <= W -> slice_len W (slice_to v) = v.
Proof using HW.
  intros Hv. unfold slice_len, slice_start, slice_stop, slice_to, clamp_bound.
  cbn [sl_start sl_stop sl_step]. zbool. rewrite Z.div_1_r. lia.
Qed.

Lemma slice_range_start (a b : Z) : 0 <= a <= W -> slice_start W (slice_range a b) = a.
Proof using HW.
  intros Ha. unfold slice_start, slice_range, clamp_bound. cbn [sl_start]. zbool. lia.
Qed.

Lemma slice_range_len (a b : Z) :
  0 <= a -> a < b <= W -> slice_len W (slice_range a b) = b - a.
Proof using HW.
  intros Ha Hb. unfold slice_len, slice_start, slice_stop, slice_range, clamp_bound.
  cbn [sl_start sl_stop sl_step]. zbool. rewrite Z.div_1_r. lia.
Qed.

Let out6 (kernel_size strides : Z) : tensor :=
  let valid_ww := np * strides in
  let overlap_s := kernel_size - strides in
  let temp_shape := [-1; np; strides; np; strides; C] in
  let center :=
    tf_reshape (tf_slice x [slice_all; slice_to valid_ww; slice_to valid_ww; slice_all])
               temp_shape in
  let ww_overlap :=
    tf_reshape (tf_slice x [slice_all; slice_to valid_ww;
                            slice_range overlap_s (valid_ww + overlap_s); slice_all])
               temp_shape in
  let hh_overlap :=
    tf_reshape (tf_slice x [slice_all; slice_range overlap_s (valid_ww + overlap_s);
                            slice_to valid_ww; slice_all])
               temp_shape in
  let corner_overlap :=
    tf_reshape (tf_slice x [slice_all; slice_range overlap_s (valid_ww + overlap_s);
                            slice_range overlap_s (valid_ww + overlap_s); slice_all])
               temp_shape in
  let aa :=
    tf_concat2 center
      (tf_slice ww_overlap
         [slice_all; slice_all; slice_all; slice_all; slice_from (- overlap_s);
          slice_all]) 4 in
  let bb :=
    tf_concat2
      (tf_slice hh_overlap
         [slice_all; slice_all; slice_from (- overlap_s); slice_all; slice_all;
          slice_all])
      (tf_slice corner_overlap
         [slice_all; slice_all; slice_from (- overlap_s); slice_all;
          slice_from (- overlap_s); slice_all]) 4 in
  tf_transpose (tf_concat2 aa bb 2) [0; 1; 3; 2; 4; 5].

Lemma out6_spec :
  shape (out6 3 2) = [B; np; np; 3; 3; C] /\
  forall b i j kh kw c,
    in_range [B; np; np; 3; 3; C] [b; i; j; kh; kw; c] ->
    at_ (out6 3 2) [b; i; j; kh; kw; c] = at_ x [b; i * 2 + kh; j * 2 + kw; c].
Proof using Hshape HB HW HC.
  unfold out6. cbv zeta.
  pose proof num_patches_pos as Hnp. pose proof (num_patches_cover W) as HnpW; fold np in HnpW.
  destruct (block_view (slice_to (np * 2)) (slice_to (np * 2)) 0 0) as [Hs1 Ha1];
    try reflexivity; try (apply slice_to_len; lia).
  destruct (block_view (slice_to (np * 2)) (slice_range (3 - 2) (np * 2 + (3 - 2))) 0 1)
    as [Hs2 Ha2];
    try reflexivity; try (apply slice_to_len; lia);
    try (rewrite slice_range_start; lia); try (rewrite slice_range_len; lia).
  destruct (block_view (slice_range (3 - 2) (np * 2 + (3 - 2))) (slice_to (np * 2)) 1 0)
    as [Hs3 Ha3];
    try reflexivity; try (apply slice_to_len; lia);
    try (rewrite slice_range_start; lia); try (rewrite slice_range_len; lia).
  destruct (block_view (slice_range (3 - 2) (np * 2 + (3 - 2)))
              (slice_range (3 - 2) (np * 2 + (3 - 2))) 1 1) as [Hs4 Ha4];
    try reflexivity; try (apply slice_to_len; lia);
    try (rewrite slice_range_start; lia); try (rewrite slice_range_len; lia).
  cbv zeta in Hs1, Ha1, Hs2, Ha2, Hs3, Ha3, Hs4, Ha4.
  match type of Hs1 with shape ?t = _ => set (center := t) in * end.
  match type of Hs2 with shape ?t = _ => set (ww_overlap := t) in * end.
  match type of Hs3 with shape ?t = _ => set (hh_overlap := t) in * end.
  match type of Hs4 with shape ?t = _ => set (corner_overlap := t) in * end.
  clearbody center ww_overlap hh_overlap corner_overlap.
  destruct slice_last_of_2 as [Hl2 Hst2].
  assert (Hsaa : shape (tf_concat2 center
                          (tf_slice ww_overlap
                             [slice_all; slice_all; slice_all; slice_all;
                              slice_from (- (3 - 2)); slice_all]) 4)
                 = [B; np; 2; np; 3; C]).
  { rewrite tf_concat2_shape by lia. rewrite tf_slice_shape, Hs1, Hs2.
    change (Z.to_nat 4) with 4%nat; cbn [nth list_update zip_with].
    rewrite Hl2. reflexivity. }
  assert (Hsbb : shape (tf_concat2
                          (tf_slice hh_overlap
                             [slice_all; slice_all; slice_from (- (3 - 2)); slice_all;
                              slice_all; slice_all])
                          (tf_slice corner_overlap
                             [slice_all; slice_all; slice_from (- (3 - 2)); slice_all;
                              slice_from (- (3 - 2)); slice_all]) 4)
                 = [B; np; 1; np; 3; C]).
  { rewrite tf_concat2_shape by lia. rewrite !tf_slice_shape, Hs3, Hs4.
    change (Z.to_nat 4) with 4%nat; cbn [nth list_update zip_with].
    rewrite Hl2, !slice_all_len by lia. reflexivity. }
  split.
  - erewrite tf_transpose_swap23_shape; [reflexivity|].
    rewrite tf_concat2_shape by lia. rewrite Hsaa, Hsbb.
    change (Z.to_nat 2) with 2%nat; cbn [nth list_update]. reflexivity.
  - intros b i j kh kw c Hin.
    repeat (apply in_range_cons in Hin; destruct Hin as [? Hin]).
    rewrite tf_transpose_swap23_at.
    rewrite tf_concat2_at by lia. rewrite Hsaa.
    change (Z.to_nat 2) with 2%nat; cbn [nth list_update].
    rewrite !tf_concat2_at by lia. rewrite Hs1, tf_slice_shape, Hs3.
    change (Z.to_nat 4) with 4%nat; cbn [nth list_update zip_with].
    rewrite !tf_slice_at, Hs2, Hs3, Hs4. cbn [combine zip_with].
    rewrite Hst2, !slice_all_start, !slice_all_len by lia.
    cbn [sl_step slice_all slice_from].
    rewrite ?Z.mul_1_r, ?Z.add_0_l.
    assert (Hr : forall p q, 0 <= p < 2 -> 0 <= q < 2 ->
                             in_range [B; np; 2; np; 2; C] [b; i; p; j; q; c]).
    { intros p q Hp Hq. unfold in_range. cbn [in_rangeb]. zbool. reflexivity. }
    destruct (Z.ltb_spec kh 2); destruct (Z.ltb_spec kw 2).
    + rewrite Ha1 by (apply Hr; lia). f_equal; index_eq.
    + rewrite Ha2 by (apply Hr; lia). f_equal; index_eq.
    + rewrite Ha3 by (apply Hr; lia). f_equal; index_eq.
    + rewrite Ha4 by (apply Hr; lia). f_equal; index_eq.
Qed.

(** The patch tensor the function returns when its [sizes] denote a
    kernel of 3, its [strides] a stride of 2, and no padding is
    added. *)
Lemma tpu_no_pad (sizes strides rates : int_or_seq) (padding : string) :
  second_if_seq sizes = Ok 3 -> second_if_seq strides = Ok 2 ->
  String.eqb (str_upper padding) "SAME" = false ->
  tpu_extract_patches_overlap_1 x sizes strides rates padding
  = Ok (tf_reshape (out6 3 2) [-1; np; np; 3 * 3 * C]).
Proof using Hshape.
  intros Hk Hs Hp. unfold tpu_extract_patches_overlap_1.
  rewrite Hk, Hs. cbn [bind]. rewrite Hp, Hshape.
  assert (H4 : py_truediv (inject_Z W) (inject_Z 2) = Ok (inject_Z W / inject_Z 2)%Q)
    by reflexivity.
  rewrite H4. cbn [bind]. rewrite py_ceil_quotient by lia. reflexivity.
Qed.


Lemma tpu_patches_at (b i j d : Z) :
  in_range [B; np; np; 3 * 3 * C] [b; i; j; d] ->
  at_ (tf_reshape (out6 3 2) [-1; np; np; 3 * 3 * C]) [b; i; j; d]
  = at_ x [b; i * 2 + d / (3 * C); j * 2 + d / C mod 3; d mod C].
Proof using Hshape HB HW HC.
  intros Hin. pose proof num_patches_pos as Hnp. pose proof (num_patches_cover W) as HnpW; fold np in HnpW.
  repeat (apply in_range_cons in Hin; destruct Hin as [? Hin]).
  destruct out6_spec as [Hs6 Ha6].
  destruct (patch_index_split C HC d ltac:(assumption)) as (Hkh & Hkw & Hc & Hd).
  erewrite (tf_reshape_at _ _ B b [np; np; 3; 3; C]
              [i; j; d / (3 * C); d / C mod 3; d mod C]).
  - apply Ha6. unfold in_range. cbn [in_rangeb]. zbool. reflexivity.
  - exact Hs6.
  - unfold in_range. cbn [in_rangeb]. zbool. reflexivity.
  - rewrite Hs6. rewrite resolve_shape_head by (cbn [forallb]; zbool; reflexivity).
    unfold ravel. cbn [combine fold_left].
    rewrite Hd at 1. ring.
Qed.

Lemma tpu_patches_shape :
  shape (tf_reshape (out6 3 2) [-1; np; np; 3 * 3 * C]) = [B; np; np; 3 * 3 * C].
Proof using Hshape HB HW HC.
  pose proof num_patches_pos as Hnp. destruct out6_spec as [Hs6 _].
  unfold tf_reshape. cbn [shape]. rewrite Hs6.
  rewrite resolve_shape_head by (cbn [forallb]; zbool; reflexivity).
  f_equal. unfold numel. cbn [fold_right].
  replace (B * (np * (np * (3 * (3 * (C * 1)))))) with (B * (np * (np * (3 * 3 * C * 1))))
    by ring.
  apply Z.div_mul. nia.
Qed.
End TpuPatches.

(** ** Modelled [tf.image.extract_patches] without padding *)

Lemma patches_out_size_valid (n : Z) :
  3 <= n -> patches_out_size n 3 2 "VALID" = (n + 2 - 1) / 2 - 1.
Proof.
  intros Hn. unfold patches_out_size. rewrite upper_VALID_not_SAME.
  pose proof (Z.div_mod (n + 2 - 1) 2 ltac:(lia)).
  pose proof (Z.mod_pos_bound (n + 2 - 1) 2 ltac:(lia)).
  pose proof (Z.div_mod (n - 3 + 2) 2 ltac:(lia)).
  pose proof (Z.mod_pos_bound (n - 3 + 2) 2 ltac:(lia)). lia.
Qed.

Lemma extract_patches_valid_shape (x : tensor) (B H W C : Z) :
  shape x = [B; H; W; C] -> 3 <= H -> 3 <= W ->
  shape (tf_image_extract_patches x [1; 3; 3; 1] [1; 2; 2; 1] [1; 1; 1; 1] "VALID")
  = [B; (H + 2 - 1) / 2 - 1; (W + 2 - 1) / 2 - 1; 3 * 3 * C].
Proof.
  intros Hs HH HW. unfold tf_image_extract_patches. rewrite Hs. cbn [shape nth].
  now rewrite !patches_out_size_valid by lia.
Qed.

Lemma extract_patches_valid_at (x : tensor) (B H W C b i j d : Z) :
  shape x = [B; H; W; C] -> 3 <= H -> 3 <= W -> 1 <= C ->
  in_range [B; (H + 2 - 1) / 2 - 1; (W + 2 - 1) / 2 - 1; 3 * 3 * C] [b; i; j; d] ->
  at_ (tf_image_extract_patches x [1; 3; 3; 1] [1; 2; 2; 1] [1; 1; 1; 1] "VALID")
      [b; i; j; d]
  = at_ x [b; i * 2 + d / (3 * C); j * 2 + d / C mod 3; d mod C].
Proof.
  intros Hs HH HW HC Hin.
  pose proof (num_patches_cover H) as HcH. pose proof (num_patches_cover W) as HcW.
  repeat (apply in_range_cons in Hin; destruct Hin as [? Hin]).
  destruct (patch_index_split C HC d ltac:(assumption)) as (Hkh & Hkw & Hc & Hd).
  unfold tf_image_extract_patches. rewrite Hs. cbn [at_ nth].
  unfold patches_pad_before. rewrite upper_VALID_not_SAME.
  rewrite !Z.sub_0_r. unfold in_range. cbn [in_rangeb]. zbool. reflexivity.
Qed.

(** The function on an unpadded square input, as [UnfoldMatmulFold]
    calls it. *)
Lemma tpu_valid_square (x : tensor) (B W C : Z) :
  shape x = [B; W; W; C] -> 0 <= B -> 3 <= W -> 1 <= C ->
  exists t,
    tpu_extract_patches_overlap_1 x (KSeq [1; 3; 3; 1]) (KSeq [1; 2; 2; 1])
      (KSeq [1; 1; 1; 1]) "VALID" = Ok t /\
    tensor_eq t (tf_image_extract_patches x [1; 3; 3; 1] [1; 2; 2; 1] [1; 1; 1; 1] "VALID").
Proof.
  intros Hs HB HW HC. eexists. split.
  - apply (tpu_no_pad x B W C Hs); [apply second_of_patch_args .. | apply upper_VALID_not_SAME].
  - split.
    + rewrite (tpu_patches_shape x B W C Hs HB HW HC).
      now rewrite (extract_patches_valid_shape x B W W C Hs HW HW).
    + intros idx Hin. rewrite (tpu_patches_shape x B W C Hs HB HW HC) in Hin.
      destruct (in_range_4 _ _ _ _ _ Hin) as (b & i & j & d & -> & _).
      rewrite (tpu_patches_at x B W C Hs HB HW HC) by exact Hin.
      now rewrite (extract_patches_valid_at x B W W C) by assumption.
Qed.

Lemma tf_pad_hw_shape (x : tensor) (B W C : Z) :
  shape x = [B; W; W; C] ->
  shape (tf_pad x [(0, 0); (1, 1); (1, 1); (0, 0)]) = [0 + B + 0; 1 + W + 1; 1 + W + 1; 0 + C + 0].
Proof. intros Hs. unfold tf_pad. cbn [shape]. rewrite Hs. reflexivity. Qed.

(** With SAME padding the function pads by [kernel_size // 2] on every
    side and extracts without further padding. *)
Lemma tpu_same_square (x : tensor) (B W C : Z) :
  shape x = [B; W; W; C] -> 0 <= B -> 1 <= W -> 1 <= C ->
  exists t,
    tpu_extract_patches_overlap_1 x (KInt 3) (KInt 2) (KInt 1) "SAME" = Ok t /\
    tensor_eq t
      (tf_image_extract_patches (tf_pad x [(0, 0); (1, 1); (1, 1); (0, 0)])
         [1; 3; 3; 1] [1; 2; 2; 1] [1; 1; 1; 1] "VALID").
Proof.
  intros Hs HB HW HC. rewrite (tpu_same_is_padded x (KInt 1) (KSeq [1; 1; 1; 1])).
  apply (tpu_valid_square _ (0 + B + 0) (1 + W + 1) (0 + C + 0)); try lia.
  now apply tf_pad_hw_shape.
Qed.

(** On an odd-sized image that symmetric padding is the SAME padding of
    the framework routine. *)
Lemma extract_patches_same_odd (x : tensor) (B W C : Z) :
  shape x = [B; W; W; C] -> 0 <= B -> 1 <= W -> 1 <= C -> Z.odd W = true ->
  tensor_eq
    (tf_image_extract_patches (tf_pad x [(0, 0); (1, 1); (1, 1); (0, 0)])
       [1; 3; 3; 1] [1; 2; 2; 1] [1; 1; 1; 1] "VALID")
    (tf_image_extract_patches x [1; 3; 3; 1] [1; 2; 2; 1] [1; 1; 1; 1] "SAME").
Proof.
  intros Hs HB HW HC Hodd.
  apply Z.odd_spec in Hodd. destruct Hodd as [m Hm].
  pose proof (tf_pad_hw_shape x B W C Hs) as Hps.
  assert (Hout : patches_out_size W 3 2 "SAME" = (1 + W + 1 + 2 - 1) / 2 - 1).
  { unfold patches_out_size. rewrite upper_SAME_is_SAME.
    replace (W + 2 - 1) with (2 + m * 2) by lia.
    replace (1 + W + 1 + 2 - 1) with (4 + m * 2) by lia.
    rewrite !Z.div_add by lia.
    change (2 / 2) with 1. change (4 / 2) with 2. lia. }
  assert (Hpad : patches_pad_before W 3 2 "SAME" = 1).
  { unfold patches_pad_before. rewrite upper_SAME_is_SAME, Hout.
    replace (1 + W + 1 + 2 - 1) with (4 + m * 2) by lia.
    rewrite Z.div_add by lia. change (4 / 2) with 2.
    replace (Z.max ((2 + m - 1 - 1) * 2 + 3 - W) 0) with 2 by lia.
    reflexivity. }
  split.
  - rewrite (extract_patches_valid_shape _ _ _ _ _ Hps) by lia.
    unfold tf_image_extract_patches. rewrite Hs. cbn [shape nth].
    rewrite Hout. index_eq.
  - intros idx Hin.
    rewrite (extract_patches_valid_shape _ _ _ _ _ Hps) in Hin by lia.
    destruct (in_range_4 _ _ _ _ _ Hin) as (b & i & j & d & -> & Hb & Hi & Hj & Hd).
    rewrite (extract_patches_valid_at _ _ _ _ _ _ _ _ _ Hps) by (try lia; exact Hin).
    pose proof (num_patches_cover (1 + W + 1)) as Hcov.
    destruct (patch_index_split C HC d ltac:(lia)) as (Hkh & Hkw & Hc & Hde).
    replace (d / (3 * (0 + C + 0))) with (d / (3 * C)) by (f_equal; lia).
    replace (d / (0 + C + 0)) with (d / C) by (f_equal; lia).
    replace (d mod (0 + C + 0)) with (d mod C) by (f_equal; lia).
    unfold tf_image_extract_patches at 1. rewrite Hs. cbn [at_ nth].
    rewrite Hpad. unfold tf_pad. cbn [at_ zip_with]. rewrite Hs.
    rewrite !Z.sub_0_r. reflexivity.
Qed.

Local Transparent Z.mul Z.add Z.sub Z.div Z.modulo Z.opp Z.ltb Z.leb Z.eqb Z.max Z.min.

(** C2 (as amended).  On a square 4-D input, with kernel size 3,
    strides 2 and rate 1: called as [UnfoldMatmulFold] calls it (VALID
    padding, on the input it has padded itself),
    [tpu_extract_patches_overlap_1] returns the patch tensor of
    [tf.image.extract_patches] with the same arguments; called with
    SAME padding it returns the patches of the input zero-padded by 1
    on every spatial side, which is the patch tensor of
    [tf.image.extract_patches] with SAME padding when the height and
    width are odd. *)
Theorem tpu_extract_patches_overlap_1_spec (x : tensor) (B W C : Z) :
  shape x = [B; W; W; C] -> 0 <= B -> 1 <= C ->
  (3 <= W ->
   exists t,
     tpu_extract_patches_overlap_1 x (KSeq [1; 3; 3; 1]) (KSeq [1; 2; 2; 1])
       (KSeq [1; 1; 1; 1]) "VALID" = Ok t /\
     tensor_eq t
       (tf_image_extract_patches x [1; 3; 3; 1] [1; 2; 2; 1] [1; 1; 1; 1] "VALID")) /\
  (1 <= W ->
   exists t,
     tpu_extract_patches_overlap_1 x (KInt 3) (KInt 2) (KInt 1) "SAME" = Ok t /\
     tensor_eq t
       (tf_image_extract_patches (tf_pad x [(0, 0); (1, 1); (1, 1); (0, 0)])
          [1; 3; 3; 1] [1; 2; 2; 1] [1; 1; 1; 1] "VALID") /\
     (Z.odd W = true ->
      tensor_eq t
        (tf_image_extract_patches x [1; 3; 3; 1] [1; 2; 2; 1] [1; 1; 1; 1] "SAME"))).
Proof.
  intros Hs HB HC. split.
  - intros HW. now apply (tpu_valid_square x B W C).
  - intros HW. destruct (tpu_same_square x B W C Hs HB HW HC) as (t & Ht & Heq).
    exists t. split; [exact Ht|]. split; [exact Heq|].
    intros Hodd. eapply tensor_eq_trans; [exact Heq|].
    now apply (extract_patches_same_odd x B W C).
Qed.

Lemma tpu_extract_patches_overlap_1_spec_witness :
  exists t,
    tpu_extract_patches_overlap_1 (ramp_image 3) (KInt 3) (KInt 2) (KInt 1) "SAME" = Ok t /\
    tensor_eq t
      (tf_image_extract_patches (ramp_image 3) [1; 3; 3; 1] [1; 2; 2; 1] [1; 1; 1; 1] "SAME").
Proof.
  destruct (proj2 (tpu_extract_patches_overlap_1_spec (ramp_image 3) 1 3 1
                     eq_refl ltac:(lia) ltac:(lia)) ltac:(lia)) as (t & Ht & _ & Hsame).
  exists t. split; [exact Ht|]. apply Hsame. reflexivity.
Defined.

(** On an even-sized image the two differ: for the 2 x 2 image
    [[1, 2], [3, 4]] the single patch starts with the padding row in
    the function's result and with pixel 1 in the framework's. *)
Lemma tpu_same_even_counterexample :
  exists t,
    tpu_extract_patches_overlap_1 (ramp_image 2) (KInt 3) (KInt 2) (KInt 1) "SAME" = Ok t /\
    shape t = [1; 1; 1; 9] /\
    shape (tf_image_extract_patches (ramp_image 2) [1; 3; 3; 1] [1; 2; 2; 1] [1; 1; 1; 1]
             "SAME") = [1; 1; 1; 9] /\
    at_ t [0; 0; 0; 0] = 0%R /\
    at_ (tf_image_extract_patches (ramp_image 2) [1; 3; 3; 1] [1; 2; 2; 1] [1; 1; 1; 1]
           "SAME") [0; 0; 0; 0] = 1%R /\
    ~ tensor_eq t
        (tf_image_extract_patches (ramp_image 2) [1; 3; 3; 1] [1; 2; 2; 1] [1; 1; 1; 1]
           "SAME").
Proof.
  eexists. split; [reflexivity|].
  split; [reflexivity|]. split; [reflexivity|].
  split; [reflexivity|]. split; [reflexivity|].
  intros [_ He]. specialize (He [0; 0; 0; 0] eq_refl).
  change (0%R = 1%R) in He. lra.
Qed.

(* ================================================================== *)
(** * UnfoldMatmulFold with kernel_size = 3, strides = 2, padding = 1 *)
(* ================================================================== *)

Lemma int_ceil_div_2 (n : Z) : int_ceil_div n 2 = Ok ((n + 2 - 1) / 2).
Proof.
  unfold int_ceil_div.
  assert (H : py_truediv (inject_Z n) (inject_Z 2) = Ok (inject_Z n / inject_Z 2)%Q)
    by reflexivity.
  rewrite H. cbn [bind]. now rewrite py_ceil_quotient by lia.
Qed.

Lemma UnfoldMatmulFold_init_3_1_2 (env : keras_env) (H W C : Z) :
  UnfoldMatmulFold_init env (H, W, C) 3 1 2
  = Ok (umf_3_1_2
          (if on_tpu env then
             fun images sizes strides rates padding =>
               tpu_extract_patches_overlap_1 images (KSeq sizes) (KSeq strides)
                 (KSeq rates) padding
           else
             fun images sizes strides rates padding =>
               Ok (tf_image_extract_patches images sizes strides rates padding))
          H W C).
Proof.
  unfold UnfoldMatmulFold_init. rewrite !int_ceil_div_2. reflexivity.
Qed.

Ltac zlia := Z.div_mod_to_equations; lia.

(** ** Windows covering a position *)

Lemma fold_hit_true (n sh r : Z) :
  fold_hit n sh r = true <->
  0 <= r - 2 * sh /\ (r - 2 * sh) mod 4 < 3 /\ 2 * ((r - 2 * sh) / 4) + sh < n.
Proof.
  unfold fold_hit. cbv zeta. rewrite !andb_true_iff, Z.leb_le, !Z.ltb_lt. tauto.
Qed.

Lemma window_covers_true (i r : Z) :
  window_covers i r = true <-> 2 * i <= r <= 2 * i + 2.
Proof. unfold window_covers. rewrite andb_true_iff, !Z.leb_le. tauto. Qed.

Ltac bool_to_prop H :=
  match type of H with
  | fold_hit _ _ _ = true => apply fold_hit_true in H
  | fold_hit _ _ _ = false => apply (bool_false_iff _ _ (fold_hit_true _ _ _)) in H
  | window_covers _ _ = true => apply window_covers_true in H
  | window_covers _ _ = false => apply (bool_false_iff _ _ (window_covers_true _ _)) in H
  | in_rangeb [_; _; _; _] [_; _; _; _] = true => apply in_rangeb_4 in H
  | in_rangeb [_; _; _; _] [_; _; _; _] = false =>
      apply (bool_false_iff _ _ (in_rangeb_4 _ _ _ _ _ _ _ _)) in H
  | in_rangeb [_; _; _; _; _; _] [_; _; _; _; _; _] = true => apply in_rangeb_6 in H
  | in_rangeb [_; _; _; _; _; _] [_; _; _; _; _; _] = false =>
      apply (bool_false_iff _ _ (in_rangeb_6 _ _ _ _ _ _ _ _ _ _ _ _)) in H
  end.

(** Along one axis, the windows covering [r] are counted by the two
    parities. *)
Lemma covering_count_axis (n r : Z) :
  0 <= n ->
  Z.of_nat (List.length (filter (fun i => window_covers i r) (py_range 0 n)))
  = Z.b2z (fold_hit n 0 r) + Z.b2z (fold_hit n 1 r).
Proof.
  intros Hn. pattern n. apply natlike_ind; [| | exact Hn]; clear n Hn.
  - simpl. destruct (fold_hit 0 0 r) eqn:H0; destruct (fold_hit 0 1 r) eqn:H1;
      try bool_to_prop H0; try bool_to_prop H1; simpl; try reflexivity; exfalso; zlia.
  - intros n Hn IH. unfold Z.succ. rewrite py_range_succ by exact Hn.
    rewrite filter_app, length_app, Nat2Z.inj_add, IH. cbn [filter].
    destruct (window_covers n r) eqn:Hc;
      destruct (fold_hit n 0 r) eqn:H0; destruct (fold_hit n 1 r) eqn:H1;
      destruct (fold_hit (n + 1) 0 r) eqn:H0'; destruct (fold_hit (n + 1) 1 r) eqn:H1';
      bool_to_prop Hc; bool_to_prop H0; bool_to_prop H1; bool_to_prop H0'; bool_to_prop H1';
      cbn [List.length Z.b2z Z.of_nat]; try reflexivity; exfalso; zlia.
Qed.

Lemma covering_windows_product (hh ww r s : Z) :
  0 <= hh -> 0 <= ww ->
  covering_windows hh ww r s
  = (Z.b2z (fold_hit hh 0 r) + Z.b2z (fold_hit hh 1 r))
    * (Z.b2z (fold_hit ww 0 s) + Z.b2z (fold_hit ww 1 s)).
Proof.
  intros Hh Hw. unfold covering_windows.
  rewrite (filter_prod_length (fun i => window_covers i r) (fun j => window_covers j s)).
  rewrite Nat2Z.inj_mul. now rewrite !covering_count_axis.
Qed.

Local Opaque Z.mul Z.add Z.sub Z.div Z.modulo Z.opp Z.ltb Z.leb Z.eqb Z.max Z.min.

(** ** The matmul step: shapes *)

Lemma matmul_step_shape (patches attn : tensor) (B hh ww nh P : Z) :
  shape patches = [B; hh; ww; 3 * 3 * (nh * P)] ->
  shape attn = [B; hh; ww; nh; 3 * 3; 3 * 3] ->
  1 <= hh -> 1 <= ww -> 1 <= nh -> 1 <= P ->
  shape (tf_reshape
           (tf_transpose
              (tf_matmul attn
                 (tf_transpose (tf_reshape patches [-1; hh; ww; 3 * 3; nh; P])
                    [0; 1; 2; 4; 3; 5]))
              [0; 1; 2; 4; 3; 5])
           [-1; hh; ww; 3; 3; nh * P])
  = [B; hh; ww; 3; 3; nh * P].
Proof.
  intros Hps Has Hhh Hww Hnh HP.
  set (r1 := tf_reshape patches _).
  assert (Hr1s : shape r1 = [B; hh; ww; 3 * 3; nh; P]).
  { unfold r1, tf_reshape. cbn [shape]. rewrite Hps.
    rewrite resolve_shape_head by (cbn [forallb]; zbool; reflexivity).
    f_equal. unfold numel. cbn [fold_right].
    replace (B * (hh * (ww * (3 * 3 * (nh * P) * 1))))
      with (B * (hh * (ww * (3 * 3 * (nh * (P * 1)))))) by ring.
    apply Z.div_mul. nia. }
  clearbody r1.
  set (t1 := tf_transpose r1 _).
  assert (Ht1s : shape t1 = [B; hh; ww; nh; 3 * 3; P])
    by (apply (tf_transpose_swap34_shape r1 _ _ _ _ _ _ Hr1s)).
  set (m := tf_matmul attn t1).
  assert (Hms : shape m = [B; hh; ww; nh; 3 * 3; P]).
  { unfold m, tf_matmul. cbn [shape]. rewrite Has, Ht1s. reflexivity. }
  clearbody m.
  set (t2 := tf_transpose m _).
  assert (Ht2s : shape t2 = [B; hh; ww; 3 * 3; nh; P])
    by (apply (tf_transpose_swap34_shape m _ _ _ _ _ _ Hms)).
  unfold tf_reshape. cbn [shape]. rewrite Ht2s.
  rewrite resolve_shape_head by (cbn [forallb]; zbool; reflexivity).
  f_equal. unfold numel. cbn [fold_right].
  replace (B * (hh * (ww * (3 * 3 * (nh * (P * 1))))))
    with (B * (hh * (ww * (3 * (3 * (nh * P * 1)))))) by ring.
  apply Z.div_mul. nia.
Qed.

(** ** The matmul step under identity attention *)

Section MatmulIdentity.
Variables (patches attn : tensor) (B hh ww nh P : Z).
Hypothesis Hps : shape patches = [B; hh; ww; 3 * 3 * (nh * P)].
Hypothesis Has : shape attn = [B; hh; ww; nh; 3 * 3; 3 * 3].
Hypothesis Hid : identity_attention attn.
Hypothesis HB : 0 <= B.
Hypothesis Hhh : 1 <= hh.
Hypothesis Hww : 1 <= ww.
Hypothesis Hnh : 1 <= nh.
Hypothesis HP : 1 <= P.

Let mm6 : tensor :=
  let mm := tf_reshape patches [-1; hh; ww; 3 * 3; nh; P] in
  let mm := tf_transpose mm [0; 1; 2; 4; 3; 5] in
  let mm := tf_matmul attn mm in
  let mm := tf_transpose mm [0; 1; 2; 4; 3; 5] in
  tf_reshape mm [-1; hh; ww; 3; 3; nh * P].

Lemma matmul_identity_spec :
  shape mm6 = [B; hh; ww; 3; 3; nh * P] /\
  forall b i j kh kw c,
    in_range [B; hh; ww; 3; 3; nh * P] [b; i; j; kh; kw; c] ->
    at_ mm6 [b; i; j; kh; kw; c] = at_ patches [b; i; j; (kh * 3 + kw) * (nh * P) + c].
Proof using Hps Has Hid HB Hhh Hww Hnh HP.
  unfold mm6. cbv zeta.
  set (r1 := tf_reshape patches _).
  assert (Hr1s : shape r1 = [B; hh; ww; 3 * 3; nh; P]).
  { unfold r1, tf_reshape. cbn [shape]. rewrite Hps.
    rewrite resolve_shape_head by (cbn [forallb]; zbool; reflexivity).
    f_equal. unfold numel. cbn [fold_right].
    replace (B * (hh * (ww * (3 * 3 * (nh * P) * 1))))
      with (B * (hh * (ww * (3 * 3 * (nh * (P * 1)))))) by ring.
    apply Z.div_mul. nia. }
  assert (Hr1a : forall b i j k h p,
             in_range [B; hh; ww; 3 * 3; nh; P] [b; i; j; k; h; p] ->
             at_ r1 [b; i; j; k; h; p] = at_ patches [b; i; j; (k * nh + h) * P + p]).
  { intros b i j k h p Hin.
    repeat (apply in_range_cons in Hin; destruct Hin as [? Hin]).
    unfold r1.
    erewrite (tf_reshape_at _ _ B b [hh; ww; 3 * 3 * (nh * P)]
                [i; j; (k * nh + h) * P + p]).
    - reflexivity.
    - exact Hps.
    - unfold in_range. cbn [in_rangeb].
      assert (0 <= (k * nh + h) * P + p < 3 * 3 * (nh * P)) by nia.
      zbool. reflexivity.
    - rewrite Hps. rewrite resolve_shape_head by (cbn [forallb]; zbool; reflexivity).
      unfold ravel. cbn [combine fold_left]. ring. }
  clearbody r1.
  set (t1 := tf_transpose r1 _).
  assert (Ht1s : shape t1 = [B; hh; ww; nh; 3 * 3; P])
    by (apply (tf_transpose_swap34_shape r1 _ _ _ _ _ _ Hr1s)).
  set (m := tf_matmul attn t1).
  assert (Hms : shape m = [B; hh; ww; nh; 3 * 3; P]).
  { unfold m, tf_matmul. cbn [shape]. rewrite Has, Ht1s. reflexivity. }
  assert (Hma : forall b i j h k p,
             in_range [B; hh; ww; nh; 3 * 3; P] [b; i; j; h; k; p] ->
             at_ m [b; i; j; h; k; p] = at_ patches [b; i; j; (k * nh + h) * P + p]).
  { intros b i j h k p Hin.
    repeat (apply in_range_cons in Hin; destruct Hin as [? Hin]).
    unfold m, tf_matmul. cbn [at_]. rewrite Has. cbn [List.length Nat.sub firstn nth app].
    rewrite (Rsum_ext _ _ (fun l => ((if k =? l then 1 else 0)
                                     * at_ patches [b; i; j; ((l * nh + h) * P + p)%Z])%R)).
    - rewrite Rsum_delta by lia. reflexivity.
    - intros l Hl. rewrite Hid.
      + f_equal. unfold t1. rewrite tf_transpose_swap34_at. apply Hr1a.
        unfold in_range. cbn [in_rangeb]. zbool. reflexivity.
      + rewrite Has. unfold in_range. cbn [in_rangeb]. zbool. reflexivity. }
  clearbody m. clear Ht1s. clearbody t1.
  set (t2 := tf_transpose m _).
  assert (Ht2s : shape t2 = [B; hh; ww; 3 * 3; nh; P])
    by (apply (tf_transpose_swap34_shape m _ _ _ _ _ _ Hms)).
  split.
  - unfold tf_reshape. cbn [shape]. rewrite Ht2s.
    rewrite resolve_shape_head by (cbn [forallb]; zbool; reflexivity).
    f_equal. unfold numel. cbn [fold_right].
    replace (B * (hh * (ww * (3 * 3 * (nh * (P * 1))))))
      with (B * (hh * (ww * (3 * (3 * (nh * P * 1)))))) by ring.
    apply Z.div_mul. nia.
  - intros b i j kh kw c Hin.
    repeat (apply in_range_cons in Hin; destruct Hin as [? Hin]).
    pose proof (Z.div_mod c P ltac:(lia)) as Hc1.
    pose proof (Z.mod_pos_bound c P ltac:(lia)) as Hc2.
    assert (Hc3 : 0 <= c / P < nh).
    { split; [apply Z.div_pos; lia | apply Z.div_lt_upper_bound; nia]. }
    erewrite (tf_reshape_at _ _ B b [hh; ww; 3 * 3; nh; P]
                [i; j; kh * 3 + kw; c / P; c mod P]).
    + unfold t2. rewrite tf_transpose_swap34_at. rewrite Hma.
      * f_equal. repeat (f_equal; try nia).
      * unfold in_range. cbn [in_rangeb]. zbool. reflexivity.
    + exact Ht2s.
    + unfold in_range. cbn [in_rangeb]. zbool. reflexivity.
    + rewrite Ht2s. rewrite resolve_shape_head by (cbn [forallb]; zbool; reflexivity).
      unfold ravel. cbn [combine fold_left]. nia.
Qed.
End MatmulIdentity.

(** ** The fold step *)

Lemma slice_stride2 (n sh : Z) :
  0 <= sh <= 1 -> 2 <= n -> n mod 2 = 0 ->
  slice_len n (Slice (Some sh) None 2) = n / 2 /\
  slice_start n (Slice (Some sh) None 2) = sh.
Proof.
  intros Hsh Hn Hev.
  unfold slice_len, slice_start, slice_stop, clamp_bound. cbn [sl_start sl_stop sl_step].
  zbool. split; zlia.
Qed.

Lemma slice_range_1 (n len : Z) :
  0 <= len -> 1 + len <= n ->
  slice_len n (slice_range 1 (1 + len)) = len /\ slice_start n (slice_range 1 (1 + len)) = 1.
Proof.
  intros Hl Hn.
  unfold slice_len, slice_start, slice_stop, slice_range, clamp_bound.
  cbn [sl_start sl_stop sl_step]. zbool.
  destruct (Z.ltb_spec (Z.min n (Z.max 0 1)) (Z.min n (Z.max 0 (1 + len)))); split; zlia.
Qed.

Section Fold.
Variables (self : UnfoldMatmulFold) (mm6 vv : tensor) (B H W C hp wp eh ew : Z).
Hypothesis Hstr : umf_strides self = 2.
Hypothesis Hfp :
  umf_fold_overlap_pad self = [(0, 0); (0, eh); (0, ew); (0, 1); (0, 1); (0, 0)].
Hypothesis Hstart : umf_out_start_h self = 1 /\ umf_out_start_w self = 1.
Hypothesis Hend : umf_out_end_h self = 1 + H /\ umf_out_end_w self = 1 + W.
Hypothesis Hms : shape mm6 = [B; hp; wp; 3; 3; C].
Hypothesis Hvs : shape vv = [B; H; W; C].
Hypothesis Hma :
  forall b i j kh kw c,
    in_range [B; hp; wp; 3; 3; C] [b; i; j; kh; kw; c] ->
    at_ mm6 [b; i; j; kh; kw; c]
    = at_ (tf_pad vv [(0, 0); (1, 1); (1, 1); (0, 0)]) [b; i * 2 + kh; j * 2 + kw; c].
Hypothesis HB : 0 <= B.
Hypothesis HC : 1 <= C.
Hypothesis HH : 1 <= H /\ hp * 2 - 1 <= H <= hp * 2.
Hypothesis HW : 1 <= W /\ wp * 2 - 1 <= W <= wp * 2.
Hypothesis Heh : 0 <= eh <= 1 /\ (hp + eh) mod 2 = 0.
Hypothesis Hew : 0 <= ew <= 1 /\ (wp + ew) mod 2 = 0.

Let aa : tensor :=
  tf_transpose (tf_pad mm6 (umf_fold_overlap_pad self)) [0; 1; 3; 2; 4; 5].

Lemma fold_aa_shape : shape aa = [B; hp + eh; 4; wp + ew; 4; C].
Proof using Hstr Hfp Hstart Hend Hms HB HC HH HW Heh Hew.
  unfold aa. erewrite tf_transpose_swap23_shape.
  2: { rewrite tf_pad_shape, Hfp, Hms. cbn [zip_with]. reflexivity. }
  index_eq.
Qed.

Lemma fold_aa_at (b i kh j kw c : Z) :
  at_ aa [b; i; kh; j; kw; c]
  = if in_rangeb [B; hp; wp; 3; 3; C] [b; i; j; kh; kw; c]
    then at_ mm6 [b; i; j; kh; kw; c] else 0%R.
Proof using Hstr Hfp Hstart Hend Hms HB HC HH HW Heh Hew.
  unfold aa. rewrite tf_transpose_swap23_at, tf_pad_at, Hfp, Hms.
  cbv zeta. cbn [zip_with]. rewrite !Z.sub_0_r. reflexivity.
Qed.

Lemma pad_overlap_spec (sh sw : Z) :
  sh = 0 \/ sh = 1 -> sw = 0 \/ sw = 1 ->
  shape (pad_overlap self aa sh sw)
  = [B; (hp + eh) / 2 * 4 + 2; (wp + ew) / 2 * 4 + 2; C] /\
  forall b r s c,
    in_range [B; (hp + eh) / 2 * 4 + 2; (wp + ew) / 2 * 4 + 2; C] [b; r; s; c] ->
    at_ (pad_overlap self aa sh sw) [b; r; s; c]
    = if in_rangeb [B; (hp + eh) / 2 * 4; (wp + ew) / 2 * 4; C]
                   [b; r - 2 * sh; s - 2 * sw; c]
      then at_ aa [b; sh + (r - 2 * sh) / 4 * 2; (r - 2 * sh) mod 4;
                   sw + (s - 2 * sw) / 4 * 2; (s - 2 * sw) mod 4; c]
      else 0%R.
Proof using Hstr Hfp Hstart Hend Hms HB HC HH HW Heh Hew.
  intros Hsh Hsw.
  assert (Hhp2 : 2 <= hp + eh) by zlia.
  assert (Hwp2 : 2 <= wp + ew) by zlia.
  destruct (slice_stride2 (hp + eh) sh ltac:(lia) Hhp2 (proj2 Heh)) as [Hl1 Hs1].
  destruct (slice_stride2 (wp + ew) sw ltac:(lia) Hwp2 (proj2 Hew)) as [Hl2 Hs2].
  unfold pad_overlap. cbv zeta.
  set (bb := tf_slice aa _).
  assert (Hbbs : shape bb = [B; (hp + eh) / 2; 4; (wp + ew) / 2; 4; C]).
  { unfold bb. rewrite tf_slice_shape, fold_aa_shape. cbn [zip_with].
    rewrite Hl1, Hl2, !slice_all_len by lia. reflexivity. }
  assert (Hbba : forall b i kh j kw c,
             at_ bb [b; i; kh; j; kw; c]
             = at_ aa [b; sh + i * 2; kh; sw + j * 2; kw; c]).
  { intros. unfold bb. rewrite tf_slice_at, fold_aa_shape. cbn [combine zip_with].
    rewrite Hs1, Hs2, !slice_all_start. cbn [sl_step slice_all].
    rewrite ?Z.mul_1_r, ?Z.add_0_l. reflexivity. }
  clearbody bb. rewrite Hbbs. cbn [nth last].
  set (rr := tf_reshape bb _).
  assert (Hrs : resolve_shape (numel [B; (hp + eh) / 2; 4; (wp + ew) / 2; 4; C])
                  [-1; (hp + eh) / 2 * 4; (wp + ew) / 2 * 4; C]
                = [B; (hp + eh) / 2 * 4; (wp + ew) / 2 * 4; C]).
  { rewrite resolve_shape_head.
    - f_equal. unfold numel. cbn [fold_right].
      replace (B * ((hp + eh) / 2 * (4 * ((wp + ew) / 2 * (4 * (C * 1))))))
        with (B * ((hp + eh) / 2 * 4 * ((wp + ew) / 2 * 4 * (C * 1)))) by ring.
      apply Z.div_mul.
      assert (1 <= (hp + eh) / 2) by zlia. assert (1 <= (wp + ew) / 2) by zlia. nia.
    - cbn [forallb].
      assert (1 <= (hp + eh) / 2) by zlia. assert (1 <= (wp + ew) / 2) by zlia.
      zbool. reflexivity. }
  assert (Hrrs : shape rr = [B; (hp + eh) / 2 * 4; (wp + ew) / 2 * 4; C]).
  { unfold rr, tf_reshape. cbn [shape]. rewrite Hbbs. exact Hrs. }
  assert (Hrra : forall b r s c,
             in_range [B; (hp + eh) / 2 * 4; (wp + ew) / 2 * 4; C] [b; r; s; c] ->
             at_ rr [b; r; s; c] = at_ bb [b; r / 4; r mod 4; s / 4; s mod 4; c]).
  { intros b r s c Hin.
    repeat (apply in_range_cons in Hin; destruct Hin as [? Hin]).
    unfold rr.
    apply (tf_reshape_at _ _ B b [(hp + eh) / 2; 4; (wp + ew) / 2; 4; C]
             [r / 4; r mod 4; s / 4; s mod 4; c]).
    - exact Hbbs.
    - unfold in_range. apply in_rangeb_6 with (s0 := 1) (a := 0). zlia.
    - rewrite Hbbs, Hrs. unfold ravel. cbn [combine fold_left].
      pose proof (Z.div_mod r 4 ltac:(lia)) as Hr.
      pose proof (Z.div_mod s 4 ltac:(lia)) as Hs.
      rewrite Hr at 1. rewrite Hs at 1. ring. }
  clearbody rr.
  split.
  - rewrite tf_pad_shape, Hrrs, Hstr. cbn [zip_with].
    destruct Hsh as [-> | ->]; destruct Hsw as [-> | ->]; zbool; index_eq.
  - intros b r s c Hin.
    rewrite tf_pad_at, Hrrs, Hstr. cbv zeta.
    assert (Hsrc : zip_with (fun (i : Z) '(before, _) => i - before) [b; r; s; c]
                     [(0, 0);
                      if sh =? 0 then (0, 2) else (2, 0);
                      if sw =? 0 then (0, 2) else (2, 0);
                      (0, 0)]
                   = [b; r - 2 * sh; s - 2 * sw; c]).
    { destruct Hsh as [-> | ->]; destruct Hsw as [-> | ->]; zbool; cbn [zip_with];
        index_eq. }
    rewrite Hsrc.
    destruct (in_rangeb _ [b; r - 2 * sh; s - 2 * sw; c]) eqn:Hir; [|reflexivity].
    rewrite Hrra by exact Hir. rewrite Hbba. reflexivity.
Qed.

(** The fold returns a tensor of the declared output shape. *)
Lemma fold_overlap_1_shape : shape (fold_overlap_1 self mm6) = [B; H; W; C].
Proof using Hstr Hfp Hstart Hend Hms HB HC HH HW Heh Hew.
  unfold fold_overlap_1. fold aa.
  destruct (pad_overlap_spec 0 0 ltac:(lia) ltac:(lia)) as [S00 _].
  destruct (pad_overlap_spec 0 1 ltac:(lia) ltac:(lia)) as [S01 _].
  destruct (pad_overlap_spec 1 0 ltac:(lia) ltac:(lia)) as [S10 _].
  destruct (pad_overlap_spec 1 1 ltac:(lia) ltac:(lia)) as [S11 _].
  set (t00 := pad_overlap self aa 0 0) in *. set (t01 := pad_overlap self aa 0 1) in *.
  set (t10 := pad_overlap self aa 1 0) in *. set (t11 := pad_overlap self aa 1 1) in *.
  clearbody t00 t01 t10 t11.
  destruct (tensor_add_same_shape t00 t01 ltac:(congruence)) as [Sa _].
  destruct (tensor_add_same_shape (tensor_add t00 t01) t10 ltac:(congruence)) as [Sb _].
  destruct (tensor_add_same_shape (tensor_add (tensor_add t00 t01) t10) t11
              ltac:(congruence)) as [Sc _].
  set (cc := tensor_add (tensor_add (tensor_add t00 t01) t10) t11) in *.
  assert (Hcs : shape cc = [B; (hp + eh) / 2 * 4 + 2; (wp + ew) / 2 * 4 + 2; C])
    by congruence.
  destruct Hstart as [Hsh Hsw]. destruct Hend as [Heh' Hew'].
  rewrite Hsh, Hsw, Heh', Hew'.
  destruct (slice_range_1 ((hp + eh) / 2 * 4 + 2) H ltac:(lia) ltac:(zlia)) as [L1 St1].
  destruct (slice_range_1 ((wp + ew) / 2 * 4 + 2) W ltac:(lia) ltac:(zlia)) as [L2 St2].
  rewrite tf_slice_shape, Hcs. cbn [zip_with].
  rewrite L1, L2, !slice_all_len by lia. reflexivity.
Qed.

(** One of the four terms of the fold, at an output position. *)
Lemma pad_overlap_term (sh sw b y x c : Z) :
  sh = 0 \/ sh = 1 -> sw = 0 \/ sw = 1 ->
  in_range [B; H; W; C] [b; y; x; c] ->
  at_ (pad_overlap self aa sh sw) [b; 1 + y; 1 + x; c]
  = if fold_hit hp sh (y + 1) && fold_hit wp sw (x + 1)
    then at_ vv [b; y; x; c] else 0%R.
Proof using All.
  intros Hsh Hsw Hin. apply in_rangeb_4 in Hin.
  destruct (pad_overlap_spec sh sw Hsh Hsw) as [_ Hat].
  rewrite Hat by (apply in_rangeb_4; zlia). clear Hat.
  rewrite fold_aa_at.
  destruct (fold_hit hp sh (y + 1)) eqn:E3; destruct (fold_hit wp sw (x + 1)) eqn:E4;
    bool_to_prop E3; bool_to_prop E4; cbn [andb].
  - destruct (in_rangeb _ [b; 1 + y - 2 * sh; 1 + x - 2 * sw; c]) eqn:E1;
      bool_to_prop E1; [|exfalso; zlia].
    match goal with
    | |- (if in_rangeb ?s ?i then _ else _) = _ => destruct (in_rangeb s i) eqn:E2
    end; [|bool_to_prop E2; exfalso; zlia].
    rewrite Hma by exact E2. bool_to_prop E2.
    rewrite tf_pad_at, Hvs. cbv zeta. cbn [zip_with].
    match goal with
    | |- (if in_rangeb ?s ?i then _ else _) = _ => destruct (in_rangeb s i) eqn:E5
    end; bool_to_prop E5; [|exfalso; zlia].
    f_equal. repeat (f_equal; try zlia).
  - destruct (in_rangeb _ [b; 1 + y - 2 * sh; 1 + x - 2 * sw; c]) eqn:E1;
      [|reflexivity].
    match goal with
    | |- (if in_rangeb ?s ?i then _ else _) = _ => destruct (in_rangeb s i) eqn:E2
    end; [|reflexivity].
    bool_to_prop E1; bool_to_prop E2; exfalso; zlia.
  - destruct (in_rangeb _ [b; 1 + y - 2 * sh; 1 + x - 2 * sw; c]) eqn:E1;
      [|reflexivity].
    match goal with
    | |- (if in_rangeb ?s ?i then _ else _) = _ => destruct (in_rangeb s i) eqn:E2
    end; [|reflexivity].
    bool_to_prop E1; bool_to_prop E2; exfalso; zlia.
  - destruct (in_rangeb _ [b; 1 + y - 2 * sh; 1 + x - 2 * sw; c]) eqn:E1;
      [|reflexivity].
    match goal with
    | |- (if in_rangeb ?s ?i then _ else _) = _ => destruct (in_rangeb s i) eqn:E2
    end; [|reflexivity].
    bool_to_prop E1; bool_to_prop E2; exfalso; zlia.
Qed.

(** The fold of windows that carry the padded values themselves:
    every position receives its value once per covering window. *)
Lemma fold_overlap_1_counts :
  shape (fold_overlap_1 self mm6) = [B; H; W; C] /\
  forall b y x c,
    in_range [B; H; W; C] [b; y; x; c] ->
    at_ (fold_overlap_1 self mm6) [b; y; x; c]
    = (at_ vv [b; y; x; c] * IZR (covering_windows hp wp (y + 1) (x + 1)))%R.
Proof using All.
  unfold fold_overlap_1. fold aa.
  destruct (pad_overlap_spec 0 0 ltac:(lia) ltac:(lia)) as [S00 _].
  destruct (pad_overlap_spec 0 1 ltac:(lia) ltac:(lia)) as [S01 _].
  destruct (pad_overlap_spec 1 0 ltac:(lia) ltac:(lia)) as [S10 _].
  destruct (pad_overlap_spec 1 1 ltac:(lia) ltac:(lia)) as [S11 _].
  pose proof (pad_overlap_term 0 0) as T00. pose proof (pad_overlap_term 0 1) as T01.
  pose proof (pad_overlap_term 1 0) as T10. pose proof (pad_overlap_term 1 1) as T11.
  set (t00 := pad_overlap self aa 0 0) in *. set (t01 := pad_overlap self aa 0 1) in *.
  set (t10 := pad_overlap self aa 1 0) in *. set (t11 := pad_overlap self aa 1 1) in *.
  clearbody t00 t01 t10 t11.
  destruct (tensor_add_same_shape t00 t01 ltac:(congruence)) as [Sa Aa].
  destruct (tensor_add_same_shape (tensor_add t00 t01) t10 ltac:(congruence)) as [Sb Ab].
  destruct (tensor_add_same_shape (tensor_add (tensor_add t00 t01) t10) t11
              ltac:(congruence)) as [Sc Ac].
  set (cc := tensor_add (tensor_add (tensor_add t00 t01) t10) t11) in *.
  assert (Hcs : shape cc = [B; (hp + eh) / 2 * 4 + 2; (wp + ew) / 2 * 4 + 2; C])
    by congruence.
  destruct Hstart as [Hsh Hsw]. destruct Hend as [Heh' Hew'].
  rewrite Hsh, Hsw, Heh', Hew'.
  destruct (slice_range_1 ((hp + eh) / 2 * 4 + 2) H ltac:(lia) ltac:(zlia)) as [L1 St1].
  destruct (slice_range_1 ((wp + ew) / 2 * 4 + 2) W ltac:(lia) ltac:(zlia)) as [L2 St2].
  split.
  - rewrite tf_slice_shape, Hcs. cbn [zip_with].
    rewrite L1, L2, !slice_all_len by lia. reflexivity.
  - intros b y x c Hin.
    rewrite tf_slice_at, Hcs. cbn [combine zip_with].
    rewrite St1, St2, !slice_all_start. cbn [sl_step slice_all slice_range].
    rewrite ?Z.mul_1_r, ?Z.add_0_l.
    assert (Hin' : in_range (shape (tensor_add (tensor_add t00 t01) t10))
                     [b; 1 + y; 1 + x; c]).
    { rewrite Sb, Sa, S00. apply in_rangeb_4. apply in_rangeb_4 in Hin. zlia. }
    unfold cc. rewrite Ac by exact Hin'.
    rewrite Sb in Hin'. rewrite Ab by exact Hin'.
    rewrite Sa in Hin'. rewrite Aa by exact Hin'.
    rewrite T00, T01, T10, T11 by (try lia; exact Hin).
    rewrite covering_windows_product by zlia.
    rewrite mult_IZR, !plus_IZR.
    destruct (fold_hit hp 0 (y + 1)); destruct (fold_hit hp 1 (y + 1));
      destruct (fold_hit wp 0 (x + 1)); destruct (fold_hit wp 1 (x + 1));
      cbn [andb Z.b2z]; lra.
Qed.
End Fold.

(** ** The whole layer *)

Lemma patch_index_join (C kh kw c : Z) :
  1 <= C -> 0 <= kh < 3 -> 0 <= kw < 3 -> 0 <= c < C ->
  let d := (kh * 3 + kw) * C + c in
  0 <= d < 3 * 3 * C /\ d / (3 * C) = kh /\ d / C mod 3 = kw /\ d mod C = c.
Proof.
  intros HC Hkh Hkw Hc d.
  assert (Hd : 0 <= d < 3 * 3 * C) by (unfold d; nia).
  split; [exact Hd|].
  destruct (patch_index_split C HC d Hd) as (H1 & H2 & H3 & H4). cbv zeta in *.
  assert (Hq : (d / (3 * C) * 3 + d / C mod 3) = kh * 3 + kw /\ d mod C = c).
  { unfold d in H4 at 1.
    assert (Hcmp : ((d / (3 * C) * 3 + d / C mod 3) - (kh * 3 + kw)) * C = c - d mod C) by lia.
    assert (d / (3 * C) * 3 + d / C mod 3 - (kh * 3 + kw) = 0) by nia.
    lia. }
  lia.
Qed.

Lemma matmul_identity_channels (patches attn : tensor) (B hh ww nh C : Z) :
  shape patches = [B; hh; ww; 3 * 3 * C] ->
  shape attn = [B; hh; ww; nh; 3 * 3; 3 * 3] ->
  identity_attention attn ->
  0 <= B -> 1 <= hh -> 1 <= ww -> 1 <= nh -> 1 <= C -> C mod nh = 0 ->
  let mm6 :=
    tf_reshape
      (tf_transpose
         (tf_matmul attn
            (tf_transpose (tf_reshape patches [-1; hh; ww; 3 * 3; nh; C / nh])
               [0; 1; 2; 4; 3; 5]))
         [0; 1; 2; 4; 3; 5])
      [-1; hh; ww; 3; 3; C] in
  shape mm6 = [B; hh; ww; 3; 3; C] /\
  forall b i j kh kw c,
    in_range [B; hh; ww; 3; 3; C] [b; i; j; kh; kw; c] ->
    at_ mm6 [b; i; j; kh; kw; c] = at_ patches [b; i; j; (kh * 3 + kw) * C + c].
Proof.
  intros Hps Has Hid HB Hhh Hww Hnh HC Hdiv.
  assert (HCP : C = nh * (C / nh)) by zlia.
  assert (HP : 1 <= C / nh) by zlia.
  set (P := C / nh) in *. clearbody P. subst C.
  apply (matmul_identity_spec patches attn B hh ww nh P); assumption.
Qed.

Lemma num_windows_eq (n : Z) : 1 <= n -> num_windows n = (n + 2 - 1) / 2.
Proof.
  intros Hn. unfold num_windows. rewrite patches_out_size_valid by lia. zlia.
Qed.

Section Layer.
Variables (env : keras_env) (vv : tensor) (B H W C : Z).
Hypothesis Hvs : shape vv = [B; H; W; C].
Hypothesis HB : 0 <= B.
Hypothesis HH : 1 <= H.
Hypothesis HW : 1 <= W.
Hypothesis HC : 1 <= C.
Hypothesis Hdev : on_tpu env = false \/ H = W.

Let pad_vv := tf_pad vv [(0, 0); (1, 1); (1, 1); (0, 0)].
Let extract :=
  if on_tpu env then
    fun images sizes strides rates padding =>
      tpu_extract_patches_overlap_1 images (KSeq sizes) (KSeq strides)
        (KSeq rates) padding
  else
    fun images sizes strides rates padding =>
      Ok (tf_image_extract_patches images sizes strides rates padding).

Lemma layer_patches :
  exists patches,
    extract pad_vv [1; 3; 3; 1] [1; 2; 2; 1] [1; 1; 1; 1] "VALID" = Ok patches /\
    shape patches = [B; num_windows H; num_windows W; 3 * 3 * C] /\
    forall b i j kh kw c,
      in_range [B; num_windows H; num_windows W; 3; 3; C] [b; i; j; kh; kw; c] ->
      at_ patches [b; i; j; (kh * 3 + kw) * C + c]
      = at_ pad_vv [b; i * 2 + kh; j * 2 + kw; c].
Proof using All.
  assert (Hpvs : shape pad_vv = [B; H + 2; W + 2; C]).
  { unfold pad_vv. rewrite tf_pad_shape, Hvs. cbn [zip_with]. index_eq. }
  pose proof (extract_patches_valid_shape pad_vv B (H + 2) (W + 2) C Hpvs
                ltac:(lia) ltac:(lia)) as Hes.
  assert (Hnw : forall n, 1 <= n -> (n + 2 + 2 - 1) / 2 - 1 = num_windows n).
  { intros n Hn. unfold num_windows. now rewrite patches_out_size_valid by lia. }
  rewrite !Hnw in Hes by lia.
  assert (Hea : forall b i j kh kw c,
             in_range [B; num_windows H; num_windows W; 3; 3; C] [b; i; j; kh; kw; c] ->
             in_range [B; num_windows H; num_windows W; 3 * 3 * C]
                      [b; i; j; (kh * 3 + kw) * C + c] /\
             at_ (tf_image_extract_patches pad_vv [1; 3; 3; 1] [1; 2; 2; 1] [1; 1; 1; 1]
                    "VALID") [b; i; j; (kh * 3 + kw) * C + c]
             = at_ pad_vv [b; i * 2 + kh; j * 2 + kw; c]).
  { intros b i j kh kw c Hin. apply in_rangeb_6 in Hin.
    destruct (patch_index_join C kh kw c HC ltac:(lia) ltac:(lia) ltac:(lia))
      as (Hd & E1 & E2 & E3). cbv zeta in *.
    assert (Hin4 : in_range [B; num_windows H; num_windows W; 3 * 3 * C]
                     [b; i; j; (kh * 3 + kw) * C + c]) by (apply in_rangeb_4; lia).
    split; [exact Hin4|].
    rewrite (extract_patches_valid_at pad_vv B (H + 2) (W + 2) C); try lia; try assumption.
    - rewrite E1, E2, E3. reflexivity.
    - rewrite !Hnw by lia. exact Hin4. }
  unfold extract. destruct (on_tpu env) eqn:Htpu.
  - destruct Hdev as [Hd | Hd]; [discriminate|]. subst W.
    destruct (tpu_valid_square pad_vv B (H + 2) C Hpvs HB ltac:(lia) HC)
      as (t & Ht & Hts & Hta).
    exists t. split; [exact Ht|]. split; [congruence|].
    intros b i j kh kw c Hin. destruct (Hea b i j kh kw c Hin) as [Hin4 Hv].
    rewrite Hta; [exact Hv|]. rewrite Hts, Hes. exact Hin4.
  - eexists. split; [reflexivity|]. split; [exact Hes|].
    intros b i j kh kw c Hin. now apply Hea.
Qed.
End Layer.

Lemma even_pad_pair (n : Z) :
  (if n mod 2 =? 0 then (0, 0) else (0, 1)) = (0, n mod 2).
Proof. destruct (Z.eqb_spec (n mod 2) 0) as [E|E]; f_equal; zlia. Qed.

(** The layer returns a tensor of the declared output shape, whatever
    the attention values. *)
Lemma UnfoldMatmulFold_call_shape (env : keras_env) (vv attn : tensor) (B H W C nh : Z) :
  shape vv = [B; H; W; C] ->
  shape attn = [B; num_windows H; num_windows W; nh; 3 * 3; 3 * 3] ->
  0 <= B -> 1 <= H -> 1 <= W -> 1 <= nh -> 1 <= C -> C mod nh = 0 ->
  on_tpu env = false \/ H = W ->
  exists self out,
    UnfoldMatmulFold_init env (H, W, C) 3 1 2 = Ok self /\
    UnfoldMatmulFold_call self vv attn = Ok out /\
    shape out = [B; H; W; C].
Proof.
  intros Hvs Has HB HH HW Hnh HC Hdiv Hdev.
  destruct (layer_patches env vv B H W C Hvs HB HH HW HC Hdev)
    as (patches & Hp & Hps & _).
  rewrite UnfoldMatmulFold_init_3_1_2. eexists. eexists. split; [reflexivity|].
  unfold UnfoldMatmulFold_call.
  cbn [umf_3_1_2 umf_extract_patches umf_patch_pad umf_patch_kernel umf_patch_strides
       umf_out_channel umf_kernel_size].
  rewrite Hp. cbn [bind]. rewrite Has. cbn [nth].
  assert (Hfd : py_floordiv C nh = Ok (C / nh)).
  { unfold py_floordiv. zbool. reflexivity. }
  rewrite Hfd. cbn [bind].
  pose proof (num_windows_eq H HH) as HnH. pose proof (num_windows_eq W HW) as HnW.
  assert (HCP : C = nh * (C / nh)) by zlia.
  assert (HP : 1 <= C / nh) by zlia.
  assert (Hms : shape
                  (tf_reshape
                     (tf_transpose
                        (tf_matmul attn
                           (tf_transpose
                              (tf_reshape patches
                                 [-1; num_windows H; num_windows W; 3 * 3; nh; C / nh])
                              [0; 1; 2; 4; 3; 5]))
                        [0; 1; 2; 4; 3; 5])
                     [-1; num_windows H; num_windows W; 3; 3; C])
                = [B; num_windows H; num_windows W; 3; 3; C]).
  { set (P := C / nh) in *. clearbody P. subst C.
    apply matmul_step_shape; try assumption; zlia. }
  split; [reflexivity|].
  eapply (fold_overlap_1_shape _ _ B H W C (num_windows H) (num_windows W)
            (((H + 2 - 1) / 2) mod 2) (((W + 2 - 1) / 2) mod 2)).
  - reflexivity.
  - cbn [umf_3_1_2 umf_fold_overlap_pad]. now rewrite !even_pad_pair.
  - split; reflexivity.
  - split; reflexivity.
  - exact Hms.
  - exact HB.
  - exact HC.
  - zlia.
  - zlia.
  - zlia.
  - zlia.
Qed.





Local Transparent Z.mul Z.add Z.sub Z.div Z.modulo Z.opp Z.ltb Z.leb Z.eqb Z.max Z.min.


Example covering_windows_4x4 :
  map (fun r => covering_windows 2 2 r 2) [1; 2; 3; 4] = [2; 4; 2; 2].
Proof. reflexivity. Qed.

(* ================================================================== *)
(** * attention_mlp_block with class attention *)
(* ================================================================== *)

Lemma slice_to_1_len (n : Z) : 0 <= n -> slice_len n (slice_to 1) = Z.min 1 n.
Proof.
  intros Hn. unfold slice_len, slice_start, slice_stop, slice_to, clamp_bound. cbn.
  destruct (Z.ltb_spec 0 (Z.min n 1)) as [H|H].
  - rewrite Z.div_1_r. lia.
  - lia.
Qed.

Lemma slice_from_1_len (n : Z) : 0 <= n -> slice_len n (slice_from 1) = n - Z.min 1 n.
Proof.
  intros Hn. unfold slice_len, slice_start, slice_stop, slice_from, clamp_bound. cbn.
  destruct (Z.ltb_spec (Z.min n 1) n) as [H|H].
  - rewrite Z.div_1_r. lia.
  - lia.
Qed.

Lemma slice_from_1_start (n : Z) : 0 <= n -> slice_start n (slice_from 1) = Z.min 1 n.
Proof. intros Hn. unfold slice_start, slice_from, clamp_bound. cbn. lia. Qed.

(** [t[:, :1]] and [t[:, 1:]] on a rank-3 tensor. *)
Lemma tf_getitem_rank3 (t : tensor) (b n c : Z) (sl : pyslice) (rest : list pyslice) :
  shape t = [b; n; c] -> 0 <= b -> 0 <= c ->
  rest = [] \/ rest = [slice_all] ->
  exists y, tf_getitem t (slice_all :: sl :: rest) = Ok y /\
            y = tf_slice t [slice_all; sl; slice_all] /\
            shape y = [b; slice_len n sl; c].
Proof.
  intros Hs Hb Hc Hrest. eexists. split; [|split; [reflexivity|]].
  - unfold tf_getitem. rewrite Hs. destruct Hrest as [-> | ->]; reflexivity.
  - rewrite tf_slice_shape, Hs. cbn [zip_with]. now rewrite !slice_all_len.
Qed.

Lemma BiasLayer_shape3 (bb : Z -> R) (x : tensor) (b n c : Z) :
  shape x = [b; n; c] -> shape (BiasLayer bb x) = [b; n; c].
Proof.
  intros Hs. unfold BiasLayer, tensor_add, broadcast_op. cbn [shape]. rewrite Hs.
  cbn [last List.length Nat.max]. unfold left_pad_shape.
  cbn [List.length Nat.sub repeat app broadcast_dims zip_with].
  unfold broadcast_dims. cbn [zip_with].
  destruct (Z.eqb_spec b 1), (Z.eqb_spec n 1), (c =? 1); congruence.
Qed.

Lemma Dense_shape3 (units : Z) (use_bias : bool) (w : dense_weights) (x : tensor)
    (b n c : Z) :
  shape x = [b; n; c] -> shape (Dense units use_bias w x) = [b; n; units].
Proof. intros Hs. unfold Dense. cbn [shape]. now rewrite Hs. Qed.

(** The sum of two rank-3 operands with the same first two sizes keeps
    them. *)
Lemma keras_Add_shape3 (x y z : tensor) (b n c1 c2 : Z) :
  shape x = [b; n; c1] -> shape y = [b; n; c2] ->
  keras_Add x y = Ok z ->
  exists c3, shape z = [b; n; c3].
Proof.
  intros Hx Hy. unfold keras_Add. rewrite Hx, Hy.
  cbn [List.length Nat.max Nat.sub expand_dims_1].
  destruct (forallb _ _); [|discriminate].
  intros H; inversion H; subst z.
  unfold tensor_add, broadcast_op. cbn [shape]. rewrite Hx, Hy.
  cbn [List.length Nat.max]. unfold left_pad_shape, broadcast_dims.
  cbn [List.length Nat.sub repeat app zip_with].
  exists (if c1 =? 1 then c2 else c1).
  now destruct (b =? 1), (n =? 1).
Qed.

(** A successful [tf.concat] along axis 1 of rank-3 operands. *)
Lemma tf_concat_axis1 (x y z : tensor) (b1 n1 c1 b2 n2 c2 : Z) :
  shape x = [b1; n1; c1] -> shape y = [b2; n2; c2] ->
  tf_concat x y 1 = Ok z ->
  z = tf_concat2 x y 1 /\ b1 = b2 /\ c1 = c2.
Proof.
  intros Hx Hy. unfold tf_concat. rewrite Hx, Hy.
  cbn [List.length Nat.eqb andb]. unfold normalize_axis.
  change (1 <? 0) with false. cbv iota. change (Z.to_nat 1) with 1%nat.
  cbn [seq combine forallb Nat.eqb orb].
  destruct (Z.eqb_spec b1 b2); cbn [andb]; [|discriminate].
  destruct (Z.eqb_spec c1 c2); cbn [andb]; [|discriminate].
  intros H; inversion H; auto.
Qed.

(** C10.  With [attention_type == "class"], on a token sequence of
    shape [(B, N, C)], whenever [attention_mlp_block] returns: the
    output has the input's shape (the sequence length is preserved);
    every output token [k >= 1] equals input token [k]; and the output
    is the concatenation along the token axis of a length-1 sequence
    (the class token after attention and MLP) with [inputs[:, 1:]].
    The framework's [MultiHeadAttention] returns one output per query
    position and its [Dropout] keeps the shape of its input. *)
Theorem attention_mlp_block_class_frame
    (env : keras_env) (fw : keras_layers) (w : block_weights) (inputs out : tensor)
    (embed_dim num_head mlp_ratio : Z) (drop_rate : Q) (mlp_activation : string)
    (dropout : Q) (name : string) (B N C : Z) :
  (forall nh kd os ub nm q v y b t c,
      shape q = [b; t; c] -> MultiHeadAttention fw nh kd os ub nm q v = Ok y ->
      shape y = [b; t; os]) ->
  (forall r ns nm x y, Dropout_noise fw r ns nm x = Ok y -> shape y = shape x) ->
  (forall r x, shape (dropout_fwd env r x) = shape x) ->
  shape inputs = [B; N; C] -> 0 <= B -> 0 <= N -> 0 <= C ->
  attention_mlp_block env fw w inputs embed_dim num_head mlp_ratio (Some "class") drop_rate
                      mlp_activation dropout name = Ok out ->
  shape out = [B; N; C] /\
  (forall b k c, in_range [B; N; C] [b; k; c] -> 1 <= k ->
                 at_ out [b; k; c] = at_ inputs [b; k; c]) /\
  exists (token rest : tensor),
    shape token = [B; Z.min 1 N; C] /\
    tf_getitem inputs [slice_all; slice_from 1] = Ok rest /\
    out = tf_concat2 token rest 1.
Proof.
  intros Hmha Hdn Hd Hs HB HN HC Hrun. unfold attention_mlp_block in Hrun.
  change (String.eqb "class" "class") with true in Hrun.
  change (String.eqb "class" "outlook") with false in Hrun.
  change (String.eqb "class" "outlook_simple") with false in Hrun.
  cbv iota in Hrun.
  destruct (tf_getitem_rank3 inputs B N C (slice_to 1) [] Hs HB HC (or_introl eq_refl))
    as (nn_0 & Hg0 & _ & Hs0).
  rewrite Hg0 in Hrun. cbn [bind] in Hrun.
  destruct (py_floordiv embed_dim num_head) as [key_dim|]; cbn [bind] in Hrun;
    [|discriminate].
  set (ln := LayerNormalization BATCH_NORM_EPSILON (bw_LN w) inputs) in Hrun.
  assert (Hln : shape ln = [B; N; C]) by exact Hs.
  destruct (tf_getitem_rank3 ln B N C (slice_to 1) [slice_all] Hln HB HC
              (or_intror eq_refl)) as (query & Hgq & _ & Hq).
  rewrite Hgq in Hrun. cbn [bind] in Hrun.
  rewrite slice_to_1_len in Hs0, Hq by exact HN.
  destruct (MultiHeadAttention fw num_head key_dim embed_dim false _ query ln)
    as [attn|] eqn:Hattn; cbn [bind] in Hrun; [|discriminate].
  apply (Hmha _ _ _ _ _ _ _ _ _ _ _ Hq) in Hattn.
  apply (BiasLayer_shape3 (bw_attn_bias w)) in Hattn.
  set (biased := BiasLayer (bw_attn_bias w) attn) in *.
  match type of Hrun with
  | bind ?d _ = _ => destruct d as [nn_1|] eqn:Hd1
  end; cbn [bind] in Hrun; [|discriminate].
  assert (Hs1 : shape nn_1 = [B; Z.min 1 N; embed_dim]).
  { destruct (Qlt_le_dec 0 drop_rate).
    - apply Hdn in Hd1. congruence.
    - inversion Hd1; subst. exact Hattn. }
  destruct (keras_Add nn_0 nn_1) as [sum_1|] eqn:Hadd1; cbn [bind] in Hrun; [|discriminate].
  destruct (keras_Add_shape3 _ _ _ _ _ _ _ Hs0 Hs1 Hadd1) as [c3 Hsum1].
  match type of Hrun with
  | bind ?d _ = _ => destruct d as [nn_2|] eqn:Hd2
  end; cbn [bind] in Hrun; [|discriminate].
  assert (Hs2 : shape nn_2 = [B; Z.min 1 N; embed_dim]).
  { assert (Hmlp : forall t, shape t = [B; Z.min 1 N; embed_dim] ->
                             shape (if Qlt_le_dec 0 dropout then dropout_fwd env dropout t
                                    else t) = [B; Z.min 1 N; embed_dim]).
    { intros t Ht. destruct (Qlt_le_dec 0 dropout); [now rewrite Hd | exact Ht]. }
    specialize (Hmlp _ (Dense_shape3 embed_dim true (bw_mlp_dense_2 w)
                          (tensor_map
                             (gelu fw (if compute_dtype_float16 fw then true else false)) _)
                          _ _ _
                          (Dense_shape3 (embed_dim * mlp_ratio) true (bw_mlp_dense_1 w)
                             (LayerNormalization BATCH_NORM_EPSILON (bw_mlp_LN w) sum_1)
                             _ _ _ Hsum1))).
    destruct (Qlt_le_dec 0 drop_rate).
    - apply Hdn in Hd2. rewrite Hd2. exact Hmlp.
    - inversion Hd2; subst nn_2. exact Hmlp. }
  destruct (keras_Add sum_1 nn_2) as [token|] eqn:Hadd2; cbn [bind] in Hrun; [|discriminate].
  destruct (keras_Add_shape3 _ _ _ _ _ _ _ Hsum1 Hs2 Hadd2) as [c4 Htok].
  destruct (tf_getitem_rank3 inputs B N C (slice_from 1) [] Hs HB HC (or_introl eq_refl))
    as (rest & Hrest & Hrest_eq & Hsr).
  rewrite Hrest in Hrun. cbn [bind] in Hrun.
  rewrite slice_from_1_len in Hsr by exact HN.
  destruct (tf_concat_axis1 _ _ _ _ _ _ _ _ _ Htok Hsr Hrun) as (-> & _ & ->).
  split; [|split].
  - rewrite tf_concat2_shape by lia. change (Z.to_nat 1) with 1%nat.
    rewrite Htok, Hsr. cbn [nth list_update]. repeat f_equal. lia.
  - intros b k c Hin Hk.
    rewrite tf_concat2_at by lia. change (Z.to_nat 1) with 1%nat.
    rewrite Htok. cbn [nth list_update].
    destruct (Z.ltb_spec k (Z.min 1 N)); [lia|].
    rewrite Hrest_eq, tf_slice_at, Hs. cbn [combine zip_with].
    rewrite !slice_all_start, slice_from_1_start by exact HN.
    cbn [sl_step slice_all slice_from]. repeat f_equal; lia.
  - exists token, rest. auto.
Qed.

Lemma attention_mlp_block_class_frame_witness :
  exists out,
    attention_mlp_block inference_env inference_layers example_block_weights
                        (ramp_tokens 3 2) 2 1 3 (Some "class") 0 "gelu" 0 "" = Ok out /\
    shape out = [1; 3; 2] /\
    at_ out [0; 2; 1] = at_ (ramp_tokens 3 2) [0; 2; 1].
Proof.
  assert (Hmha : forall nh kd os ub nm q v y b t c,
             shape q = [b; t; c] ->
             MultiHeadAttention inference_layers nh kd os ub nm q v = Ok y ->
             shape y = [b; t; os]).
  { intros nh kd os ub nm q v y b t c Hq Hy. inversion Hy; subst y. cbn [shape].
    now rewrite Hq. }
  assert (Hdn : forall r ns nm x y,
             Dropout_noise inference_layers r ns nm x = Ok y -> shape y = shape x).
  { intros r ns nm x y Hy. now inversion Hy. }
  eexists. split; [reflexivity|].
  destruct (attention_mlp_block_class_frame inference_env inference_layers
              example_block_weights (ramp_tokens 3 2) _ 2 1 3 0 "gelu" 0 "" 1 3 2
              Hmha Hdn (fun _ _ => eq_refl) eq_refl
              (Zle_bool_imp_le 0 1 eq_refl) (Zle_bool_imp_le 0 3 eq_refl)
              (Zle_bool_imp_le 0 2 eq_refl) eq_refl)
    as (Hshape & Hframe & _).
  split; [exact Hshape|]. apply Hframe; [reflexivity | lia].
Defined.

(* ================================================================== *)
(** * The two outlook attentions *)
(* ================================================================== *)

Lemma pow_3_4 : 3 ^ 4 = 3 * 3 * (3 * 3).
Proof. reflexivity. Qed.

Lemma py_index_4 {A : Type} (a b c d : A) :
  py_index [a; b; c; d] 1 = Ok b /\ py_index [a; b; c; d] 2 = Ok c.
Proof. split; reflexivity. Qed.

Lemma int_ceil_div_3 (n : Z) : int_ceil_div n 3 = Ok ((n + 3 - 1) / 3).
Proof.
  unfold int_ceil_div.
  assert (H : py_truediv (inject_Z n) (inject_Z 3) = Ok (inject_Z n / inject_Z 3)%Q)
    by reflexivity.
  rewrite H. cbn [bind]. now rewrite py_ceil_quotient by lia.
Qed.

Lemma Dense_shape4 (units : Z) (use_bias : bool) (w : dense_weights) (x : tensor)
    (b h v c : Z) :
  shape x = [b; h; v; c] -> shape (Dense units use_bias w x) = [b; h; v; units].
Proof. intros Hs. unfold Dense. cbn [shape]. now rewrite Hs. Qed.

Lemma AveragePooling2D_shape (p : Z) (x : tensor) (b h v c : Z) :
  shape x = [b; h; v; c] ->
  shape (AveragePooling2D p p x) = [b; (h - p + p) / p; (v - p + p) / p; c].
Proof. intros Hs. unfold AveragePooling2D. now rewrite Hs. Qed.

Lemma tf_transpose_blocks_shape (t : tensor) (a b c d e f g : Z) :
  shape t = [a; b; c; d; e; f; g] ->
  shape (tf_transpose t [0; 1; 3; 5; 2; 4; 6]) = [a; b; d; f; c; e; g].
Proof. intros H. unfold tf_transpose. cbn [shape]. rewrite H. reflexivity. Qed.

Lemma tf_transpose_unblocks_shape (t : tensor) (a b c d e f g : Z) :
  shape t = [a; b; c; d; e; f; g] ->
  shape (tf_transpose t [0; 1; 4; 2; 5; 3; 6]) = [a; b; e; c; f; d; g].
Proof. intros H. unfold tf_transpose. cbn [shape]. rewrite H. reflexivity. Qed.

Lemma tf_matmul_shape6 (x y : tensor) (a b c d m k k' p : Z) :
  shape x = [a; b; c; d; m; k] -> shape y = [a; b; c; d; k'; p] ->
  shape (tf_matmul x y) = [a; b; c; d; m; p].
Proof. intros Hx Hy. unfold tf_matmul. cbn [shape]. rewrite Hx, Hy. reflexivity. Qed.

Lemma tf_softmax_shape (t : tensor) : shape (tf_softmax t) = shape t.
Proof. reflexivity. Qed.

Lemma tensor_div_scalar_shape (t : tensor) (c : R) : shape (tensor_div_scalar t c) = shape t.
Proof. reflexivity. Qed.

Lemma ZeroPadding2D_fwd_shape (top bottom left right : Z) (x : tensor) (b h v c : Z) :
  shape x = [b; h; v; c] ->
  shape (ZeroPadding2D_fwd top bottom left right x)
  = [0 + b + 0; top + h + bottom; left + v + right; 0 + c + 0].
Proof.
  intros Hs. unfold ZeroPadding2D_fwd. rewrite tf_pad_shape, Hs. reflexivity.
Qed.

Lemma slice_drop_last (n p : Z) :
  0 < p < n -> slice_len n (Slice None (Some (- p)) 1) = n - p.
Proof.
  intros Hp. unfold slice_len, slice_start, slice_stop, clamp_bound.
  cbn [sl_start sl_stop sl_step].
  destruct (Z.ltb_spec (- p) 0); [|lia].
  destruct (Z.ltb_spec 0 (Z.min n (Z.max 0 (- p + n)))); [|lia].
  rewrite Z.div_1_r. lia.
Qed.

Local Opaque Z.mul Z.add Z.sub Z.div Z.modulo Z.opp Z.ltb Z.leb Z.eqb Z.max Z.min Z.pow.

(** A reshape with a leading [-1]. *)
Lemma tf_reshape_shape_head (t : tensor) (b : Z) (rest : list Z) :
  forallb (fun d => negb (d =? -1)) rest = true ->
  numel (shape t) = b * numel rest ->
  numel rest <> 0 ->
  shape (tf_reshape t (-1 :: rest)) = b :: rest.
Proof.
  intros Hrest Hn Hnz. unfold tf_reshape. cbn [shape].
  rewrite resolve_shape_head by exact Hrest. f_equal.
  rewrite Hn. now apply Z.div_mul.
Qed.

Ltac reshape_head :=
  apply tf_reshape_shape_head;
  [ cbn [forallb]; zbool; reflexivity
  | match goal with H : shape _ = _ |- _ => rewrite H end;
    unfold numel; cbn [fold_right]; ring
  | unfold numel; cbn [fold_right]; nia ].

(** The attention weights generated from a pooled summary. *)
Lemma attention_weights_shape (wa : dense_weights) (pooled : tensor) (c : R)
    (B hh ww C nh : Z) :
  shape pooled = [B; hh; ww; C] -> 1 <= hh -> 1 <= ww -> 1 <= nh ->
  shape (tf_softmax
           (tf_reshape (tensor_div_scalar (Dense (3 ^ 4 * nh) true wa pooled) c)
              [-1; hh; ww; nh; 3 * 3; 3 * 3]))
  = [B; hh; ww; nh; 3 * 3; 3 * 3].
Proof.
  intros Hp Hhh Hww Hnh. rewrite tf_softmax_shape.
  pose proof (Dense_shape4 (3 ^ 4 * nh) true wa pooled _ _ _ _ Hp) as Hd.
  rewrite pow_3_4 in *.
  set (d := tensor_div_scalar _ c).
  assert (Hds : shape d = [B; hh; ww; 3 * 3 * (3 * 3) * nh]) by exact Hd.
  clearbody d. reshape_head.
Qed.

(** [outlook_attention] with the default window (kernel 3, padding 1,
    strides 2) returns a tensor of shape [(B, H, W, embed_dim)]. *)
Lemma outlook_attention_shape (env : keras_env) (w : outlook_weights) (inputs : tensor)
    (B H W C embed_dim num_head : Z) (attn_dropout output_dropout : Q) :
  shape inputs = [B; H; W; C] ->
  0 <= B -> 2 <= H -> H mod 2 = 0 -> 2 <= W -> W mod 2 = 0 ->
  1 <= num_head -> 1 <= embed_dim -> embed_dim mod num_head = 0 ->
  on_tpu env = false \/ H = W ->
  (forall r x, shape (dropout_fwd env r x) = shape x) ->
  exists out,
    outlook_attention env w inputs embed_dim num_head 3 1 2 attn_dropout output_dropout
    = Ok out /\
    shape out = [B; H; W; embed_dim].
Proof.
  intros Hs HB HH HHe HW HWe Hnh HE Hdiv Hdev Hdrop.
  unfold outlook_attention. rewrite Hs. cbn [unpack_bhwc bind].
  assert (Hfd : py_floordiv embed_dim num_head = Ok (embed_dim / num_head)).
  { unfold py_floordiv. zbool. reflexivity. }
  rewrite Hfd, !int_ceil_div_2. cbn [bind].
  assert (HnH : (H + 2 - 1) / 2 = num_windows H) by (symmetry; apply num_windows_eq; lia).
  assert (HnW : (W + 2 - 1) / 2 = num_windows W) by (symmetry; apply num_windows_eq; lia).
  rewrite HnH, HnW.
  assert (Hpool : shape (AveragePooling2D 2 2 inputs)
                  = [B; num_windows H; num_windows W; C]).
  { rewrite (AveragePooling2D_shape 2 inputs _ _ _ _ Hs), <- HnH, <- HnW.
    assert (E1 : (H - 2 + 2) / 2 = (H + 2 - 1) / 2) by zlia.
    assert (E2 : (W - 2 + 2) / 2 = (W + 2 - 1) / 2) by zlia.
    now rewrite E1, E2. }
  assert (H1 : 1 <= num_windows H) by (rewrite <- HnH; zlia).
  assert (H2 : 1 <= num_windows W) by (rewrite <- HnW; zlia).
  pose proof (attention_weights_shape (w_attn w) _ (sqrt (IZR (embed_dim / num_head)))
                _ _ _ _ num_head Hpool H1 H2 Hnh) as Haw.
  set (aw := tf_softmax _) in *.
  set (attention_weights := if Qlt_le_dec 0 attn_dropout then _ else aw).
  assert (Has : shape attention_weights
                = [B; num_windows H; num_windows W; num_head; 3 * 3; 3 * 3]).
  { unfold attention_weights. destruct (Qlt_le_dec 0 attn_dropout);
      [now rewrite Hdrop | exact Haw]. }
  clearbody attention_weights.
  pose proof (Dense_shape4 embed_dim false (w_v w) inputs _ _ _ _ Hs) as Hvs.
  destruct (UnfoldMatmulFold_call_shape env _ attention_weights B H W embed_dim num_head
              Hvs Has HB ltac:(lia) ltac:(lia) Hnh HE Hdiv Hdev)
    as (self & output & Hinit & Hcall & Hout).
  rewrite Hinit. cbn [bind]. rewrite Hcall. cbn [bind].
  eexists. split; [reflexivity|].
  pose proof (Dense_shape4 embed_dim true (w_out w) output _ _ _ _ Hout) as Hfin.
  destruct (Qlt_le_dec 0 output_dropout); [now rewrite Hdrop | exact Hfin].
Qed.

(** C1 (as amended).  With the same weights and the default windows
    (kernel size 3; padding 1 and strides 2 in [outlook_attention]), on
    every input of shape [(B, H, W, C)] that both variants handle --
    [H] and [W] even, needing the same padding up to a multiple of 3,
    the heads dividing [embed_dim] -- [outlook_attention] and
    [outlook_attention_simple] both return, and their results have the
    same shape [(B, H, W, embed_dim)].  (Their values differ in
    general.) *)
Theorem outlook_attention_variants_same_shape
    (env : keras_env) (w : outlook_weights) (inputs : tensor)
    (B H W C embed_dim num_head : Z) (attn_dropout output_dropout : Q) :
  shape inputs = [B; H; W; C] ->
  0 <= B -> 2 <= H -> H mod 2 = 0 -> 2 <= W -> W mod 2 = 0 ->
  (W + 3 - 1) / 3 * 3 - W = (H + 3 - 1) / 3 * 3 - H ->
  1 <= num_head -> 1 <= embed_dim -> embed_dim mod num_head = 0 ->
  on_tpu env = false \/ H = W ->
  (forall r x, shape (dropout_fwd env r x) = shape x) ->
  exists out out_simple,
    outlook_attention env w inputs embed_dim num_head 3 1 2 attn_dropout output_dropout
    = Ok out /\
    outlook_attention_simple env w inputs embed_dim num_head 3 attn_dropout
    = Ok out_simple /\
    shape out = [B; H; W; embed_dim] /\
    shape out_simple = shape out.
Proof.
  intros Hs HB HH2 HHe HW2 HWe Hpad Hnh HE Hdiv Hdev Hdrop.
  cut (exists out_simple,
          outlook_attention_simple env w inputs embed_dim num_head 3 attn_dropout
          = Ok out_simple /\ shape out_simple = [B; H; W; embed_dim]).
  { intros (o & Ho & Hos).
    destruct (outlook_attention_shape env w inputs B H W C embed_dim num_head attn_dropout
                output_dropout Hs HB HH2 HHe HW2 HWe Hnh HE Hdiv Hdev Hdrop)
      as (out & Hout & Hso).
    exists out, o. rewrite Hso. auto. }
  assert (HH : 1 <= H) by lia. assert (HW : 1 <= W) by lia.
  clear HH2 HHe HW2 HWe Hdev.
  unfold outlook_attention_simple.
  assert (Hfd : py_floordiv embed_dim num_head = Ok (embed_dim / num_head)).
  { unfold py_floordiv. zbool. reflexivity. }
  rewrite Hfd. cbn [bind]. rewrite Hs.
  rewrite (proj1 (py_index_4 B H W C)), (proj2 (py_index_4 B H W C)). cbn [bind].
  rewrite !int_ceil_div_3. cbn [bind].
  set (hh := (H + 3 - 1) / 3) in *. set (ww := (W + 3 - 1) / 3) in *.
  assert (Hhh : 1 <= hh) by (unfold hh; zlia).
  assert (Hww : 1 <= ww) by (unfold ww; zlia).
  assert (Hp0 : 0 <= hh * 3 - H < 3) by (unfold hh; zlia).
  set (kd := embed_dim / num_head) in *.
  assert (Hkd : 1 <= kd) by (unfold kd; zlia).
  assert (HEk : embed_dim = num_head * kd) by (unfold kd; zlia).
  set (padded := hh * 3 - H) in *.
  assert (Epad : padded = hh * 3 - H) by reflexivity.
  set (x := if negb (padded =? 0) then ZeroPadding2D_fwd 0 padded 0 padded inputs
            else inputs).
  assert (Hx : shape x = [B; hh * 3; ww * 3; C]).
  { unfold x. destruct (Z.eqb_spec padded 0) as [E|E]; cbn [negb].
    - rewrite Hs.
      assert (E1 : H = hh * 3) by lia. assert (E2 : W = ww * 3) by lia.
      now rewrite <- E1, <- E2.
    - rewrite (ZeroPadding2D_fwd_shape _ _ _ _ inputs _ _ _ _ Hs).
      assert (E0 : forall n, 0 + n + 0 = n) by (intros; lia).
      assert (E1 : 0 + H + padded = hh * 3) by lia.
      assert (E2 : 0 + W + padded = ww * 3) by lia.
      now rewrite !E0, E1, E2. }
  clearbody x. rewrite Hx.
  rewrite (proj1 (py_index_4 B (hh * 3) (ww * 3) C)),
          (proj2 (py_index_4 B (hh * 3) (ww * 3) C)).
  cbn [bind]. eexists. split; [reflexivity|].
  (* values *)
  pose proof (Dense_shape4 embed_dim false (w_v w) x _ _ _ _ Hx) as Hv0.
  set (v0 := Dense embed_dim false (w_v w) x) in *. clearbody v0.
  assert (Hv1 : shape (tf_reshape v0 [-1; hh; 3; ww; 3; num_head; kd])
                = [B; hh; 3; ww; 3; num_head; kd]).
  { rewrite HEk in Hv0. reshape_head. }
  set (v1 := tf_reshape v0 _) in *. clearbody v1.
  pose proof (tf_transpose_blocks_shape v1 _ _ _ _ _ _ _ Hv1) as Hv2.
  set (v2 := tf_transpose v1 _) in *. clearbody v2.
  assert (Hv3 : shape (tf_reshape v2 [-1; hh; ww; num_head; 3 * 3; kd])
                = [B; hh; ww; num_head; 3 * 3; kd]) by reshape_head.
  set (v3 := tf_reshape v2 _) in *. clearbody v3.
  (* attention *)
  assert (Hpool : shape (AveragePooling2D 3 3 x) = [B; hh; ww; C]).
  { rewrite (AveragePooling2D_shape 3 x _ _ _ _ Hx).
    assert (E1 : (hh * 3 - 3 + 3) / 3 = hh) by zlia.
    assert (E2 : (ww * 3 - 3 + 3) / 3 = ww) by zlia.
    now rewrite E1, E2. }
  pose proof (attention_weights_shape (w_attn w) _ (sqrt (IZR kd)) _ _ _ _ num_head
                Hpool Hhh Hww Hnh) as Haw.
  set (aw := tf_softmax _) in *.
  set (attn := if Qlt_le_dec 0 attn_dropout then _ else aw).
  assert (Has : shape attn = [B; hh; ww; num_head; 3 * 3; 3 * 3]).
  { unfold attn. destruct (Qlt_le_dec 0 attn_dropout); [now rewrite Hdrop | exact Haw]. }
  clearbody attn. clear Haw. clearbody aw.
  pose proof (tf_matmul_shape6 attn v3 _ _ _ _ _ _ _ _ Has Hv3) as Ho0.
  set (o0 := tf_matmul attn v3) in *. clearbody o0.
  assert (Ho1 : shape (tf_reshape o0 [-1; hh; ww; num_head; 3; 3; kd])
                = [B; hh; ww; num_head; 3; 3; kd]) by reshape_head.
  set (o1 := tf_reshape o0 _) in *. clearbody o1.
  pose proof (tf_transpose_unblocks_shape o1 _ _ _ _ _ _ _ Ho1) as Ho2.
  set (o2 := tf_transpose o1 _) in *. clearbody o2.
  assert (Ho3 : shape (tf_reshape o2 [-1; hh * 3; ww * 3; embed_dim])
                = [B; hh * 3; ww * 3; embed_dim]).
  { rewrite HEk. reshape_head. }
  set (o3 := tf_reshape o2 _) in *. clearbody o3.
  apply (Dense_shape4 _ _ _ _ B H W embed_dim).
  destruct (Z.eqb_spec padded 0) as [E|E]; cbn [negb].
  - rewrite Ho3.
    assert (E1 : hh * 3 = H) by lia. assert (E2 : ww * 3 = W) by lia.
    now rewrite E1, E2.
  - rewrite tf_slice_shape, Ho3. cbn [zip_with].
    rewrite !slice_all_len by lia.
    rewrite !slice_drop_last by lia.
    assert (E1 : hh * 3 - padded = H) by lia. assert (E2 : ww * 3 - padded = W) by lia.
    now rewrite E1, E2.
Qed.

Local Transparent Z.mul Z.add Z.sub Z.div Z.modulo Z.opp Z.ltb Z.leb Z.eqb Z.max Z.min Z.pow.

Lemma outlook_attention_variants_same_shape_witness :
  exists out out_simple,
    outlook_attention inference_env uniform_outlook_weights (corner_image 6) 1 1 3 1 2 0 0
    = Ok out /\
    outlook_attention_simple inference_env uniform_outlook_weights (corner_image 6) 1 1 3 0
    = Ok out_simple /\
    shape out = [1; 6; 6; 1] /\
    shape out_simple = shape out.
Proof.
  apply (outlook_attention_variants_same_shape inference_env uniform_outlook_weights
           (corner_image 6) 1 6 6 1 1 1 0 0).
  - reflexivity.
  - lia.
  - lia.
  - reflexivity.
  - lia.
  - reflexivity.
  - reflexivity.
  - lia.
  - lia.
  - reflexivity.
  - left. reflexivity.
  - reflexivity.
Defined.

(** The logit of an attention-weight dense whose kernel and bias are 0. *)
Lemma zero_logit (x s : R) : ((x * 0 + 0 + 0) / s)%R = 0%R.
Proof. unfold Rdiv. rewrite Rmult_0_r, !Rplus_0_l. apply Rmult_0_l. Qed.

(** The claim as first stated fails: on a 6 x 6 one-channel image that
    is 1 at pixel (0, 0), with identity value and output projections and
    uniform attention, pixel (2, 2) of the result is 0 for
    [outlook_attention] (no 3 x 3 window of stride 2 covers both pixels)
    and 1/9 for [outlook_attention_simple] (both pixels lie in the same
    3 x 3 block). *)
Lemma outlook_attention_variants_counterexample :
  exists out out_simple,
    outlook_attention inference_env uniform_outlook_weights (corner_image 6) 1 1 3 1 2 0 0
    = Ok out /\
    outlook_attention_simple inference_env uniform_outlook_weights (corner_image 6) 1 1 3 0
    = Ok out_simple /\
    shape out = [1; 6; 6; 1] /\
    shape out_simple = [1; 6; 6; 1] /\
    at_ out [0; 2; 2; 0] = 0%R /\
    at_ out_simple [0; 2; 2; 0] = (1 / 9)%R /\
    ~ tensor_eq out out_simple.
Proof.
  do 2 eexists. split; [reflexivity|]. split; [reflexivity|].
  split; [reflexivity|]. split; [reflexivity|].
  assert (H1 : forall out,
             Ok out = outlook_attention inference_env uniform_outlook_weights
                        (corner_image 6) 1 1 3 1 2 0 0 ->
             at_ out [0; 2; 2; 0] = 0%R).
  { intros out Ho. inversion Ho; subst out.
    cbv -[Rplus Rmult Rminus Ropp Rinv Rdiv IZR exp sqrt].
    rewrite !zero_logit, !exp_0. lra. }
  assert (H2 : forall out,
             Ok out = outlook_attention_simple inference_env uniform_outlook_weights
                        (corner_image 6) 1 1 3 0 ->
             at_ out [0; 2; 2; 0] = (1 / 9)%R).
  { intros out Ho. inversion Ho; subst out.
    cbv -[Rplus Rmult Rminus Ropp Rinv Rdiv IZR exp sqrt].
    rewrite !zero_logit, !exp_0. lra. }
  split; [apply H1; reflexivity|]. split; [apply H2; reflexivity|].
  intros [_ He]. specialize (He [0; 2; 2; 0] eq_refl).
  pose proof (eq_trans (eq_sym (H1 _ eq_refl)) (eq_trans He (H2 _ eq_refl))) as Hne.
  lra.
Qed.

(* ================================================================== *)
(** * make_divisible: further properties *)
(* ================================================================== *)

Lemma Qfloor_unique (z : Z) (x : Q) :
  (inject_Z z <= x)%Q -> (x < inject_Z (z + 1))%Q -> Qfloor x = z.
Proof.
  intros Hl Hu.
  pose proof (Qfloor_le x) as H1. pose proof (Qlt_floor x) as H2.
  assert (Ha : (inject_Z z < inject_Z (Qfloor x + 1))%Q) by Lqa.lra.
  assert (Hb : (inject_Z (Qfloor x) < inject_Z (z + 1))%Q) by Lqa.lra.
  rewrite <- Zlt_Qlt in Ha, Hb. lia.
Qed.

(** The multiple of [divisor] the rounding step yields, for a
    non-negative [vv]. *)
Lemma rounded_multiple (vv : Q) (divisor : Z) :
  (0 <= vv)%Q -> 0 < divisor ->
  exists m : Z,
    py_int (vv + inject_Z divisor / 2)%Q / divisor * divisor = m * divisor /\
    0 <= m /\
    (inject_Z (m * divisor) <= vv + inject_Z divisor * (1 # 2))%Q /\
    (vv + inject_Z divisor * (1 # 2) < inject_Z (m * divisor + divisor))%Q.
Proof.
  intros Hv Hd.
  assert (Hdq : (0 < inject_Z divisor)%Q) by (unfold Qlt; simpl; lia).
  pose proof (round_down_gap vv divisor Hv Hd) as Hgap.
  unfold Qdiv in *. change (/ 2)%Q with (1 # 2)%Q in *.
  set (x := (vv + inject_Z divisor * (1 # 2))%Q) in *.
  assert (Hx : (0 <= x)%Q) by (unfold x; Lqa.lra).
  rewrite (py_int_nonneg_floor x Hx) in *.
  exists (Qfloor x / divisor). split; [reflexivity|].
  assert (H0 : 0 <= Qfloor x).
  { assert (H : (inject_Z 0 < inject_Z (Qfloor x + 1))%Q).
    { eapply Qle_lt_trans; [exact Hx | apply Qlt_floor]. }
    rewrite <- Zlt_Qlt in H. lia. }
  split; [apply Z.div_pos; lia|].
  split; [|exact Hgap].
  pose proof (Z.mod_pos_bound (Qfloor x) divisor Hd) as Hm.
  pose proof (Z.div_mod (Qfloor x) divisor ltac:(lia)) as Hdm.
  assert (Hz : Qfloor x / divisor * divisor <= Qfloor x) by lia.
  rewrite Zle_Qle in Hz. pose proof (Qfloor_le x). Lqa.lra.
Qed.

(** What [make_divisible] returns for a non-negative [vv]: the larger
    of [divisor] and the rounded multiple, plus [divisor] when that lies
    below [0.9 * vv]. *)
Lemma make_divisible_value (vv : Q) (divisor r : Z) :
  (0 <= vv)%Q -> 0 < divisor ->
  make_divisible vv divisor None = Ok r ->
  exists m g : Z,
    0 <= m /\ g = Z.max divisor (m * divisor) /\
    (inject_Z (m * divisor) <= vv + inject_Z divisor * (1 # 2))%Q /\
    (vv + inject_Z divisor * (1 # 2) < inject_Z (m * divisor + divisor))%Q /\
    ((inject_Z g < (9 # 10) * vv)%Q /\ r = g + divisor \/
     ((9 # 10) * vv <= inject_Z g)%Q /\ r = g).
Proof.
  intros Hv Hd. rewrite (make_divisible_unfold vv divisor Hd). cbv zeta.
  destruct (rounded_multiple vv divisor Hv Hd) as (m & -> & Hm0 & Hlo & Hhi).
  intros Hr. exists m, (Z.max divisor (m * divisor)).
  split; [exact Hm0|]. split; [reflexivity|]. split; [exact Hlo|]. split; [exact Hhi|].
  destruct (Qlt_le_dec _ _) as [Hlt|Hle]; inversion Hr; subst r; auto.
Qed.

(** X1.  Rounding an already rounded value changes nothing: for a
    non-negative [vv] and a positive [divisor], [make_divisible] returns
    its own result unchanged when applied to it. *)
Theorem make_divisible_idempotent (vv : Q) (divisor r : Z) :
  (0 <= vv)%Q -> 0 < divisor ->
  make_divisible vv divisor None = Ok r ->
  make_divisible (inject_Z r) divisor None = Ok r.
Proof.
  intros Hv Hd Hr.
  destruct (make_divisible_value vv divisor r Hv Hd Hr)
    as (m & g & Hm0 & Hg & _ & _ & Hcase).
  assert (Hk : exists k, 1 <= k /\ r = k * divisor).
  { destruct (Z.max_spec divisor (m * divisor)) as [[Hlt E]|[Hle E]];
      rewrite E in Hg; subst g; destruct Hcase as [[_ ->]|[_ ->]].
    - exists (m + 1). split; [nia | ring].
    - exists m. split; [nia | ring].
    - exists 2. split; [lia | ring].
    - exists 1. split; [lia | ring]. }
  destruct Hk as (k & Hk1 & ->). clear Hr Hcase Hg g Hm0 m Hv vv.
  rewrite (make_divisible_unfold _ divisor Hd). cbv zeta.
  assert (Hfl : py_int (inject_Z (k * divisor) + inject_Z divisor / 2)%Q
                = k * divisor + divisor / 2).
  { assert (Hdq : (0 < inject_Z divisor)%Q) by (unfold Qlt; simpl; lia).
    assert (Hkq : (0 <= inject_Z (k * divisor))%Q)
      by (rewrite <- (Zle_Qle 0); nia).
    rewrite py_int_nonneg_floor
      by (unfold Qdiv; change (/ 2)%Q with (1 # 2)%Q; Lqa.lra).
    apply Qfloor_unique.
    - rewrite inject_Z_plus.
      assert (H : (inject_Z (divisor / 2) <= inject_Z divisor / 2)%Q).
      { unfold Qdiv. change (/ 2)%Q with (1 # 2)%Q.
        assert (Hz : 2 * (divisor / 2) <= divisor) by (apply Z.mul_div_le; lia).
        rewrite Zle_Qle, inject_Z_mult in Hz. change (inject_Z 2) with 2%Q in Hz.
        Lqa.lra. }
      Lqa.lra.
    - rewrite !inject_Z_plus.
      assert (H : (inject_Z divisor / 2 < inject_Z (divisor / 2) + inject_Z 1)%Q).
      { unfold Qdiv. change (/ 2)%Q with (1 # 2)%Q.
        assert (Hz : divisor < 2 * (divisor / 2 + 1)).
        { pose proof (Z.div_mod divisor 2 ltac:(lia)).
          pose proof (Z.mod_pos_bound divisor 2 ltac:(lia)). lia. }
        rewrite Zlt_Qlt, inject_Z_mult, inject_Z_plus in Hz.
        change (inject_Z 2) with 2%Q in Hz. Lqa.lra. }
      Lqa.lra. }
  rewrite Hfl.
  assert (Hq : (k * divisor + divisor / 2) / divisor = k).
  { rewrite Z.add_comm, Z.div_add by lia.
    rewrite Z.div_small; [lia|].
    split; [apply Z.div_pos; lia | apply Z.div_lt; lia]. }
  rewrite Hq.
  assert (Hmax : Z.max divisor (k * divisor) = k * divisor) by nia.
  rewrite Hmax.
  destruct (Qlt_le_dec _ _) as [Hlt|Hle]; [|reflexivity].
  exfalso.
  assert (Hp : (0 < inject_Z (k * divisor))%Q) by (rewrite <- (Zlt_Qlt 0); nia).
  Lqa.lra.
Qed.

Lemma make_divisible_idempotent_witness :
  make_divisible (inject_Z 16) 8 None = Ok 16.
Proof.
  apply (make_divisible_idempotent 10 8 16).
  - unfold Qle. simpl. lia.
  - lia.
  - reflexivity.
Defined.

(** X2.  For a non-negative [vv] and a positive [divisor] the result
    exceeds [vv] by at most one [divisor]. *)
Theorem make_divisible_upper_bound (vv : Q) (divisor r : Z) :
  (0 <= vv)%Q -> 0 < divisor ->
  make_divisible vv divisor None = Ok r ->
  (inject_Z r <= vv + inject_Z divisor)%Q.
Proof.
  intros Hv Hd Hr.
  destruct (make_divisible_value vv divisor r Hv Hd Hr)
    as (m & g & Hm0 & Hg & Hlo & _ & Hcase).
  assert (Hdq : (0 < inject_Z divisor)%Q) by (unfold Qlt; simpl; lia).
  destruct Hcase as [[Hlt ->]|[Hle ->]].
  - rewrite inject_Z_plus. Lqa.lra.
  - destruct (Z.max_spec divisor (m * divisor)) as [[_ E]|[_ E]];
      rewrite E in Hg; subst g; Lqa.lra.
Qed.

Lemma make_divisible_upper_bound_witness :
  (inject_Z 16 <= 10 + inject_Z 8)%Q.
Proof.
  apply (make_divisible_upper_bound 10 8 16).
  - unfold Qle. simpl. lia.
  - lia.
  - reflexivity.
Defined.

(** X3.  [make_divisible] is monotone in [vv]: for a positive [divisor],
    a larger non-negative [vv] never gives a smaller result. *)
Theorem make_divisible_monotone (v1 v2 : Q) (divisor r1 r2 : Z) :
  (0 <= v1)%Q -> (v1 <= v2)%Q -> 0 < divisor ->
  make_divisible v1 divisor None = Ok r1 ->
  make_divisible v2 divisor None = Ok r2 ->
  r1 <= r2.
Proof.
  intros H1 H12 Hd Hr1 Hr2.
  assert (H2 : (0 <= v2)%Q) by Lqa.lra.
  destruct (make_divisible_value v1 divisor r1 H1 Hd Hr1)
    as (m1 & g1 & Hm1 & Hg1 & Hlo1 & Hhi1 & Hc1).
  destruct (make_divisible_value v2 divisor r2 H2 Hd Hr2)
    as (m2 & g2 & Hm2 & Hg2 & Hlo2 & Hhi2 & Hc2).
  assert (Hm : m1 <= m2).
  { assert (Hq : (inject_Z (m1 * divisor) < inject_Z (m2 * divisor + divisor))%Q)
      by Lqa.lra.
    rewrite <- Zlt_Qlt in Hq. nia. }
  assert (Hmd : m1 * divisor <= m2 * divisor) by nia.
  assert (Hg : g1 <= g2) by lia.
  destruct Hc1 as [[Hb1 ->]|[Hn1 ->]]; destruct Hc2 as [[Hb2 ->]|[Hn2 ->]]; try lia.
  assert (Hlt : (inject_Z g1 < inject_Z g2)%Q) by Lqa.lra.
  rewrite <- Zlt_Qlt in Hlt.
  (* both are multiples of [divisor] *)
  destruct (Z.max_spec divisor (m1 * divisor)) as [[L1 E1]|[L1 E1]];
    destruct (Z.max_spec divisor (m2 * divisor)) as [[L2 E2]|[L2 E2]];
    rewrite E1 in Hg1; rewrite E2 in Hg2; subst g1 g2.
  - assert (m1 < m2) by nia. nia.
  - lia.
  - assert (1 < m2) by nia. nia.
  - lia.
Qed.

Lemma make_divisible_monotone_witness :
  make_divisible 10 8 None = Ok 16 /\ make_divisible 20 8 None = Ok 24 /\ 16 <= 24.
Proof.
  split; [reflexivity|]. split; [reflexivity|].
  apply (make_divisible_monotone 10 20 8 16 24).
  - unfold Qle. simpl. lia.
  - unfold Qle. simpl. lia.
  - lia.
  - reflexivity.
  - reflexivity.
Defined.

(** X4.  [make_divisible] raises exactly when [divisor] is 0 (a
    [ZeroDivisionError]); with an explicit [min_value] and a positive
    [divisor] the result is at least [min_value], and it is a multiple
    of [divisor] or one of [min_value], [min_value + divisor]. *)
Theorem make_divisible_errors_and_min_value (vv : Q) (divisor : Z) (min_value : option Z) :
  (divisor = 0 -> make_divisible vv divisor min_value = Raise ZeroDivisionError) /\
  (divisor <> 0 -> exists r, make_divisible vv divisor min_value = Ok r) /\
  (forall m r,
      0 < divisor -> make_divisible vv divisor (Some m) = Ok r ->
      m <= r /\ (r mod divisor = 0 \/ r = m \/ r = m + divisor)).
Proof.
  split; [|split].
  - intros ->. reflexivity.
  - intros Hd. unfold make_divisible, py_floordiv.
    destruct (Z.eqb_spec divisor 0); [contradiction|]. cbn [bind].
    destruct (Qlt_le_dec _ _); eexists; reflexivity.
  - intros m r Hd. unfold make_divisible, py_floordiv.
    destruct (Z.eqb_spec divisor 0); [lia|]. cbn [bind].
    set (q := py_int _ / divisor).
    destruct (Z.max_spec m (q * divisor)) as [[Hlt E]|[Hle E]]; rewrite E;
      destruct (Qlt_le_dec _ _); intros Hr; inversion Hr; subst r;
      (split; [lia|]).
    + left. replace (q * divisor + divisor) with ((q + 1) * divisor) by ring.
      apply Z.mod_mul; lia.
    + left. apply Z.mod_mul; lia.
    + auto.
    + auto.
Qed.

(* ================================================================== *)
(** * anti_alias_downsample: the blur kernel *)
(* ================================================================== *)

Lemma nth_nil_Q (i : nat) : nth i (@nil Q) 0%Q = 0%Q.
Proof. now destruct i. Qed.

Lemma nth_poly_add (a b : list Q) (i : nat) :
  (nth i (poly_add a b) 0 == nth i a 0 + nth i b 0)%Q.
Proof.
  revert b i. induction a as [|x a IH]; intros [|y b] i; cbn [poly_add].
  - rewrite nth_nil_Q. ring.
  - rewrite nth_nil_Q. ring.
  - rewrite nth_nil_Q. ring.
  - destruct i as [|i]; cbn [nth]; [ring | apply IH].
Qed.

Lemma nth_map_Qmult (x : Q) (l : list Q) (i : nat) :
  (nth i (map (Qmult x) l) 0 == x * nth i l 0)%Q.
Proof.
  revert i. induction l as [|y l IH]; intros [|i]; cbn [map nth]; try ring. apply IH.
Qed.

Lemma length_poly_add (a b : list Q) :
  List.length (poly_add a b) = Nat.max (List.length a) (List.length b).
Proof.
  revert b. induction a as [|x a IH]; intros [|y b]; cbn [poly_add List.length]; try lia.
  rewrite IH. lia.
Qed.

(** One multiplication by [(x + 1) / 2]. *)
Lemma nth_polymul_half (p : list Q) (i : nat) :
  (nth i (np_polymul [1 # 2; 1 # 2] p) 0
   == (1 # 2) * nth i p 0
      + (1 # 2) * match i with O => 0 | S i' => nth i' p 0 end)%Q.
Proof.
  cbn [np_polymul]. rewrite nth_poly_add, nth_map_Qmult.
  destruct i as [|i]; cbn [nth]; [ring|].
  rewrite nth_poly_add, nth_map_Qmult.
  destruct i as [|[|i]]; cbn [nth]; ring.
Qed.

Lemma length_polymul_half (p : list Q) :
  p <> [] -> List.length (np_polymul [1 # 2; 1 # 2]%Q p) = S (List.length p).
Proof.
  intros Hp. cbn [np_polymul]. rewrite !length_poly_add. cbn [List.length].
  rewrite length_poly_add, length_map. cbn [List.length].
  destruct p; [contradiction | cbn [List.length]; lia].
Qed.

Lemma length_half_power (n : nat) :
  List.length (Nat.iter n (np_polymul [1 # 2; 1 # 2]%Q) [1%Q]) = S n.
Proof.
  induction n as [|n IH]; [reflexivity|]. rewrite Nat.iter_succ.
  rewrite length_polymul_half, IH; [reflexivity|].
  intros E. rewrite E in IH. discriminate.
Qed.

Lemma C_n_0 (n : nat) : C n 0 = 1%R.
Proof.
  unfold C. rewrite Nat.sub_0_r. cbn [fact]. pose proof (INR_fact_neq_0 n).
  change (INR 1) with 1%R. field. assumption.
Qed.

Lemma C_n_n (n : nat) : C n n = 1%R.
Proof.
  unfold C. rewrite Nat.sub_diag. cbn [fact]. pose proof (INR_fact_neq_0 n).
  change (INR 1) with 1%R. field. assumption.
Qed.

(** The coefficients of [((x + 1) / 2) ^ n] are the binomial
    coefficients over [2 ^ n]. *)
Lemma half_power_binomial (n i : nat) :
  (i <= n)%nat ->
  Q2R (nth i (Nat.iter n (np_polymul [1 # 2; 1 # 2]%Q) [1%Q]) 0%Q) = (C n i / 2 ^ n)%R.
Proof.
  revert i. induction n as [|n IH]; intros i Hi.
  - replace i with 0%nat by lia. change (Nat.iter 0 _ [1%Q]) with [1%Q].
    cbn [nth pow]. rewrite C_n_0. unfold Q2R. cbn. lra.
  - rewrite Nat.iter_succ. rewrite (Qeq_eqR _ _ (nth_polymul_half _ i)).
    rewrite Q2R_plus, !Q2R_mult.
    assert (Hh : Q2R (1 # 2) = (/ 2)%R) by (unfold Q2R; cbn; lra).
    rewrite Hh. clear Hh.
    assert (H2 : (2 ^ n <> 0)%R) by (apply pow_nonzero; lra).
    destruct i as [|i].
    + rewrite IH by lia. rewrite !C_n_0.
      change (Q2R 0) with (0 * / 1)%R. cbn [pow]. field. exact H2.
    + destruct (Nat.eq_dec i n) as [->|Hne].
      * rewrite (nth_overflow _ 0%Q) by (rewrite length_half_power; lia).
        rewrite IH by lia. rewrite !C_n_n.
        change (Q2R 0) with (0 * / 1)%R. cbn [pow]. field. exact H2.
      * rewrite !IH by lia. rewrite <- (pascal n i) by lia.
        cbn [pow]. field. exact H2.
Qed.

Lemma Rsum_sum_f_R0 (m : nat) (f : Z -> R) :
  Rsum (Z.of_nat (S m)) f = sum_f_R0 (fun i => f (Z.of_nat i)) m.
Proof.
  induction m as [|m IH].
  - change (Z.of_nat 1) with (0 + 1). rewrite Rsum_succ, Rsum_0 by lia.
    cbn [sum_f_R0 Z.of_nat]. lra.
  - replace (Z.of_nat (S (S m))) with (Z.of_nat (S m) + 1) by lia.
    rewrite Rsum_succ by lia. rewrite IH. cbn [sum_f_R0]. reflexivity.
Qed.

Lemma sum_binomial (n : nat) : sum_f_R0 (fun i => C n i) n = (2 ^ n)%R.
Proof.
  pose proof (binomial 1 1 n) as H. replace (1 + 1)%R with 2%R in H by lra.
  rewrite H. apply sum_eq. intros i Hi. rewrite !pow1. lra.
Qed.

Lemma Rsum_scal (n : Z) (f : Z -> R) (c : R) :
  Rsum n (fun i => (f i * c)%R) = (Rsum n f * c)%R.
Proof.
  destruct (Z.le_gt_cases 0 n) as [Hn|Hn].
  - pattern n. apply natlike_ind; [rewrite !Rsum_0; lra | | exact Hn].
    clear n Hn. intros n Hn IH. unfold Z.succ. rewrite !Rsum_succ by exact Hn.
    rewrite IH. lra.
  - unfold Rsum, py_range. replace (Z.to_nat (n - 0)) with 0%nat by lia. cbn. lra.
Qed.

Lemma tf_expand_dims_row (t : tensor) (k : Z) :
  shape t = [k] ->
  shape (tf_expand_dims t 0) = [1; k] /\
  forall a b, at_ (tf_expand_dims t 0) [a; b] = at_ t [b].
Proof. intros H. unfold tf_expand_dims. cbn [shape at_]. rewrite H. split; reflexivity. Qed.

Lemma tf_expand_dims_column (t : tensor) (k : Z) :
  shape t = [k] ->
  shape (tf_expand_dims t 1) = [k; 1] /\
  forall a b, at_ (tf_expand_dims t 1) [a; b] = at_ t [a].
Proof. intros H. unfold tf_expand_dims. cbn [shape at_]. rewrite H. split; reflexivity. Qed.

Lemma tf_newaxis_2 (t : tensor) (a b : Z) :
  shape t = [a; b] ->
  shape (tf_expand_dims (tf_expand_dims t 2) 3) = [a; b; 1; 1] /\
  forall i j c d, at_ (tf_expand_dims (tf_expand_dims t 2) 3) [i; j; c; d] = at_ t [i; j].
Proof. intros H. unfold tf_expand_dims. cbn [shape at_]. rewrite H. split; reflexivity. Qed.

Lemma tf_repeat_channels (t : tensor) (a b c d n : Z) :
  shape t = [a; b; c; d] ->
  shape (tf_repeat t n (-2)) = [a; b; c * n; d] /\
  forall i j k l, at_ (tf_repeat t n (-2)) [i; j; k; l] = at_ t [i; j; k / n; l].
Proof. intros H. unfold tf_repeat. cbn [shape at_]. rewrite H. split; reflexivity. Qed.

(** The outer product of a vector with itself, as the initializer
    computes it by broadcasting a row against a column. *)
Lemma outer_product_broadcast (row col : tensor) (k : Z) :
  shape row = [1; k] -> shape col = [k; 1] ->
  shape (tensor_mul row col) = [k; k] /\
  forall i j, 0 <= i < k -> 0 <= j < k ->
              at_ (tensor_mul row col) [i; j] = Rmult (at_ row [0; j]) (at_ col [i; 0]).
Proof.
  intros Hr Hc. unfold tensor_mul, broadcast_op. cbn [shape at_]. rewrite Hr, Hc.
  cbn [List.length Nat.max Nat.sub left_pad_shape repeat app skipn].
  unfold left_pad_shape, broadcast_dims, broadcast_index.
  cbn [List.length Nat.sub repeat app skipn zip_with].
  change (1 =? 1) with true. cbv iota.
  destruct (Z.eqb_spec k 1) as [E|E]; (split; [now rewrite ?E|]).
  - intros i j Hi Hj. replace i with 0 by lia. replace j with 0 by lia. reflexivity.
  - intros i j Hi Hj. reflexivity.
Qed.

(** The value the initializer returns, when [kernel_size >= 1]. *)
Lemma anti_alias_initializer_value (kernel_size kw channel : Z) (rest : list Z) :
  1 <= kernel_size ->
  let ww := Nat.iter (Z.to_nat (kernel_size - 1)) (np_polymul [1 # 2; 1 # 2]%Q) [1%Q] in
  exists t,
    anti_alias_downsample_initializer (kernel_size :: kw :: channel :: rest) = Ok t /\
    shape t = [kernel_size; kernel_size; channel; 1] /\
    forall i j c d,
      0 <= i < kernel_size -> 0 <= j < kernel_size ->
      at_ t [i; j; c; d]
      = (Q2R (nth (Z.to_nat j) ww 0%Q) * Q2R (nth (Z.to_nat i) ww 0%Q))%R.
Proof.
  intros Hk ww. unfold anti_alias_downsample_initializer.
  assert (H0 : py_index (kernel_size :: kw :: channel :: rest) 0 = Ok kernel_size)
    by reflexivity.
  assert (H2 : py_index (kernel_size :: kw :: channel :: rest) 2 = Ok channel).
  { unfold py_index. cbn [List.length]. rewrite !Nat2Z.inj_succ.
    destruct (Z.ltb_spec 2 0); [lia|]. destruct (Z.ltb_spec 2 0); [lia|].
    destruct (Z.leb_spec (Z.succ (Z.succ (Z.succ (Z.of_nat (List.length rest))))) 2);
      [lia | reflexivity]. }
  rewrite H0, H2. cbn [bind]. unfold poly1d_pow.
  destruct (Z.ltb_spec (kernel_size - 1) 0); [lia|]. cbn [bind]. fold ww.
  assert (Hlen : shape (tf_constant_1d ww) = [kernel_size]).
  { unfold tf_constant_1d, ww. cbn [shape]. rewrite length_half_power. f_equal. lia. }
  destruct (tf_expand_dims_row _ _ Hlen) as [Hrs Hra].
  destruct (tf_expand_dims_column _ _ Hlen) as [Hcs Hca].
  destruct (outer_product_broadcast _ _ _ Hrs Hcs) as [Hos Hoa].
  destruct (tf_newaxis_2 _ _ _ Hos) as [Hns Hna].
  destruct (tf_repeat_channels _ _ _ _ _ channel Hns) as [Hfs Hfa].
  eexists. split; [reflexivity|]. split.
  - rewrite Hfs. now rewrite Z.mul_1_l.
  - intros i j c d Hi Hj. rewrite Hfa, Hna, Hoa, Hra, Hca by assumption.
    reflexivity.
Qed.

(** X5.  For [kernel_size >= 1] the anti-aliasing kernel is the
    binomial (Pascal) filter: its shape is
    [(kernel_size, kernel_size, channel, 1)] and its entry [(i, j)], the
    same in every channel, is
    [C(kernel_size - 1, i) * C(kernel_size - 1, j) / 4 ^ (kernel_size - 1)]. *)
Theorem anti_alias_kernel_binomial (kernel_size kw channel : Z) (rest : list Z) :
  1 <= kernel_size ->
  let n := Z.to_nat (kernel_size - 1) in
  exists t,
    anti_alias_downsample_initializer (kernel_size :: kw :: channel :: rest) = Ok t /\
    shape t = [kernel_size; kernel_size; channel; 1] /\
    forall i j c d,
      0 <= i < kernel_size -> 0 <= j < kernel_size ->
      at_ t [i; j; c; d] = (C n (Z.to_nat i) * C n (Z.to_nat j) / 4 ^ n)%R.
Proof.
  intros Hk n.
  destruct (anti_alias_initializer_value kernel_size kw channel rest Hk)
    as (t & Ht & Hs & Hat).
  exists t. split; [exact Ht|]. split; [exact Hs|].
  intros i j c d Hi Hj. rewrite (Hat i j c d Hi Hj). fold n.
  rewrite !half_power_binomial by (unfold n; lia).
  assert (H2 : (2 ^ n <> 0)%R) by (apply pow_nonzero; lra).
  replace (4 ^ n)%R with (2 ^ n * 2 ^ n)%R.
  - field. exact H2.
  - rewrite <- Rpow_mult_distr. f_equal; lra.
Qed.

Lemma anti_alias_kernel_binomial_witness :
  exists t,
    anti_alias_downsample_initializer [3; 3; 8; 1] = Ok t /\
    shape t = [3; 3; 8; 1] /\
    forall i j c d,
      0 <= i < 3 -> 0 <= j < 3 ->
      at_ t [i; j; c; d] = (C 2 (Z.to_nat i) * C 2 (Z.to_nat j) / 4 ^ 2)%R.
Proof.
  apply (anti_alias_kernel_binomial 3 3 8 [1]). lia.
Defined.

(** X6.  The anti-aliasing kernel is an averaging filter: in every
    channel its entries are non-negative and sum to 1. *)
Theorem anti_alias_kernel_normalised (kernel_size kw channel : Z) (rest : list Z) :
  1 <= kernel_size ->
  exists t,
    anti_alias_downsample_initializer (kernel_size :: kw :: channel :: rest) = Ok t /\
    (forall i j c d,
        0 <= i < kernel_size -> 0 <= j < kernel_size -> (0 <= at_ t [i; j; c; d])%R) /\
    forall c d,
      Rsum kernel_size (fun i => Rsum kernel_size (fun j => at_ t [i; j; c; d])) = 1%R.
Proof.
  intros Hk.
  destruct (anti_alias_initializer_value kernel_size kw channel rest Hk)
    as (t & Ht & Hs & Hat).
  cbv zeta in Hat. set (n := Z.to_nat (kernel_size - 1)) in *.
  assert (H2 : (0 < 2 ^ n)%R) by (apply pow_lt; lra).
  assert (Hw : forall i, 0 <= i < kernel_size ->
                 Q2R (nth (Z.to_nat i) (Nat.iter n (np_polymul [1 # 2; 1 # 2]%Q) [1%Q]) 0%Q)
                 = (C n (Z.to_nat i) / 2 ^ n)%R).
  { intros i Hi. apply half_power_binomial. unfold n. lia. }
  assert (Hpos : forall m p, (p <= m)%nat -> (0 < C m p)%R).
  { intros m p Hp. unfold C. apply Rdiv_lt_0_compat.
    - apply INR_fact_lt_0.
    - apply Rmult_lt_0_compat; apply INR_fact_lt_0. }
  assert (Hsum : Rsum kernel_size (fun i => (C n (Z.to_nat i) / 2 ^ n)%R) = 1%R).
  { replace kernel_size with (Z.of_nat (S n)) by (unfold n; lia).
    unfold Rdiv. rewrite Rsum_scal, Rsum_sum_f_R0.
    rewrite (sum_eq _ (fun i => C n i) n) by (intros i Hi; now rewrite Nat2Z.id).
    rewrite sum_binomial. field. lra. }
  exists t. split; [exact Ht|]. split.
  - intros i j c d Hi Hj. rewrite (Hat i j c d Hi Hj), !Hw by assumption.
    apply Rmult_le_pos; apply Rlt_le; apply Rdiv_lt_0_compat; try exact H2;
      apply Hpos; unfold n; lia.
  - intros c d.
    rewrite (Rsum_ext _ _ (fun i => (C n (Z.to_nat i) / 2 ^ n * 1)%R)).
    + rewrite Rsum_scal, Hsum. lra.
    + intros i Hi.
      rewrite (Rsum_ext _ _ (fun j => (C n (Z.to_nat j) / 2 ^ n
                                        * (C n (Z.to_nat i) / 2 ^ n))%R)).
      * rewrite Rsum_scal, Hsum. lra.
      * intros j Hj. rewrite (Hat i j c d Hi Hj), !Hw by assumption. reflexivity.
Qed.

Lemma anti_alias_kernel_normalised_witness :
  exists t,
    anti_alias_downsample_initializer [3; 3; 8; 1] = Ok t /\
    (forall i j c d, 0 <= i < 3 -> 0 <= j < 3 -> (0 <= at_ t [i; j; c; d])%R) /\
    forall c d, Rsum 3 (fun i => Rsum 3 (fun j => at_ t [i; j; c; d])) = 1%R.
Proof.
  apply (anti_alias_kernel_normalised 3 3 8 [1]). lia.
Defined.

(** X7.  The initializer raises [IndexError] on a weight shape of
    fewer than three dimensions and [ValueError] (a negative power of
    the polynomial) when [kernel_size <= 0]. *)
Theorem anti_alias_initializer_errors (weight_shape : list Z) :
  ((List.length weight_shape < 3)%nat ->
   anti_alias_downsample_initializer weight_shape = Raise IndexError) /\
  (forall kernel_size kw channel rest,
      weight_shape = kernel_size :: kw :: channel :: rest -> kernel_size <= 0 ->
      anti_alias_downsample_initializer weight_shape = Raise ValueError).
Proof.
  split.
  - intros Hl. destruct weight_shape as [|a [|b [|c w]]]; try reflexivity.
    cbn [List.length] in Hl. lia.
  - intros kernel_size kw channel rest -> Hk.
    destruct (anti_alias_initializer_value 1 kw channel rest ltac:(lia)) as (t & Ht & _).
    unfold anti_alias_downsample_initializer in *.
    destruct (py_index (1 :: kw :: channel :: rest) 2) as [ch|] eqn:E2;
      [|cbn in Ht; discriminate].
    assert (E0 : py_index (kernel_size :: kw :: channel :: rest) 0 = Ok kernel_size)
      by reflexivity.
    assert (E2' : py_index (kernel_size :: kw :: channel :: rest) 2 = Ok ch)
      by exact E2.
    rewrite E0, E2'. cbn [bind]. unfold poly1d_pow.
    destruct (Z.ltb_spec (kernel_size - 1) 0); [reflexivity | lia].
Qed.

(* ================================================================== *)
(** * MixupToken *)
(* ================================================================== *)

Lemma slice_range_bounds (n a b : Z) :
  0 <= a <= b -> b <= n ->
  slice_len n (slice_range a b) = b - a /\ slice_start n (slice_range a b) = a.
Proof.
  intros Ha Hb. unfold slice_len, slice_start, slice_stop, slice_range, clamp_bound.
  cbn [sl_start sl_stop sl_step].
  destruct (Z.ltb_spec a 0); [lia|]. destruct (Z.ltb_spec b 0); [lia|].
  replace (Z.min n (Z.max 0 a)) with a by lia.
  replace (Z.min n (Z.max 0 b)) with b by lia.
  split; [|reflexivity].
  destruct (Z.ltb_spec a b); [rewrite Z.div_1_r; lia | lia].
Qed.

Lemma slice_to_bounds (n v : Z) :
  0 <= v <= n -> slice_len n (slice_to v) = v /\ slice_start n (slice_to v) = 0.
Proof.
  intros Hv. unfold slice_len, slice_start, slice_stop, slice_to, clamp_bound.
  cbn [sl_start sl_stop sl_step].
  destruct (Z.ltb_spec v 0); [lia|].
  replace (Z.min n (Z.max 0 v)) with v by lia.
  split; [|reflexivity].
  destruct (Z.ltb_spec 0 v); [rewrite Z.div_1_r; lia | lia].
Qed.

Lemma slice_from_bounds (n a : Z) :
  0 <= a <= n -> slice_len n (slice_from a) = n - a /\ slice_start n (slice_from a) = a.
Proof.
  intros Ha. unfold slice_len, slice_start, slice_stop, slice_from, clamp_bound.
  cbn [sl_start sl_stop sl_step].
  destruct (Z.ltb_spec a 0); [lia|].
  replace (Z.min n (Z.max 0 a)) with a by lia.
  split; [|reflexivity].
  destruct (Z.ltb_spec a n); [rewrite Z.div_1_r; lia | lia].
Qed.

(** [t[:, s]] and [t[:, :, s]] on a rank-4 tensor, for a slice [s] of
    step 1. *)
Lemma tf_getitem_axis1 (t : tensor) (d0 d1 d2 d3 : Z) (s : pyslice) :
  shape t = [d0; d1; d2; d3] -> 0 <= d0 -> 0 <= d2 -> 0 <= d3 -> sl_step s = 1 ->
  exists y,
    tf_getitem t [slice_all; s] = Ok y /\
    shape y = [d0; slice_len d1 s; d2; d3] /\
    forall b i j c, at_ y [b; i; j; c] = at_ t [b; slice_start d1 s + i; j; c].
Proof.
  intros Hs H0 H2 H3 Hstep. unfold tf_getitem. rewrite Hs.
  cbn [List.length Nat.ltb Nat.leb Nat.sub repeat app].
  eexists. split; [reflexivity|]. split.
  - rewrite tf_slice_shape, Hs. cbn [zip_with]. now rewrite !slice_all_len.
  - intros b i j c. rewrite tf_slice_at, Hs. cbn [combine zip_with].
    rewrite !slice_all_start, Hstep. cbn [sl_step slice_all].
    rewrite !Z.mul_1_r, !Z.add_0_l. reflexivity.
Qed.

Lemma tf_getitem_axis2 (t : tensor) (d0 d1 d2 d3 : Z) (s : pyslice) :
  shape t = [d0; d1; d2; d3] -> 0 <= d0 -> 0 <= d1 -> 0 <= d3 -> sl_step s = 1 ->
  exists y,
    tf_getitem t [slice_all; slice_all; s] = Ok y /\
    shape y = [d0; d1; slice_len d2 s; d3] /\
    forall b i j c, at_ y [b; i; j; c] = at_ t [b; i; slice_start d2 s + j; c].
Proof.
  intros Hs H0 H2 H3 Hstep. unfold tf_getitem. rewrite Hs.
  cbn [List.length Nat.ltb Nat.leb Nat.sub repeat app].
  eexists. split; [reflexivity|]. split.
  - rewrite tf_slice_shape, Hs. cbn [zip_with]. now rewrite !slice_all_len.
  - intros b i j c. rewrite tf_slice_at, Hs. cbn [combine zip_with].
    rewrite !slice_all_start, Hstep. cbn [sl_step slice_all].
    rewrite !Z.mul_1_r, !Z.add_0_l. reflexivity.
Qed.

(** A successful [tf.concat] of two rank-4 tensors along axis 1 or 2. *)
Lemma tf_concat_axis1_ok (x y : tensor) (d0 h1 h2 d2 d3 : Z) :
  shape x = [d0; h1; d2; d3] -> shape y = [d0; h2; d2; d3] ->
  exists z,
    tf_concat x y 1 = Ok z /\
    shape z = [d0; h1 + h2; d2; d3] /\
    forall b i j c,
      at_ z [b; i; j; c] = if i <? h1 then at_ x [b; i; j; c] else at_ y [b; i - h1; j; c].
Proof.
  intros Hx Hy. unfold tf_concat. rewrite Hx, Hy.
  cbn [List.length Nat.eqb andb seq combine forallb]. unfold normalize_axis.
  change (1 <? 0) with false. cbv iota. change (Z.to_nat 1) with 1%nat.
  cbn [Nat.eqb orb]. rewrite !Z.eqb_refl. cbn [andb].
  eexists. split; [reflexivity|]. split.
  - rewrite tf_concat2_shape by lia. change (Z.to_nat 1) with 1%nat.
    rewrite Hx, Hy. reflexivity.
  - intros b i j c. rewrite tf_concat2_at by lia. change (Z.to_nat 1) with 1%nat.
    rewrite Hx. reflexivity.
Qed.

Lemma tf_concat_axis2_ok (x y : tensor) (d0 d1 w1 w2 d3 : Z) :
  shape x = [d0; d1; w1; d3] -> shape y = [d0; d1; w2; d3] ->
  exists z,
    tf_concat x y 2 = Ok z /\
    shape z = [d0; d1; w1 + w2; d3] /\
    forall b i j c,
      at_ z [b; i; j; c] = if j <? w1 then at_ x [b; i; j; c] else at_ y [b; i; j - w1; c].
Proof.
  intros Hx Hy. unfold tf_concat. rewrite Hx, Hy.
  cbn [List.length Nat.eqb andb seq combine forallb]. unfold normalize_axis.
  change (2 <? 0) with false. cbv iota. change (Z.to_nat 2) with 2%nat.
  cbn [Nat.eqb orb]. rewrite !Z.eqb_refl. cbn [andb].
  eexists. split; [reflexivity|]. split.
  - rewrite tf_concat2_shape by lia. change (Z.to_nat 2) with 2%nat.
    rewrite Hx, Hy. reflexivity.
  - intros b i j c. rewrite tf_concat2_at by lia. change (Z.to_nat 2) with 2%nat.
    rewrite Hx. reflexivity.
Qed.

Lemma tf_reverse_axis0_rank4 (t : tensor) (d0 d1 d2 d3 : Z) :
  shape t = [d0; d1; d2; d3] ->
  shape (tf_reverse_axis0 t) = [d0; d1; d2; d3] /\
  forall b i j c, at_ (tf_reverse_axis0 t) [b; i; j; c] = at_ t [d0 - 1 - b; i; j; c].
Proof. intros H. unfold tf_reverse_axis0. cbn [shape at_]. rewrite H. split; reflexivity. Qed.

Local Opaque Z.mul Z.add Z.sub Z.div Z.modulo Z.opp Z.ltb Z.leb Z.eqb Z.max Z.min.

(** The value of [do_mixup_token] on a box inside the feature map. *)
Lemma do_mixup_token_value (inputs : tensor) (B H W C left_ top_ right_ bottom_ : Z) :
  shape inputs = [B; H; W; C] -> 0 <= B -> 0 <= C ->
  0 <= left_ <= right_ -> right_ <= W -> 0 <= top_ <= bottom_ -> bottom_ <= H ->
  exists out,
    do_mixup_token inputs (left_, top_, right_, bottom_) = Ok out /\
    shape out = [B; H; W; C] /\
    forall b i j c,
      at_ out [b; i; j; c]
      = if (top_ <=? i) && (i <? bottom_) && (left_ <=? j) && (j <? right_)
        then at_ inputs [B - 1 - b; i; j; c]
        else at_ inputs [b; i; j; c].
Proof.
  intros Hs HB HC Hl Hr Ht Hb. unfold do_mixup_token, tf_concat3.
  destruct (slice_range_bounds W left_ right_ Hl Hr) as [Lsub Ssub].
  destruct (tf_getitem_axis2 inputs B H W C (slice_range left_ right_) Hs HB ltac:(lia) HC
              eq_refl) as (sub_ww & -> & Hss & Hsa).
  cbn [bind]. rewrite Lsub in Hss.
  destruct (slice_to_bounds H top_ ltac:(lia)) as [L1 S1].
  destruct (tf_getitem_axis1 sub_ww B H (right_ - left_) C (slice_to top_) Hss HB
              ltac:(lia) HC eq_refl) as (part_1 & -> & H1s & H1a).
  cbn [bind]. rewrite L1 in H1s.
  destruct (tf_reverse_axis0_rank4 sub_ww _ _ _ _ Hss) as [Hrs Hra].
  destruct (slice_range_bounds H top_ bottom_ Ht Hb) as [L2 S2].
  destruct (tf_getitem_axis1 (tf_reverse_axis0 sub_ww) B H (right_ - left_) C
              (slice_range top_ bottom_) Hrs HB ltac:(lia) HC eq_refl)
    as (part_2 & -> & H2s & H2a).
  cbn [bind]. rewrite L2 in H2s.
  destruct (slice_from_bounds H bottom_ ltac:(lia)) as [L3 S3].
  destruct (tf_getitem_axis1 sub_ww B H (right_ - left_) C (slice_from bottom_) Hss HB
              ltac:(lia) HC eq_refl) as (part_3 & -> & H3s & H3a).
  cbn [bind]. rewrite L3 in H3s.
  destruct (tf_concat_axis1_ok part_1 part_2 _ _ _ _ _ H1s H2s) as (p12 & -> & H12s & H12a).
  cbn [bind].
  destruct (tf_concat_axis1_ok p12 part_3 _ _ _ _ _ H12s H3s) as (mix_sub & -> & Hms & Hma).
  cbn [bind].
  destruct (slice_to_bounds W left_ ltac:(lia)) as [Lb Sb].
  destruct (tf_getitem_axis2 inputs B H W C (slice_to left_) Hs HB ltac:(lia) HC eq_refl)
    as (before & -> & Hbs & Hba).
  cbn [bind]. rewrite Lb in Hbs.
  destruct (slice_from_bounds W right_ ltac:(lia)) as [La Sa].
  destruct (tf_getitem_axis2 inputs B H W C (slice_from right_) Hs HB ltac:(lia) HC eq_refl)
    as (after & -> & Has & Haa).
  cbn [bind]. rewrite La in Has.
  assert (Hms' : shape mix_sub = [B; H; right_ - left_; C]).
  { rewrite Hms. repeat f_equal. lia. }
  destruct (tf_concat_axis2_ok before mix_sub _ _ _ _ _ Hbs Hms') as (bm & -> & Hbms & Hbma).
  cbn [bind].
  destruct (tf_concat_axis2_ok bm after _ _ _ _ _ Hbms Has) as (out & -> & Hos & Hoa).
  exists out. split; [reflexivity|]. split.
  - rewrite Hos. repeat f_equal. lia.
  - intros b i j c. rewrite Hoa, Hbma, Hba, Hma, H12a, H1a, H2a, H3a, Hra, !Hsa, Haa.
    rewrite Ssub, S1, S2, S3, Sb, Sa.
    destruct (Z.ltb_spec j (left_ + (right_ - left_))) as [J1|J1];
      destruct (Z.ltb_spec j left_) as [J2|J2];
      destruct (Z.ltb_spec i (top_ + (bottom_ - top_))) as [I1|I1];
      destruct (Z.ltb_spec i top_) as [I2|I2];
      destruct (Z.leb_spec top_ i); destruct (Z.ltb_spec i bottom_);
      destruct (Z.leb_spec left_ j); destruct (Z.ltb_spec j right_);
      cbn [andb]; try lia; f_equal; repeat (f_equal; try lia).
Qed.

(** X8.  [do_mixup_token] swaps the box between the examples of the
    batch in reverse order: on a feature map of shape [(B, H, W, C)]
    and a box inside it, the output has the input's shape; inside the
    box ([top <= i < bottom], [left <= j < right]) example [b] holds
    the values of example [B - 1 - b], and outside the box every value
    is unchanged. *)
Theorem do_mixup_token_swaps_box
    (inputs : tensor) (B H W C left_ top_ right_ bottom_ : Z) :
  shape inputs = [B; H; W; C] -> 0 <= B -> 0 <= C ->
  0 <= left_ <= right_ -> right_ <= W -> 0 <= top_ <= bottom_ -> bottom_ <= H ->
  exists out,
    do_mixup_token inputs (left_, top_, right_, bottom_) = Ok out /\
    shape out = shape inputs /\
    forall b i j c,
      (top_ <= i < bottom_ -> left_ <= j < right_ ->
       at_ out [b; i; j; c] = at_ inputs [B - 1 - b; i; j; c]) /\
      (~ (top_ <= i < bottom_ /\ left_ <= j < right_) ->
       at_ out [b; i; j; c] = at_ inputs [b; i; j; c]).
Proof.
  intros Hs HB HC Hl Hr Ht Hb.
  destruct (do_mixup_token_value inputs B H W C left_ top_ right_ bottom_
              Hs HB HC Hl Hr Ht Hb) as (out & Ho & Hos & Hoa).
  exists out. split; [exact Ho|]. split; [congruence|].
  intros b i j c. rewrite Hoa. split.
  - intros Hi Hj. zbool. reflexivity.
  - intros Hout.
    destruct (Z.leb_spec top_ i); destruct (Z.ltb_spec i bottom_);
      destruct (Z.leb_spec left_ j); destruct (Z.ltb_spec j right_);
      cbn [andb]; try reflexivity.
    exfalso. apply Hout. lia.
Qed.

(** X9.  Mixing twice with the same box restores the input: the
    second [do_mixup_token] undoes the first. *)
Theorem do_mixup_token_involution
    (inputs : tensor) (B H W C left_ top_ right_ bottom_ : Z) :
  shape inputs = [B; H; W; C] -> 0 <= B -> 0 <= C ->
  0 <= left_ <= right_ -> right_ <= W -> 0 <= top_ <= bottom_ -> bottom_ <= H ->
  exists mixed out,
    do_mixup_token inputs (left_, top_, right_, bottom_) = Ok mixed /\
    do_mixup_token mixed (left_, top_, right_, bottom_) = Ok out /\
    shape out = shape inputs /\
    forall b i j c, at_ out [b; i; j; c] = at_ inputs [b; i; j; c].
Proof.
  intros Hs HB HC Hl Hr Ht Hb.
  destruct (do_mixup_token_value inputs B H W C left_ top_ right_ bottom_
              Hs HB HC Hl Hr Ht Hb) as (mixed & Hm & Hms & Hma).
  destruct (do_mixup_token_value mixed B H W C left_ top_ right_ bottom_
              Hms HB HC Hl Hr Ht Hb) as (out & Ho & Hos & Hoa).
  exists mixed, out. split; [exact Hm|]. split; [exact Ho|]. split; [congruence|].
  intros b i j c. rewrite Hoa, !Hma.
  destruct ((top_ <=? i) && (i <? bottom_) && (left_ <=? j) && (j <? right_));
    [|reflexivity].
  repeat (f_equal; try lia).
Qed.

Local Transparent Z.mul Z.add Z.sub Z.div Z.modulo Z.opp Z.ltb Z.leb Z.eqb Z.max Z.min.

Lemma do_mixup_token_swaps_box_witness :
  exists out,
    do_mixup_token (ramp_image 4) (1, 0, 3, 2) = Ok out /\
    shape out = shape (ramp_image 4) /\
    forall b i j c,
      (0 <= i < 2 -> 1 <= j < 3 ->
       at_ out [b; i; j; c] = at_ (ramp_image 4) [1 - 1 - b; i; j; c]) /\
      (~ (0 <= i < 2 /\ 1 <= j < 3) ->
       at_ out [b; i; j; c] = at_ (ramp_image 4) [b; i; j; c]).
Proof.
  apply (do_mixup_token_swaps_box (ramp_image 4) 1 4 4 1 1 0 3 2); try lia. reflexivity.
Defined.

Lemma do_mixup_token_involution_witness :
  exists mixed out,
    do_mixup_token (ramp_image 4) (1, 0, 3, 2) = Ok mixed /\
    do_mixup_token mixed (1, 0, 3, 2) = Ok out /\
    shape out = shape (ramp_image 4) /\
    forall b i j c, at_ out [b; i; j; c] = at_ (ramp_image 4) [b; i; j; c].
Proof.
  apply (do_mixup_token_involution (ramp_image 4) 1 4 4 1 1 0 3 2); try lia. reflexivity.
Defined.

(** X10.  Outside the training phase mix-token changes nothing:
    [MixupToken.call] returns the empty box, and [do_mixup_token] with
    that box (scaled, as [VOLO] passes it) returns the feature map
    itself. *)
Theorem mix_token_inference_identity
    (self : MixupToken) (draws : mixup_draws) (inputs : tensor) (B H W C : Z) :
  shape inputs = [B; H; W; C] -> 0 <= B -> 0 <= H -> 0 <= W -> 0 <= C ->
  MixupToken_call self draws inputs false = (0, 0, 0, 0) /\
  exists out,
    do_mixup_token inputs
      (bbox_scale (MixupToken_call self draws inputs false) (mt_scale self)) = Ok out /\
    shape out = shape inputs /\
    forall b i j c, at_ out [b; i; j; c] = at_ inputs [b; i; j; c].
Proof.
  intros Hs HB HH HW HC. split; [reflexivity|].
  unfold MixupToken_call, bbox_scale. rewrite !Z.mul_0_l.
  destruct (do_mixup_token_value inputs B H W C 0 0 0 0 Hs HB HC
              ltac:(lia) HW ltac:(lia) HH) as (out & Ho & Hos & Hoa).
  exists out. split; [exact Ho|]. split; [congruence|].
  intros b i j c. rewrite Hoa.
  destruct (Z.leb_spec 0 i); destruct (Z.ltb_spec i 0);
    destruct (Z.leb_spec 0 j); destruct (Z.ltb_spec j 0); cbn [andb];
    try reflexivity; lia.
Qed.

Lemma mix_token_inference_identity_witness :
  MixupToken_call {| mt_scale := 2; mt_beta := 1 |}
    {| gamma_1_sample := 1; gamma_2_sample := 1; uniform_right := 0; uniform_bottom := 0 |}
    (ramp_image 4) false = (0, 0, 0, 0) /\
  exists out,
    do_mixup_token (ramp_image 4)
      (bbox_scale
         (MixupToken_call {| mt_scale := 2; mt_beta := 1 |}
            {| gamma_1_sample := 1; gamma_2_sample := 1;
               uniform_right := 0; uniform_bottom := 0 |}
            (ramp_image 4) false) 2) = Ok out /\
    shape out = shape (ramp_image 4) /\
    forall b i j c, at_ out [b; i; j; c] = at_ (ramp_image 4) [b; i; j; c].
Proof.
  apply (mix_token_inference_identity {| mt_scale := 2; mt_beta := 1 |} _ (ramp_image 4)
           1 4 4 1); try lia. reflexivity.
Defined.

Lemma tf_cast_int32_nonneg (x : R) : (0 <= x)%R -> 0 <= tf_cast_int32 x /\ (IZR (tf_cast_int32 x) <= x)%R.
Proof.
  intros Hx. unfold tf_cast_int32. destruct (Rle_dec 0 x) as [_|Hn]; [|contradiction].
  destruct (base_Int_part x) as [Hle Hgt]. split; [|exact Hle].
  assert (H : (-1 < IZR (Int_part x))%R) by lra.
  apply lt_IZR in H. lia.
Qed.

(** X11.  The box [rand_bbox] draws is well formed: for a positive
    [scale], uniform draws in their range and positive gamma samples,
    [0 <= left <= right < width // scale] and
    [0 <= top <= bottom < height // scale], each side is at most half
    of the scaled extent, and the box scaled by [scale] lies inside a
    [height x width] feature map. *)
Theorem rand_bbox_well_formed
    (self : MixupToken) (draws : mixup_draws) (height width : Z) :
  1 <= mt_scale self ->
  (0 < gamma_1_sample draws)%R -> (0 < gamma_2_sample draws)%R ->
  0 <= uniform_right draws < width / mt_scale self ->
  0 <= uniform_bottom draws < height / mt_scale self ->
  let '(left_, top_, right_, bottom_) := rand_bbox self draws height width in
  0 <= left_ <= right_ /\ right_ < width / mt_scale self /\
  0 <= top_ <= bottom_ /\ bottom_ < height / mt_scale self /\
  right_ - left_ <= width / mt_scale self / 2 /\
  bottom_ - top_ <= height / mt_scale self / 2 /\
  right_ * mt_scale self <= width /\ bottom_ * mt_scale self <= height.
Proof.
  intros Hsc Hg1 Hg2 Hr Hb. unfold rand_bbox. cbv zeta.
  set (lam := sample_beta_distribution draws).
  assert (Hlam : (0 < lam < 1)%R).
  { unfold lam, sample_beta_distribution. split.
    - apply Rdiv_lt_0_compat; lra.
    - apply (Rmult_lt_reg_r (gamma_1_sample draws + gamma_2_sample draws)); [lra|].
      unfold Rdiv. rewrite Rmult_assoc, Rinv_l by lra. lra. }
  assert (Hcut : (0 <= sqrt (1 - lam) <= 1)%R).
  { split; [apply sqrt_pos|]. rewrite <- sqrt_1 at 2. apply sqrt_le_1_alt. lra. }
  set (cut_rate := sqrt (1 - lam)) in *.
  assert (Hcast : forall s, 0 <= s ->
             0 <= tf_cast_int32 (IZR s * cut_rate) / 2 <= s / 2).
  { intros s Hs.
    assert (Hs' : (0 <= IZR s)%R) by (apply IZR_le; exact Hs).
    destruct (tf_cast_int32_nonneg (IZR s * cut_rate)) as [H0 Hle].
    { apply Rmult_le_pos; lra. }
    assert (Hle' : (IZR (tf_cast_int32 (IZR s * cut_rate)) <= IZR s)%R).
    { eapply Rle_trans; [exact Hle|]. rewrite <- (Rmult_1_r (IZR s)) at 2.
      apply Rmult_le_compat_l; lra. }
    apply le_IZR in Hle'.
    split; [apply Z.div_pos; lia | apply Z.div_le_mono; lia]. }
  pose proof (Hcast (width / mt_scale self) ltac:(lia)) as Hw.
  pose proof (Hcast (height / mt_scale self) ltac:(lia)) as Hh.
  pose proof (Z.mul_div_le width (mt_scale self) ltac:(lia)) as Mw.
  pose proof (Z.mul_div_le height (mt_scale self) ltac:(lia)) as Mh.
  repeat split; try lia; nia.
Qed.

Lemma rand_bbox_well_formed_witness :
  let '(left_, top_, right_, bottom_) :=
    rand_bbox {| mt_scale := 2; mt_beta := 1 |}
      {| gamma_1_sample := 1; gamma_2_sample := 1; uniform_right := 3; uniform_bottom := 5 |}
      28 28 in
  0 <= left_ <= right_ /\ right_ < 28 / 2 /\
  0 <= top_ <= bottom_ /\ bottom_ < 28 / 2 /\
  right_ - left_ <= 28 / 2 / 2 /\
  bottom_ - top_ <= 28 / 2 / 2 /\
  right_ * 2 <= 28 /\ bottom_ * 2 <= 28.
Proof.
  apply (rand_bbox_well_formed {| mt_scale := 2; mt_beta := 1 |}
           {| gamma_1_sample := 1; gamma_2_sample := 1;
              uniform_right := 3; uniform_bottom := 5 |} 28 28);
    cbn [mt_scale gamma_1_sample gamma_2_sample uniform_right uniform_bottom];
    try lia; try lra; change (28 / 2) with 14; lia.
Defined.

(* ================================================================== *)
(** * PositionalEmbedding and ClassToken *)
(* ================================================================== *)

(** X12.  [PositionalEmbedding] accepts rank-4 inputs only ([build]
    raises [ValueError] otherwise) and adds the same embedding to every
    example: with the weight [pp] of the shape [build] gives, the output
    has the input's shape and
    [out[b, i, j, c] = inputs[b, i, j, c] + pp[0, i, j, c]]. *)
Theorem PositionalEmbedding_spec (pp inputs : tensor) (input_shape : list Z) :
  (List.length input_shape <> 4%nat ->
   PositionalEmbedding_build input_shape = Raise ValueError) /\
  (forall B H W C,
      shape inputs = [B; H; W; C] ->
      PositionalEmbedding_build input_shape = Ok (shape pp) ->
      input_shape = shape inputs ->
      shape (PositionalEmbedding_call pp inputs) = shape inputs /\
      forall b i j c,
        in_range [B; H; W; C] [b; i; j; c] ->
        at_ (PositionalEmbedding_call pp inputs) [b; i; j; c]
        = Rplus (at_ inputs [b; i; j; c]) (at_ pp [0; i; j; c])).
Proof.
  split.
  - intros Hl. destruct input_shape as [|a [|b [|c [|d [|e l]]]]]; try reflexivity.
    now contradiction Hl.
  - intros B H W C Hs Hb ->. rewrite Hs in Hb. cbn [PositionalEmbedding_build] in Hb.
    inversion Hb as [Hpp]. symmetry in Hpp.
    unfold PositionalEmbedding_call, tensor_add, broadcast_op. cbn [shape at_].
    rewrite Hs, Hpp. cbn [List.length Nat.max Nat.sub]. unfold left_pad_shape.
    cbn [List.length Nat.sub repeat app skipn]. split.
    + unfold broadcast_dims. cbn [zip_with].
      destruct (Z.eqb_spec B 1), (H =? 1), (W =? 1), (C =? 1); congruence.
    + intros b i j c Hin. apply in_rangeb_4 in Hin.
      rewrite (broadcast_index_in_range [B; H; W; C] [b; i; j; c])
        by (apply in_rangeb_4; exact Hin).
      f_equal. f_equal. unfold broadcast_index. cbn [zip_with].
      change (1 =? 1) with true. cbv iota.
      destruct (Z.eqb_spec H 1), (Z.eqb_spec W 1), (Z.eqb_spec C 1);
        repeat (f_equal; try lia).
Qed.

Lemma tf_tile_tokens (t : tensor) (B C : Z) :
  shape t = [1; 1; C] ->
  shape (tf_tile t [B; 1; 1]) = [B; 1; C] /\
  forall b i c, 0 <= c < C -> at_ (tf_tile t [B; 1; 1]) [b; i; c] = at_ t [0; 0; c].
Proof.
  intros Hs. unfold tf_tile. cbn [shape at_]. rewrite Hs. cbn [zip_with]. split.
  - rewrite ?Z.mul_1_l, ?Z.mul_1_r. reflexivity.
  - intros b i c Hc. rewrite !Z.mod_1_r, Z.mod_small by lia. reflexivity.
Qed.

(** What [ClassToken.call] returns on a token sequence. *)
Lemma ClassToken_call_value (class_tokens inputs : tensor) (B N C : Z) :
  shape inputs = [B; N; C] -> shape class_tokens = [1; 1; C] ->
  exists out,
    ClassToken_call class_tokens inputs = Ok out /\
    shape out = [B; 1 + N; C] /\
    forall b k c,
      0 <= c < C ->
      at_ out [b; k; c]
      = if k <? 1 then at_ class_tokens [0; 0; c] else at_ inputs [b; k - 1; c].
Proof.
  intros Hs Ht. unfold ClassToken_call. rewrite Hs.
  change (py_index [B; N; C] 0) with (Ok B). cbn [bind].
  destruct (tf_tile_tokens class_tokens B C Ht) as [Hts Hta].
  unfold tf_concat. rewrite Hts, Hs.
  cbn [List.length Nat.eqb andb seq combine forallb]. unfold normalize_axis.
  change (1 <? 0) with false. cbv iota. change (Z.to_nat 1) with 1%nat.
  cbn [Nat.eqb orb]. rewrite !Z.eqb_refl. cbn [andb].
  eexists. split; [reflexivity|]. split.
  - rewrite tf_concat2_shape by lia. change (Z.to_nat 1) with 1%nat.
    rewrite Hts, Hs. reflexivity.
  - intros b k c Hc. rewrite tf_concat2_at by lia. change (Z.to_nat 1) with 1%nat.
    rewrite Hts. cbn [nth list_update].
    destruct (k <? 1); [now apply Hta | reflexivity].
Qed.

(** X13.  [ClassToken] prepends one learned token to every example: on
    an input of shape [(B, N, C)], with the weight of the shape [build]
    gives, the output has shape [(B, N + 1, C)] -- the shape
    [compute_output_shape] announces --, token 0 of every example is the
    class token and token [k + 1] is input token [k]. *)
Theorem ClassToken_spec (class_tokens inputs : tensor) (B N C : Z) :
  shape inputs = [B; N; C] ->
  ClassToken_build (shape inputs) = Ok (shape class_tokens) ->
  exists out,
    ClassToken_call class_tokens inputs = Ok out /\
    ClassToken_compute_output_shape (map Some (shape inputs)) = Ok (map Some (shape out)) /\
    shape out = [B; N + 1; C] /\
    forall b k c,
      0 <= c < C ->
      at_ out [b; 0; c] = at_ class_tokens [0; 0; c] /\
      (0 <= k -> at_ out [b; k + 1; c] = at_ inputs [b; k; c]).
Proof.
  intros Hs Hb. rewrite Hs in Hb.
  change (ClassToken_build [B; N; C]) with (Ok (A := list Z) [1; 1; C]) in Hb.
  inversion Hb as [Ht]. symmetry in Ht.
  destruct (ClassToken_call_value class_tokens inputs B N C Hs Ht) as (out & Ho & Hos & Hoa).
  exists out. split; [exact Ho|]. split; [|split].
  - rewrite Hs, Hos. cbn [map]. unfold ClassToken_compute_output_shape.
    change (py_index [Some B; Some N; Some C] 0) with (Ok (Some B)).
    change (py_index [Some B; Some N; Some C] 1) with (Ok (Some N)).
    change (py_index [Some B; Some N; Some C] 2) with (Ok (Some C)).
    cbn [bind]. now replace (1 + N) with (N + 1) by lia.
  - rewrite Hos. now replace (1 + N) with (N + 1) by lia.
  - intros b k c Hc. rewrite !Hoa by exact Hc. split; [reflexivity|].
    intros Hk. destruct (Z.ltb_spec (k + 1) 1); [lia|].
    now replace (k + 1 - 1) with k by lia.
Qed.

Lemma ClassToken_spec_witness :
  exists out,
    ClassToken_call (mkT [1; 1; 2] (fun _ => 0%R)) (ramp_tokens 3 2) = Ok out /\
    ClassToken_compute_output_shape (map Some (shape (ramp_tokens 3 2)))
    = Ok (map Some (shape out)) /\
    shape out = [1; 3 + 1; 2] /\
    forall b k c,
      0 <= c < 2 ->
      at_ out [b; 0; c] = at_ (mkT [1; 1; 2] (fun _ => 0%R)) [0; 0; c] /\
      (0 <= k -> at_ out [b; k + 1; c] = at_ (ramp_tokens 3 2) [b; k; c]).
Proof.
  apply (ClassToken_spec (mkT [1; 1; 2] (fun _ => 0%R)) (ramp_tokens 3 2) 1 3 2);
    reflexivity.
Defined.

(* ================================================================== *)
(** * VOLO: the class token and the classifier blocks *)
(* ================================================================== *)

(** One class-attention block leaves the shape and the tokens
    [k >= 1] as they are. *)
Lemma class_block_keeps_tokens
    (env : keras_env) (fw : keras_layers) (w : block_weights) (inputs out : tensor)
    (embed_dim num_head mlp_ratio : Z) (name : string) (B N C : Z) :
  (forall nh kd os ub nm q v y b t c,
      shape q = [b; t; c] -> MultiHeadAttention fw nh kd os ub nm q v = Ok y ->
      shape y = [b; t; os]) ->
  shape inputs = [B; N; C] -> 0 <= B -> 0 <= N -> 0 <= C ->
  attention_mlp_block env fw w inputs embed_dim num_head mlp_ratio (Some "class") 0
                      "gelu" 0 name = Ok out ->
  shape out = [B; N; C] /\
  forall b k c, 1 <= k -> at_ out [b; k; c] = at_ inputs [b; k; c].
Proof.
  intros Hmha Hs HB HN HC Hrun. unfold attention_mlp_block in Hrun.
  change (String.eqb "class" "class") with true in Hrun.
  change (String.eqb "class" "outlook") with false in Hrun.
  change (String.eqb "class" "outlook_simple") with false in Hrun.
  cbv iota in Hrun.
  destruct (Qlt_le_dec 0 0) as [Hlt|_]; [exfalso; Lqa.lra|].
  destruct (tf_getitem_rank3 inputs B N C (slice_to 1) [] Hs HB HC (or_introl eq_refl))
    as (nn_0 & Hg0 & _ & Hs0).
  rewrite Hg0 in Hrun. cbn [bind] in Hrun.
  destruct (py_floordiv embed_dim num_head) as [key_dim|]; cbn [bind] in Hrun;
    [|discriminate].
  set (ln := LayerNormalization BATCH_NORM_EPSILON (bw_LN w) inputs) in Hrun.
  assert (Hln : shape ln = [B; N; C]) by exact Hs.
  destruct (tf_getitem_rank3 ln B N C (slice_to 1) [slice_all] Hln HB HC
              (or_intror eq_refl)) as (query & Hgq & _ & Hq).
  rewrite Hgq in Hrun. cbn [bind] in Hrun.
  rewrite slice_to_1_len in Hs0, Hq by exact HN.
  destruct (MultiHeadAttention fw num_head key_dim embed_dim false _ query ln)
    as [attn|] eqn:Hattn; cbn [bind] in Hrun; [|discriminate].
  apply (Hmha _ _ _ _ _ _ _ _ _ _ _ Hq) in Hattn.
  apply (BiasLayer_shape3 (bw_attn_bias w)) in Hattn.
  set (biased := BiasLayer (bw_attn_bias w) attn) in *.
  destruct (keras_Add nn_0 biased) as [sum_1|] eqn:Hadd1; cbn [bind] in Hrun;
    [|discriminate].
  destruct (keras_Add_shape3 _ _ _ _ _ _ _ Hs0 Hattn Hadd1) as [c3 Hsum1].
  pose proof (Dense_shape3 embed_dim true (bw_mlp_dense_2 w)
                (tensor_map (gelu fw (if compute_dtype_float16 fw then true else false)) _)
                _ _ _
                (Dense_shape3 (embed_dim * mlp_ratio) true (bw_mlp_dense_1 w)
                   (LayerNormalization BATCH_NORM_EPSILON (bw_mlp_LN w) sum_1)
                   _ _ _ Hsum1)) as Hs2.
  match type of Hrun with
  | bind (keras_Add sum_1 ?m) _ = _ => set (nn_2 := m) in *
  end.
  destruct (keras_Add sum_1 nn_2) as [token|] eqn:Hadd2; cbn [bind] in Hrun; [|discriminate].
  destruct (keras_Add_shape3 _ _ _ _ _ _ _ Hsum1 Hs2 Hadd2) as [c4 Htok].
  destruct (tf_getitem_rank3 inputs B N C (slice_from 1) [] Hs HB HC (or_introl eq_refl))
    as (rest & Hrest & Hrest_eq & Hsr).
  rewrite Hrest in Hrun. cbn [bind] in Hrun.
  rewrite slice_from_1_len in Hsr by exact HN.
  destruct (tf_concat_axis1 _ _ _ _ _ _ _ _ _ Htok Hsr Hrun) as (-> & _ & ->).
  split.
  - rewrite tf_concat2_shape by lia. change (Z.to_nat 1) with 1%nat.
    rewrite Htok, Hsr. cbn [nth list_update]. repeat f_equal. lia.
  - intros b k c Hk.
    rewrite tf_concat2_at by lia. change (Z.to_nat 1) with 1%nat.
    rewrite Htok. cbn [nth list_update].
    destruct (Z.ltb_spec k (Z.min 1 N)); [lia|].
    rewrite Hrest_eq, tf_slice_at, Hs. cbn [combine zip_with].
    rewrite !slice_all_start, slice_from_1_start by exact HN.
    cbn [sl_step slice_all slice_from]. repeat f_equal; lia.
Qed.

(** The feature map flattened to a token sequence, row by row. *)
Lemma flatten_tokens (nn : tensor) (B H W C : Z) :
  shape nn = [B; H; W; C] -> 1 <= H -> 1 <= W -> 1 <= C ->
  shape (tf_reshape nn [-1; H * W; C]) = [B; H * W; C] /\
  forall b i j c,
    0 <= i < H -> 0 <= j < W -> 0 <= c < C ->
    at_ (tf_reshape nn [-1; H * W; C]) [b; i * W + j; c] = at_ nn [b; i; j; c].
Proof.
  intros Hs HH HW HC.
  assert (Hres : resolve_shape (numel (shape nn)) [-1; H * W; C] = [B; H * W; C]).
  { rewrite resolve_shape_head.
    - f_equal. rewrite Hs. unfold numel. cbn [fold_right].
      replace (B * (H * (W * (C * 1)))) with (B * (H * W * (C * 1))) by ring.
      apply Z.div_mul. nia.
    - cbn [forallb].
      destruct (Z.eqb_spec (H * W) (-1)); [nia|].
      destruct (Z.eqb_spec C (-1)); [lia | reflexivity]. }
  split.
  - unfold tf_reshape. cbn [shape]. exact Hres.
  - intros b i j c Hi Hj Hc.
    apply (tf_reshape_at nn _ B b [H; W; C] [i; j; c]).
    + exact Hs.
    + unfold in_range. cbn [in_rangeb].
      destruct (Z.leb_spec 0 i); [|lia]. destruct (Z.ltb_spec i H); [|lia].
      destruct (Z.leb_spec 0 j); [|lia]. destruct (Z.ltb_spec j W); [|lia].
      destruct (Z.leb_spec 0 c); [|lia]. destruct (Z.ltb_spec c C); [|lia].
      reflexivity.
    + rewrite Hres. unfold ravel. cbn [combine fold_left]. ring.
Qed.

(** X14.  The classifier stage of [VOLO] leaves the patch tokens
    untouched: the feature map of shape [(B, H, W, C)] becomes a
    sequence of [H * W + 1] tokens, and after the class token and any
    number of class-attention blocks token [1 + i * W + j] still holds
    the features of position [(i, j)].  ([MultiHeadAttention] is the
    framework's, returning one output per query position.) *)
Theorem VOLO_forward_cls_keeps_patch_tokens
    (env : keras_env) (fw : keras_layers) (class_tokens : tensor)
    (weights : Z -> block_weights) (nn out : tensor)
    (embed_dims num_heads mlp_ratios : list Z) (classfiers : Z) (B H W C : Z) :
  (forall nh kd os ub nm q v y b t c,
      shape q = [b; t; c] -> MultiHeadAttention fw nh kd os ub nm q v = Ok y ->
      shape y = [b; t; os]) ->
  shape nn = [B; H; W; C] -> 0 <= B -> 1 <= H -> 1 <= W -> 1 <= C ->
  shape class_tokens = [1; 1; C] ->
  VOLO_forward_cls_call env fw class_tokens weights nn embed_dims num_heads mlp_ratios
                        classfiers = Ok out ->
  shape out = [B; H * W + 1; C] /\
  forall b i j c,
    0 <= i < H -> 0 <= j < W -> 0 <= c < C ->
    at_ out [b; 1 + (i * W + j); c] = at_ nn [b; i; j; c].
Proof.
  intros Hmha Hs HB HH HW HC Ht Hrun. unfold VOLO_forward_cls_call in Hrun.
  rewrite Hs in Hrun. cbn [unpack_bhwc bind] in Hrun.
  destruct (flatten_tokens nn B H W C Hs HH HW HC) as [Hfs Hfa].
  destruct (ClassToken_call_value class_tokens _ B (H * W) C Hfs Ht)
    as (seq0 & Hc & Hs0 & Ha0).
  rewrite Hc in Hrun. cbn [bind] in Hrun.
  destruct (py_index embed_dims (-1)) as [embed_dim|]; cbn [bind] in Hrun; [|discriminate].
  destruct (py_index num_heads (-1)) as [num_head|]; cbn [bind] in Hrun; [|discriminate].
  destruct (py_index mlp_ratios (-1)) as [mlp_ratio|]; cbn [bind] in Hrun; [|discriminate].
  assert (Hinv : shape out = [B; 1 + H * W; C] /\
                 forall b k c, 1 <= k -> at_ out [b; k; c] = at_ seq0 [b; k; c]).
  { revert Hrun.
    apply (for_each_invariant _
             (fun s => shape s = [B; 1 + H * W; C] /\
                       forall b k c, 1 <= k -> at_ s [b; k; c] = at_ seq0 [b; k; c])).
    - intros s id s' [Hss Hsa] Hstep.
      destruct (class_block_keeps_tokens env fw (weights id) s s' embed_dim num_head
                  mlp_ratio _ B (1 + H * W) C Hmha Hss HB ltac:(nia) ltac:(lia) Hstep)
        as [Hs' Ha'].
      split; [exact Hs'|]. intros b k c Hk. rewrite Ha' by exact Hk. now apply Hsa.
    - split; [exact Hs0 | reflexivity]. }
  destruct Hinv as [Hos Hoa]. split.
  - rewrite Hos. now replace (1 + H * W) with (H * W + 1) by lia.
  - intros b i j c Hi Hj Hc'. rewrite Hoa by nia. rewrite Ha0 by exact Hc'.
    destruct (Z.ltb_spec (1 + (i * W + j)) 1); [nia|].
    replace (1 + (i * W + j) - 1) with (i * W + j) by lia.
    now apply Hfa.
Qed.

Lemma VOLO_forward_cls_keeps_patch_tokens_witness :
  exists out,
    VOLO_forward_cls_call inference_env inference_layers (mkT [1; 1; 2] (fun _ => 0%R))
      (fun _ => example_block_weights) (mkT [1; 2; 2; 2] (fun _ => 1%R)) [2; 2] [1; 1] [3; 3] 2
    = Ok out /\
    shape out = [1; 2 * 2 + 1; 2] /\
    at_ out [0; 1 + (1 * 2 + 0); 1] = at_ (mkT [1; 2; 2; 2] (fun _ => 1%R)) [0; 1; 0; 1].
Proof.
  assert (Hmha : forall nh kd os ub nm q v y b t c,
             shape q = [b; t; c] ->
             MultiHeadAttention inference_layers nh kd os ub nm q v = Ok y ->
             shape y = [b; t; os]).
  { intros nh kd os ub nm q v y b t c Hq Hy. inversion Hy; subst y. cbn [shape].
    now rewrite Hq. }
  assert (Hok : match VOLO_forward_cls_call inference_env inference_layers
                       (mkT [1; 1; 2] (fun _ => 0%R)) (fun _ => example_block_weights)
                       (mkT [1; 2; 2; 2] (fun _ => 1%R)) [2; 2] [1; 1] [3; 3] 2 with
                 | Ok _ => true
                 | Raise _ => false
                 end = true)
    by reflexivity.
  destruct (VOLO_forward_cls_call inference_env inference_layers
              (mkT [1; 1; 2] (fun _ => 0%R)) (fun _ => example_block_weights)
              (mkT [1; 2; 2; 2] (fun _ => 1%R)) [2; 2] [1; 1] [3; 3] 2) as [out|e] eqn:Hrun.
  - exists out. split; [reflexivity|].
    destruct (VOLO_forward_cls_keeps_patch_tokens inference_env inference_layers
                (mkT [1; 1; 2] (fun _ => 0%R)) (fun _ => example_block_weights)
                (mkT [1; 2; 2; 2] (fun _ => 1%R)) out [2; 2] [1; 1] [3; 3] 2 1 2 2 2
                Hmha eq_refl (Zle_bool_imp_le 0 1 eq_refl) (Zle_bool_imp_le 1 2 eq_refl)
                (Zle_bool_imp_le 1 2 eq_refl) (Zle_bool_imp_le 1 2 eq_refl) eq_refl Hrun)
      as [Hshape Hat].
    split; [exact Hshape|]. apply Hat; lia.
  - discriminate Hok.
Defined.

(* ================================================================== *)
(** * hard_swish, activation_by_name, batchnorm_with_activation *)
(* ================================================================== *)

(** Multiplying two tensors of the same shape. *)
Lemma tensor_mul_same_shape (a b : tensor) :
  shape a = shape b ->
  shape (tensor_mul a b) = shape a /\
  forall idx, in_range (shape a) idx ->
              at_ (tensor_mul a b) idx = (at_ a idx * at_ b idx)%R.
Proof.
  intros Hs. unfold tensor_mul, broadcast_op. cbn [shape at_]. rewrite <- Hs.
  rewrite Nat.max_id. unfold left_pad_shape. rewrite Nat.sub_diag. cbn [repeat app skipn].
  split; [apply broadcast_dims_same|].
  intros idx H. now rewrite broadcast_index_in_range.
Qed.

Lemma relu6_cases (x : R) :
  (x <= 0 -> relu6 x = 0)%R /\
  (0 <= x <= 6 -> relu6 x = x)%R /\
  (6 <= x -> relu6 x = 6)%R.
Proof.
  unfold relu6, Rmin, Rmax.
  repeat split; intros H; destruct (Rle_dec x 0); destruct (Rle_dec _ 6); lra.
Qed.

Lemma hard_swish_fwd_at (inputs : tensor) (idx : list Z) :
  in_range (shape inputs) idx ->
  at_ (hard_swish_fwd inputs) idx
  = (at_ inputs idx * relu6 (at_ inputs idx + 3) / 6)%R.
Proof.
  intros H. unfold hard_swish_fwd, tensor_div_scalar, tensor_map at 1. cbn [at_].
  set (gate := tensor_map relu6 (tensor_map (fun x => (x + 3)%R) inputs)).
  assert (Hs : shape inputs = shape gate) by reflexivity.
  now rewrite (proj2 (tensor_mul_same_shape inputs gate Hs) idx H).
Qed.

(** X15. [hard_swish] keeps the shape of its input and is, element by
    element, 0 up to -3, [x * (x + 3) / 6] between -3 and 3, and the
    identity from 3 on; it is never below -3/8, and on a non-negative
    element it lies between 0 and that element. *)
Theorem hard_swish_piecewise (inputs : tensor) :
  shape (hard_swish_fwd inputs) = shape inputs /\
  forall idx, in_range (shape inputs) idx ->
    let x := at_ inputs idx in
    let y := at_ (hard_swish_fwd inputs) idx in
    ((x <= -3 -> y = 0) /\
     (-3 <= x <= 3 -> y = x * (x + 3) / 6) /\
     (3 <= x -> y = x) /\
     - (3 / 8) <= y /\
     (0 <= x -> 0 <= y <= x))%R.
Proof.
  split.
  - unfold hard_swish_fwd, tensor_div_scalar, tensor_map at 1. cbn [shape].
    set (gate := tensor_map relu6 (tensor_map (fun x => (x + 3)%R) inputs)).
    assert (Hs : shape inputs = shape gate) by reflexivity.
    exact (proj1 (tensor_mul_same_shape inputs gate Hs)).
  - intros idx Hidx x y. subst y. rewrite (hard_swish_fwd_at _ _ Hidx). fold x.
    destruct (relu6_cases (x + 3)) as (Hlo & Hmid & Hhi).
    assert (Hsq : (0 <= (x + 3 / 2) * (x + 3 / 2))%R) by apply Rle_0_sqr.
    repeat split.
    + intros Hx. rewrite Hlo by lra. lra.
    + intros Hx. rewrite Hmid by lra. reflexivity.
    + intros Hx. rewrite Hhi by lra. lra.
    + destruct (Rle_dec x (-3)); [rewrite Hlo by lra; lra|].
      destruct (Rle_dec x 3); [rewrite Hmid by lra; nra|].
      rewrite Hhi by lra. lra.
    + destruct (Rle_dec x 3); [rewrite Hmid by lra; nra|].
      rewrite Hhi by lra. lra.
    + destruct (Rle_dec x 3); [rewrite Hmid by lra; nra|].
      rewrite Hhi by lra. lra.
Qed.

(** ** activation_by_name *)

Lemma firstn_seq_min (n start len : nat) :
  firstn n (seq start len) = seq start (Nat.min n len).
Proof.
  revert start len. induction n as [|n IH]; intros start [|len]; cbn; try reflexivity.
  now rewrite IH.
Qed.

Lemma py_range_drop_last (a n : Z) :
  1 <= n -> py_pop (py_range a (a + n)) (-1) = Ok (py_range a (a + n - 1)).
Proof.
  intros Hn. unfold py_pop. cbv zeta. rewrite py_range_length.
  replace (a + n - a) with n by lia. rewrite Z2Nat.id by lia.
  change (-1 <? 0) with true. cbv iota.
  destruct (Z.ltb_spec (-1 + n) 0); [lia|].
  destruct (Z.leb_spec n (-1 + n)); [lia|]. cbn [orb]. f_equal.
  unfold py_range. replace (a + n - a) with n by lia.
  replace (a + n - 1 - a) with (n - 1) by lia.
  rewrite skipn_map, firstn_map.
  rewrite <- map_app. f_equal.
  rewrite firstn_seq_min, skipn_seq.
  replace (Z.to_nat n - S (Z.to_nat (-1 + n)))%nat with 0%nat by lia.
  cbn [seq]. rewrite app_nil_r. f_equal. lia.
Qed.

Lemma py_range_drop_first (a n : Z) :
  1 <= n -> py_pop (py_range a (a + n)) 0 = Ok (py_range (a + 1) (a + n)).
Proof.
  intros Hn. unfold py_pop. cbv zeta. rewrite py_range_length.
  replace (a + n - a) with n by lia. rewrite Z2Nat.id by lia.
  change (0 <? 0) with false. cbv iota. change (0 <? 0) with false.
  destruct (Z.leb_spec n 0); [lia|]. cbn [orb]. f_equal.
  unfold py_range. replace (a + n - a) with n by lia.
  replace (a + n - (a + 1)) with (n - 1) by lia.
  change (Z.to_nat 0) with 0%nat. cbn [firstn app].
  rewrite skipn_map, skipn_seq. cbn [Nat.add].
  replace (Z.to_nat n - 1)%nat with (Z.to_nat (n - 1)) by lia.
  rewrite <- seq_shift, map_map. apply map_ext. intros k. lia.
Qed.

Lemma py_pop_nil {A : Type} (i : Z) : py_pop (@nil A) i = Raise IndexError.
Proof.
  unfold py_pop. cbv zeta. cbn [List.length]. change (Z.of_nat 0) with 0.
  destruct (i <? 0) eqn:Hi.
  - replace (i + 0 <? 0) with true; [reflexivity|]. symmetry. apply Z.ltb_lt.
    apply Z.ltb_lt in Hi. lia.
  - destruct (Z.leb_spec 0 i); [now rewrite orb_true_r|]. apply Z.ltb_ge in Hi. lia.
Qed.

Lemma prelu_not_hard_swish (act : string) :
  str_lower act = "prelu" -> String.eqb act "hard_swish" = false.
Proof.
  intros H. destruct (String.eqb_spec act "hard_swish") as [->|]; [|reflexivity].
  discriminate H.
Qed.

(** X16. How [activation_by_name] dispatches: [None] raises
    [AttributeError] and the empty string returns the input itself;
    whatever it returns has the static shape of the input.  For a
    name that is "prelu" in any capitalisation, an input of rank at
    most 1 raises [IndexError], and an input of rank n >= 2 gets a
    [PReLU] whose shared axes are all axes but the batch and channel
    axes: 1..n-2 for channels_last, 2..n-1 for channels_first. *)
Theorem activation_by_name_dispatch (fmt : data_format) (inputs : ktensor) (name : pyname) :
  activation_by_name fmt inputs None name = Raise AttributeError /\
  activation_by_name fmt inputs (Some "") name = Ok inputs /\
  (forall activation y,
      activation_by_name fmt inputs activation name = Ok y ->
      kshape fmt y = kshape fmt inputs) /\
  (forall act,
      str_lower act = "prelu" ->
      let n := Z.of_nat (List.length (kshape fmt inputs)) in
      (n <= 1 -> activation_by_name fmt inputs (Some act) name = Raise IndexError) /\
      (2 <= n ->
       activation_by_name fmt inputs (Some act) name
       = Ok (KLayer (PReLU (match fmt with
                            | channels_last => py_range 1 (n - 1)
                            | channels_first => py_range 2 n
                            end) (1 # 4) (activation_layer_name name (Some act)))
               [inputs]))).
Proof.
  split; [reflexivity|]. split; [reflexivity|]. split.
  - intros activation y Hy. now apply (activation_by_name_chain fmt inputs y activation name).
  - intros act Hact n. unfold activation_by_name.
    rewrite (prelu_not_hard_swish act Hact), Hact. cbn [String.eqb Ascii.eqb Bool.eqb].
    fold n. split; intros Hn.
    + replace (py_range 1 n) with (@nil Z).
      * now rewrite py_pop_nil.
      * unfold py_range. now replace (Z.to_nat (n - 1)) with 0%nat by lia.
    + replace n with (1 + (n - 1)) at 1 by lia.
      destruct fmt.
      * rewrite py_range_drop_last by lia. cbn [bind].
        now replace (1 + (n - 1) - 1) with (n - 1) by lia.
      * rewrite py_range_drop_first by lia. cbn [bind].
        now replace (1 + (n - 1)) with n by lia.
Qed.

(** ** batchnorm_with_activation *)

Lemma name_truthy_some (activation : pyname) :
  name_truthy activation = true -> exists act, activation = Some act.
Proof. destruct activation as [act|]; [now exists act | discriminate]. Qed.

(** On an input of rank at least 2 a named activation is always built. *)
Lemma activation_by_name_total (fmt : data_format) (x : ktensor) (act : string) (name : pyname) :
  (2 <= List.length (kshape fmt x))%nat ->
  exists y, activation_by_name fmt x (Some act) name = Ok y.
Proof.
  intros Hr. unfold activation_by_name.
  destruct (String.eqb act "hard_swish"); [eauto|].
  destruct (String.eqb (str_lower act) "prelu"); [|destruct (name_truthy (Some act)); eauto].
  set (n := Z.of_nat (List.length (kshape fmt x))).
  replace n with (1 + (n - 1)) by lia.
  destruct fmt.
  - rewrite py_range_drop_last by lia. cbn [bind]. eauto.
  - rewrite py_range_drop_first by lia. cbn [bind]. eauto.
Qed.

(** On an input of rank at least 2 the helper returns a tensor of the
    same static shape. *)
Lemma batchnorm_with_activation_ok (fmt : data_format) (inputs : ktensor)
    (activation : pyname) (zero_gamma : bool) (epsilon : Q) (act_first : bool)
    (name : pyname) :
  (2 <= List.length (kshape fmt inputs))%nat ->
  exists y,
    batchnorm_with_activation fmt inputs activation zero_gamma epsilon act_first name = Ok y /\
    kshape fmt y = kshape fmt inputs.
Proof.
  intros Hr. unfold batchnorm_with_activation.
  destruct (name_truthy activation) eqn:Ht.
  - destruct (name_truthy_some _ Ht) as [act ->].
    destruct act_first; cbn [andb negb].
    + destruct (activation_by_name_total fmt inputs act name Hr) as [x Hx].
      rewrite Hx. cbn [bind]. eexists. split; [reflexivity|].
      exact (proj2 (activation_by_name_chain _ _ _ _ _ Hx)).
    + cbn [bind].
      match goal with |- context [activation_by_name fmt ?bn _ _] =>
        destruct (activation_by_name_total fmt bn act name Hr) as [y Hy] end.
      exists y. split; [exact Hy|].
      exact (proj2 (activation_by_name_chain _ _ _ _ _ Hy)).
  - rewrite !andb_false_r. cbn [bind]. eexists. split; reflexivity.
Qed.



(* ================================================================== *)
(** * Static output sizes of the convolution helpers *)
(* ================================================================== *)

Lemma to_bhwc_of_bhwc (fmt : data_format) (b h w c : kdim) :
  to_bhwc fmt (of_bhwc fmt b h w c) = Some (b, h, w, c).
Proof. now destruct fmt. Qed.

Lemma conv_output_length_VALID (n k s : Z) :
  conv_output_length (Some n) k "VALID" s = Some ((n - k + s) / s).
Proof.
  unfold conv_output_length. change (String.eqb (str_lower "VALID") "same") with false.
  cbv iota. do 2 f_equal. lia.
Qed.

Lemma conv_output_length_valid (n k s : Z) :
  conv_output_length (Some n) k "valid" s = Some ((n - k + s) / s).
Proof.
  unfold conv_output_length. change (String.eqb (str_lower "valid") "same") with false.
  cbv iota. do 2 f_equal. lia.
Qed.

Lemma conv_output_length_same (n k s : Z) :
  conv_output_length (Some n) k "same" s = Some ((n + s - 1) / s).
Proof. reflexivity. Qed.

(** The size left by a VALID convolution after padding [k // 2] on
    both sides. *)
Lemma padded_valid_size (n k s : Z) :
  0 < k -> 0 < s ->
  (n + 2 * (k / 2) - k + s) / s
  = if Z.odd k then (n + s - 1) / s else n / s + 1.
Proof.
  intros Hk Hs. pose proof (Zdiv2_odd_eqn k) as Hk2. rewrite Z.div2_div in Hk2.
  destruct (Z.odd k).
  - f_equal. lia.
  - replace (n + 2 * (k / 2) - k + s) with (n + 1 * s) by lia.
    now rewrite Z.div_add by lia.
Qed.

(** The static shape of a symbolic tensor after [ZeroPadding2D], when
    [k // 2] is not 0, and as it is otherwise. *)
Lemma deferred_pad_shape (fmt : data_format) (x : ktensor) (k : Z) (name : pyname)
    (b c : kdim) (h w : Z) :
  kshape fmt x = of_bhwc fmt b (Some h) (Some w) c ->
  kshape fmt (if true && negb (k / 2 =? 0)
              then KLayer (ZeroPadding2D (k / 2) name) [x] else x)
  = of_bhwc fmt b (Some (h + 2 * (k / 2))) (Some (w + 2 * (k / 2))) c.
Proof.
  intros Hx. cbn [andb]. destruct (Z.eqb_spec (k / 2) 0) as [E|E]; cbn [negb].
  - rewrite Hx, E. now rewrite !Z.add_0_r.
  - cbn [kshape map layer_output_shape hd]. now rewrite Hx, to_bhwc_of_bhwc.
Qed.

(** The size after SAME padding done by hand: [ceil(n / strides)] for
    an odd kernel, [n // strides + 1] for an even one. *)
Lemma conv2d_no_bias_same_shape (fmt : data_format) (inputs : ktensor)
    (filters k strides : Z) (padding : string) (use_bias : bool) (groups : Z)
    (name : pyname) (b c : kdim) (h w : Z) :
  kshape fmt inputs = of_bhwc fmt b (Some h) (Some w) c ->
  str_upper padding = "SAME" -> 0 < k -> 0 < strides ->
  let size n := if Z.odd k then (n + strides - 1) / strides else n / strides + 1 in
  exists t,
    conv2d_no_bias inputs filters (KInt k) strides padding use_bias groups name = Ok t /\
    kshape fmt t
    = of_bhwc fmt b (Some (size h)) (Some (size w))
              (if Z.max 1 groups =? filters then c else Some filters).
Proof.
  intros Hx Hp Hk Hs size.
  assert (Hh := padded_valid_size h k strides Hk Hs).
  assert (Hw := padded_valid_size w k strides Hk Hs).
  fold (size h) in Hh. fold (size w) in Hw.
  unfold conv2d_no_bias. cbn [kernel_pad bind]. rewrite Hp.
  change (String.eqb "SAME" "SAME") with true.
  pose proof (deferred_pad_shape fmt inputs k (name_and name "pad") b c h w Hx) as Hpad.
  set (x := if true && negb (k / 2 =? 0) then _ else inputs) in *.
  destruct (Z.max 1 groups =? filters); eexists; (split; [reflexivity|]);
    cbn [kshape map layer_output_shape hd kernel_hw fst snd];
    rewrite Hpad, to_bhwc_of_bhwc, !conv_output_length_VALID, Hh, Hw; reflexivity.
Qed.

Lemma depthwise_conv2d_no_bias_same_shape (fmt : data_format) (inputs : ktensor)
    (k strides : Z) (padding : string) (use_bias : bool) (name : pyname)
    (b c : kdim) (h w : Z) :
  kshape fmt inputs = of_bhwc fmt b (Some h) (Some w) c ->
  str_upper padding = "SAME" -> 0 < k -> 0 < strides ->
  let size n := if Z.odd k then (n + strides - 1) / strides else n / strides + 1 in
  exists t,
    depthwise_conv2d_no_bias inputs (KInt k) strides padding use_bias name = Ok t /\
    kshape fmt t = of_bhwc fmt b (Some (size h)) (Some (size w)) c.
Proof.
  intros Hx Hp Hk Hs size.
  assert (Hh := padded_valid_size h k strides Hk Hs).
  assert (Hw := padded_valid_size w k strides Hk Hs).
  fold (size h) in Hh. fold (size w) in Hw.
  unfold depthwise_conv2d_no_bias. cbn [kernel_pad bind]. rewrite Hp.
  change (String.eqb "SAME" "SAME") with true.
  pose proof (deferred_pad_shape fmt inputs k (name_and name "dw_pad") b c h w Hx) as Hpad.
  set (x := if true && negb (k / 2 =? 0) then _ else inputs) in *.
  eexists; (split; [reflexivity|]).
  cbn [kshape map layer_output_shape hd kernel_hw fst snd].
  rewrite Hpad, to_bhwc_of_bhwc, !conv_output_length_valid, Hh, Hw. reflexivity.
Qed.

(** Without SAME padding nothing is padded. *)
Lemma conv2d_no_bias_valid_shape (fmt : data_format) (inputs : ktensor)
    (filters k strides : Z) (use_bias : bool) (groups : Z)
    (name : pyname) (b h w c : kdim) :
  kshape fmt inputs = of_bhwc fmt b h w c ->
  exists t,
    conv2d_no_bias inputs filters (KInt k) strides "VALID" use_bias groups name = Ok t /\
    kshape fmt t
    = of_bhwc fmt b (conv_output_length h k "VALID" strides)
              (conv_output_length w k "VALID" strides)
              (if Z.max 1 groups =? filters then c else Some filters).
Proof.
  intros Hx. unfold conv2d_no_bias. cbn [kernel_pad bind].
  change (String.eqb (str_upper "VALID") "SAME") with false. cbn [andb].
  destruct (Z.max 1 groups =? filters); eexists; (split; [reflexivity|]);
    cbn [kshape map layer_output_shape hd kernel_hw fst snd];
    rewrite Hx, to_bhwc_of_bhwc; reflexivity.
Qed.

(** A [1 x 1] VALID convolution with stride 1 keeps every size, known
    or not. *)
Lemma conv_output_length_pointwise (d : kdim) : conv_output_length d 1 "VALID" 1 = d.
Proof.
  destruct d as [n|]; [|reflexivity]. rewrite conv_output_length_VALID.
  rewrite Z.div_1_r. f_equal. lia.
Qed.

(** X18. With [padding] "same" in any capitalisation, a square kernel
    [k > 0] and [strides > 0], both convolution helpers return a tensor
    whose height and width are [ceil(n / strides)] for an odd [k], the
    size of a native SAME convolution, but [n // strides + 1] for an
    even [k].  [depthwise_conv2d_no_bias] keeps the channels;
    [conv2d_no_bias] gives [filters] channels unless
    [max(1, groups) == filters], where it keeps the input's. *)
Theorem conv2d_no_bias_same_output_size (fmt : data_format) (inputs : ktensor)
    (filters k strides : Z) (padding : string) (use_bias : bool) (groups : Z)
    (name : pyname) (b c : kdim) (h w : Z) :
  kshape fmt inputs = of_bhwc fmt b (Some h) (Some w) c ->
  str_upper padding = "SAME" -> 0 < k -> 0 < strides ->
  let size n := if Z.odd k then (n + strides - 1) / strides else n / strides + 1 in
  (exists t,
      conv2d_no_bias inputs filters (KInt k) strides padding use_bias groups name = Ok t /\
      kshape fmt t
      = of_bhwc fmt b (Some (size h)) (Some (size w))
                (if Z.max 1 groups =? filters then c else Some filters)) /\
  (exists t,
      depthwise_conv2d_no_bias inputs (KInt k) strides padding use_bias name = Ok t /\
      kshape fmt t = of_bhwc fmt b (Some (size h)) (Some (size w)) c) /\
  (Z.odd k = true ->
   Some (size h) = conv_output_length (Some h) k "same" strides /\
   Some (size w) = conv_output_length (Some w) k "same" strides).
Proof.
  intros Hx Hp Hk Hs size. split; [|split].
  - exact (conv2d_no_bias_same_shape fmt inputs filters k strides padding use_bias groups
             name b c h w Hx Hp Hk Hs).
  - exact (depthwise_conv2d_no_bias_same_shape fmt inputs k strides padding use_bias name
             b c h w Hx Hp Hk Hs).
  - intros Hodd. rewrite !conv_output_length_same. unfold size. now rewrite Hodd.
Qed.

Lemma conv2d_no_bias_same_output_size_witness :
  exists t,
    conv2d_no_bias (KInput [None; Some 224; Some 224; Some 3]) 64 (KInt 7) 2 "same" false 1
                   (Some "stem_1_") = Ok t /\
    kshape channels_last t = [None; Some 112; Some 112; Some 64].
Proof.
  destruct (conv2d_no_bias_same_output_size channels_last
              (KInput [None; Some 224; Some 224; Some 3]) 64 7 2 "same" false 1
              (Some "stem_1_") None (Some 3) 224 224 eq_refl eq_refl eq_refl eq_refl)
    as [(t & Ht & Hs) _].
  exists t. split; [exact Ht | exact Hs].
Defined.

(* ================================================================== *)
(** * Static shapes of patch_stem, res_ffn and res_MBConv *)
(* ================================================================== *)

Lemma of_bhwc_rank (fmt : data_format) (b h w c : kdim) :
  (2 <= List.length (of_bhwc fmt b h w c))%nat.
Proof. destruct fmt; cbn; lia. Qed.

Lemma ceil_div_1 (n : Z) : (n + 1 - 1) / 1 = n.
Proof. rewrite Z.div_1_r. lia. Qed.

(** Dividing twice: [ceil(n / s) // (p // s)] is [n // p] when [s]
    divides [p] and [p] divides [n]. *)
Lemma patch_size_divides (n p s : Z) :
  0 < s <= p -> p mod s = 0 -> n mod p = 0 ->
  ((n + s - 1) / s) / (p / s) = n / p.
Proof.
  intros Hs Hp Hn.
  apply Z.div_exact in Hp; [|lia]. apply Z.div_exact in Hn; [|lia].
  set (q := p / s) in *. set (m := n / p) in *.
  assert (Hq : 0 < q) by nia.
  replace (n + s - 1) with ((q * m) * s + (s - 1)) by nia.
  rewrite Z.div_add_l by lia. rewrite (Z.div_small (s - 1) s) by lia.
  rewrite Z.add_0_r, Z.mul_comm. apply Z.div_mul. lia.
Qed.



(** ** res_ffn *)

Lemma drop_block_shape (fmt : data_format) (x : ktensor) (drop_rate : Q) (name : pyname) :
  kshape fmt (drop_block fmt x drop_rate name) = kshape fmt x.
Proof. unfold drop_block. now destruct (Qlt_le_dec 0 drop_rate). Qed.

Lemma broadcast_shape_same_4 (b h w c : kdim) :
  broadcast_shape [b; h; w; c] [b; h; w; c] = [b; h; w; c].
Proof.
  unfold broadcast_shape. cbn [List.length Nat.sub repeat app zip_with].
  now rewrite !broadcast_dim_same.
Qed.


